(** * convert_image_to_tensor: a shallow embedding and its properties

    The program [binaries/convert_image_to_tensor.cc] reads a batch of images,
    resizes and centre-crops them, normalises the pixels and writes one NCHW
    float tensor.  This file embeds its functions ([reportTime],
    [resizeImage], [cropToRec], [convertToVector], [convertOneImage],
    [convertImages]) and proves the properties stated about them.

    Conventions of the embedding.
    - C++ [int] values are integers of [Z]; the products that can leave the
      32-bit range ([cols * rows], [C * size], [C * height * width]) are
      checked and a signed overflow is a fatal outcome.
    - [float] is IEEE binary32, taken from the parameterised specification of
      the standard library ([SpecFloat], precision 24, [emax] 128), every
      operation rounded to nearest-even as with [FLT_EVAL_METHOD == 0].
    - [assert] is active (a build without [NDEBUG]); a failed [assert], a
      failed [CAFFE_ENFORCE], an uncaught exception and undefined behaviour
      all end the run: they are the [Fatal] outcomes.
    - Console output, file reads and file writes are recorded as a trace of
      events; the elapsed time printed by [reportTime] is wall-clock time and
      is left out of the event. *)

From stdpp Require Import base list list_numbers strings.
From Stdlib Require Import ZArith Lia Ascii Floats.SpecFloat.

Local Open Scope Z_scope.

(** ** Outcomes *)

Inductive fatal : Type :=
| AssertionFailed (what : string)
| EnforceFailed (what : string)
| UncaughtException (what : string)
| UndefinedBehaviour (what : string).

Inductive result (A : Type) : Type :=
| Ok (a : A)
| Fatal (f : fatal).
Arguments Ok {A} a.
Arguments Fatal {A} f.

#[global] Instance result_ret : MRet result := fun _ a => Ok a.
#[global] Instance result_bind : MBind result := fun _ _ k m =>
  match m with
  | Ok a => k a
  | Fatal f => Fatal f
  end.

Definition assert (b : bool) (what : string) : result unit :=
  if b then Ok tt else Fatal (AssertionFailed what).

Definition INT_MAX : Z := 2147483647.
Definition INT_MIN : Z := -2147483648.

(** The value of an [int] expression: outside the 32-bit range the C++
    program has undefined behaviour. *)
Definition int_ (z : Z) : result Z :=
  if (INT_MIN <=? z) && (z <=? INT_MAX) then Ok z
  else Fatal (UndefinedBehaviour "signed integer overflow").

(** ** binary32 *)

Module F32.
Definition prec : Z := 24.
Definition emax : Z := 128.
Definition t : Type := spec_float.

(** int -> float conversion *)
Definition of_int (z : Z) : t := binary_normalize prec emax z 0 false.
Definition mul : t -> t -> t := SFmul prec emax.
Definition div : t -> t -> t := SFdiv prec emax.
Definition sub : t -> t -> t := SFsub prec emax.

(** float -> int conversion: truncation toward zero; undefined for NaN,
    the infinities and values outside the range of [int]. *)
Definition trunc (f : t) : option Z :=
  match f with
  | S754_zero _ => Some 0
  | S754_finite s m e =>
      Some (cond_Zopp s (match e with
                         | Zneg p => Z.shiftr (Zpos m) (Zpos p)
                         | _ => Z.shiftl (Zpos m) e
                         end))
  | _ => None
  end.

Definition to_int (f : t) : result Z :=
  match trunc f with
  | Some z => int_ z
  | None => Fatal (UndefinedBehaviour "float to int conversion")
  end.

(** The literals of the source: [0.406f] is the binary32 number nearest to
    0.406, that is 13623099 * 2^-25, and so on. *)
Definition lit_0_406 : t := S754_finite false 13623099 (-25).
Definition lit_0_456 : t := S754_finite false 15300821 (-25).
Definition lit_0_485 : t := S754_finite false 16273900 (-25).
Definition lit_0_225 : t := S754_finite false 15099494 (-26).
Definition lit_0_224 : t := S754_finite false 15032386 (-26).
Definition lit_0_229 : t := S754_finite false 15367930 (-26).
End F32.

(** ** Data *)

(** [uchar]: a pixel sample, 0..255. *)
Definition uchar : Type := Z.

(** [cv::Mat] as the program uses it: its [rows] and [cols] fields and the
    sample of channel [ch] at row [r] and column [c].  A grayscale image has
    the single channel 0, a color image the channels 0, 1, 2 in the order of
    the decoder. *)
Record Mat : Type := {
  rows : Z;
  cols : Z;
  at_ : Z -> Z -> Z -> uchar
}.

(** The element a [cv::MatIterator_] points to after [idx] increments from
    [begin]: elements are visited row by row. *)
Definition Mat_elem (img : Mat) (idx : Z) (ch : Z) : uchar :=
  at_ img (idx / cols img) (idx mod cols img) ch.

(** [img(roi)] followed by [clone()]: the rectangle of [roi_width] columns
    and [roi_height] rows whose top-left corner is [(roi_y, roi_x)]. *)
Definition Mat_roi (img : Mat) (roi_x roi_y roi_width roi_height : Z) : Mat :=
  {| rows := roi_height;
     cols := roi_width;
     at_ := fun r c ch => at_ img (roi_y + r) (roi_x + c) ch |}.

Inductive DataType : Type := FLOAT | OTHER.

Record TensorProto : Type := {
  data_type : DataType;
  dims : list Z;
  float_data : list F32.t
}.

Definition TensorProtos : Type := list TensorProto.

(** The command-line flags ([C10_DEFINE_...]). *)
Record Flags : Type := {
  FLAGS_color : bool;
  FLAGS_crop : string;
  FLAGS_input_images : string;
  FLAGS_input_image_file : string;
  FLAGS_output_tensor : string;
  FLAGS_preprocess : string;
  FLAGS_report_time : string;
  FLAGS_scale : Z;
  FLAGS_text_output : bool;
  FLAGS_warp : bool
}.

Definition default_flags : Flags :=
  {| FLAGS_color := true;
     FLAGS_crop := "-1,-1";
     FLAGS_input_images := "";
     FLAGS_input_image_file := "";
     FLAGS_output_tensor := "";
     FLAGS_preprocess := "";
     FLAGS_report_time := "";
     FLAGS_scale := 256;
     FLAGS_text_output := false;
     FLAGS_warp := false |}.

(** What the program calls and this repository does not define: the string
    helpers, the image codec and the file system. *)
Record Externals : Type := {
  (** [caffe2::split(separator, string)] *)
  split : ascii -> string -> list string;
  (** [std::stoi]; [None] when it throws *)
  stoi : string -> option Z;
  (** [cv::imread(filename, color or grayscale)] *)
  imread : string -> bool -> Mat;
  (** the samples [cv::resize] computes (linear interpolation) for a source
      and a destination width and height *)
  resample : Mat -> Z -> Z -> Z -> Z -> Z -> uchar;
  (** the lines [std::getline] reads from [std::ifstream(path)] *)
  getlines : string -> list string
}.

(** ** Effects: a trace of events, and a fatal end *)

Inductive event : Type :=
| EvCout (line : string)
| EvReportTime (identifier type metric unit_ : string)
| EvImread (filename : string) (color : bool)
| EvReadFile (path : string)
| EvWriteTextFile (path : string) (protos : TensorProtos)
| EvWriteBinaryFile (path : string) (protos : TensorProtos).

Definition io (A : Type) : Type := (list event * result A)%type.

#[global] Instance io_ret : MRet io := fun _ a => ([], Ok a).
#[global] Instance io_bind : MBind io := fun _ _ k m =>
  match m with
  | (tr, Ok a) => let '(tr', r) := k a in (tr ++ tr', r)
  | (tr, Fatal f) => (tr, Fatal f)
  end.

Definition emit (e : event) : io unit := ([e], Ok tt).
Definition lift {A : Type} (r : result A) : io A := ([], r).

Definition is_write (e : event) : bool :=
  match e with
  | EvWriteTextFile _ _ | EvWriteBinaryFile _ _ => true
  | _ => false
  end.

Definition is_imread (e : event) : bool :=
  match e with
  | EvImread _ _ => true
  | _ => false
  end.

Definition comma : ascii := ","%char.
Definition bar : ascii := "|"%char.

(** ** Vectors of floats *)

(** The three-element vectors [normalize], [mean] and [std]. *)
Definition vec3 : Type := (F32.t * F32.t * F32.t)%type.

Definition vec3_fill (x : F32.t) : vec3 := (x, x, x).

Definition vec3_get (v : vec3) (k : Z) : F32.t :=
  let '(a, b, c) := v in
  if k =? 0 then a else if k =? 1 then b else c.

(** The state the preprocessing steps update. *)
Record PreprocessState : Type := {
  normalize : vec3;
  mean : vec3;
  std : vec3;
  bgrtorgb : bool
}.

Definition initial_state : PreprocessState :=
  {| normalize := vec3_fill (F32.of_int 1);
     mean := vec3_fill (F32.of_int 0);
     std := vec3_fill (F32.of_int 1);
     bgrtorgb := false |}.

(** [(src / normalize[k] - mean[k]) / std[k]] *)
Definition normalized (st : PreprocessState) (k : Z) (src : uchar) : F32.t :=
  F32.div
    (F32.sub (F32.div (F32.of_int src) (vec3_get (normalize st) k))
             (vec3_get (mean st) k))
    (vec3_get (std st) k).

(** [std::vector<float> values(total_size)]: zero-initialised. *)
Definition new_vector (total_size : Z) : result (list F32.t) :=
  if total_size <? 0 then Fatal (UncaughtException "std::vector size")
  else Ok (replicate (Z.to_nat total_size) (S754_zero false)).

(** [values[i] = x]; writing past the end is undefined behaviour. *)
Definition vec_set (values : list F32.t) (i : Z) (x : F32.t)
  : result (list F32.t) :=
  if (0 <=? i) && (i <? Z.of_nat (length values))
  then Ok (<[Z.to_nat i := x]> values)
  else Fatal (UndefinedBehaviour "index past the end of values").

(** [v[i]] on a [vector<string>]. *)
Definition vector_at (v : list string) (i : nat) : result string :=
  match v !! i with
  | Some s => Ok s
  | None => Fatal (UndefinedBehaviour "index past the end of a vector")
  end.

Definition std_stoi (E : Externals) (s : string) : result Z :=
  match stoi E s with
  | Some z => Ok z
  | None => Fatal (UncaughtException "std::stoi")
  end.

(** The positions [begin], [begin + 1], ... a [MatIterator_] visits before
    it reaches [end]: one per element. *)
Definition Mat_iter (img : Mat) : list Z := seqZ 0 (rows img * cols img).

(** ** The program *)

Section Program.
Context (E : Externals) (fl : Flags).

(** [reportTime(type, ts, metric, unit)] *)
Definition reportTime (type metric unit_ : string) : io unit :=
  if String.eqb (FLAGS_report_time fl) "" then mret tt
  else
    let s := split E bar (FLAGS_report_time fl) in
    match s with
    | [] => lift (Fatal (UndefinedBehaviour "s[0] of an empty vector"))
    | s0 :: _ =>
        _ ← lift (assert (String.eqb s0 "json") "s[0] == json");
        let identifier := match s !! 1%nat with Some s1 => s1 | None => "" end in
        emit (EvReportTime identifier type metric unit_)
    end.

(** [cv::resize(img, resized_img, cv::Size(width, height), 0, 0,
    cv::INTER_LINEAR)]: the destination has the requested size. *)
Definition cv_resize (img : Mat) (dsize_width dsize_height : Z) : Mat :=
  {| rows := dsize_height;
     cols := dsize_width;
     at_ := resample E img dsize_width dsize_height |}.

(** [static_cast<float>(a) * FLAGS_scale / b], converted to [int]. *)
Definition scaled_edge (a b : Z) : result Z :=
  F32.to_int
    (F32.div (F32.mul (F32.of_int a) (F32.of_int (FLAGS_scale fl)))
             (F32.of_int b)).

(** [resizeImage(img)] *)
Definition resizeImage (img : Mat) : result Mat :=
  if FLAGS_scale fl <=? 0 then Ok img
  else
    '(scaled_width, scaled_height) ←
      (if rows img >? cols img then
         scaled_height ← scaled_edge (rows img) (cols img);
         Ok (FLAGS_scale fl, scaled_height)
       else
         scaled_width ← scaled_edge (cols img) (rows img);
         Ok (scaled_width, FLAGS_scale fl));
    Ok (cv_resize img scaled_width scaled_height).

(** [cropToRec(img, height, width)]; [height] and [width] are passed by
    reference, their final values are returned with the image. *)
Definition cropToRec (img : Mat) (height width : Z) : result (Mat * Z * Z) :=
  if (height >? 0) && (width >? 0) &&
     (negb (rows img =? height) || negb (cols img =? width))
  then
    let roi_x := Z.quot (cols img - width) 2 in
    let roi_y := Z.quot (rows img - height) 2 in
    let roi_x := if roi_x <? 0 then 0 else roi_x in
    let roi_y := if roi_y <? 0 then 0 else roi_y in
    let width := if width >? cols img then cols img else width in
    let height := if height >? rows img then rows img else height in
    let roi_width := width in
    let roi_height := height in
    _ ← assert
          ((0 <=? roi_x) && (0 <=? roi_width) &&
           (roi_x + roi_width <=? cols img) &&
           (0 <=? roi_y) && (0 <=? roi_height) &&
           (roi_y + roi_height <=? rows img))
          "roi inside img";
    let cimg := Mat_roi img roi_x roi_y roi_width roi_height in
    Ok (cimg, height, width)
  else Ok (img, height, width).

(** *** [convertToVector] *)

(** The preprocessing step loop of [convertToVector] (source lines
    132-152), on the state it updates. *)
Definition preprocess_step (st : PreprocessState) (step : string)
  : result PreprocessState :=
  if String.eqb step "subtract128" then
    Ok {| normalize := vec3_fill (F32.of_int 1);
          mean := vec3_fill (F32.of_int 128);
          std := vec3_fill (F32.of_int 1);
          bgrtorgb := bgrtorgb st |}
  else if String.eqb step "normalize" then
    Ok {| normalize := vec3_fill (F32.of_int 255);
          mean := mean st; std := std st; bgrtorgb := bgrtorgb st |}
  else if String.eqb step "mean" then
    Ok {| normalize := normalize st;
          mean := (F32.lit_0_406, F32.lit_0_456, F32.lit_0_485);
          std := std st; bgrtorgb := bgrtorgb st |}
  else if String.eqb step "std" then
    Ok {| normalize := normalize st; mean := mean st;
          std := (F32.lit_0_225, F32.lit_0_224, F32.lit_0_229);
          bgrtorgb := bgrtorgb st |}
  else if String.eqb step "bgrtorgb" then
    Ok {| normalize := normalize st; mean := mean st; std := std st;
          bgrtorgb := true |}
  else
    Fatal (EnforceFailed "Unsupported preprocess step.").

Fixpoint preprocess_steps (steps : list string) (st : PreprocessState)
  : result PreprocessState :=
  match steps with
  | [] => Ok st
  | step :: rest =>
      st' ← preprocess_step st step;
      preprocess_steps rest st'
  end.

(** The grayscale loop (source lines 158-162): [its] are the positions the
    iterator still has to visit, [idx] the next index written. *)
Fixpoint gray_loop (st : PreprocessState) (img : Mat) (its : list Z)
    (idx : Z) (values : list F32.t) : result (list F32.t) :=
  match its with
  | [] => Ok values
  | it :: rest =>
      values ← vec_set values idx (normalized st 0 (Mat_elem img it 0));
      gray_loop st img rest (idx + 1) values
  end.

(** The color loop (source lines 164-176). *)
Fixpoint color_loop (st : PreprocessState) (img : Mat) (size b g r : Z)
    (its : list Z) (i : Z) (values : list F32.t) : result (list F32.t) :=
  match its with
  | [] => Ok values
  | it :: rest =>
      values ← vec_set values i (normalized st 0 (Mat_elem img it b));
      let offset := size + i in
      values ← vec_set values offset (normalized st 1 (Mat_elem img it g));
      let offset := size + offset in
      values ← vec_set values offset (normalized st 2 (Mat_elem img it r));
      color_loop st img size b g r rest (i + 1) values
  end.

(** [convertToVector(img)] *)
Definition convertToVector (img : Mat) : result (list F32.t) :=
  size ← int_ (cols img * rows img);
  let steps := split E comma (FLAGS_preprocess fl) in
  st ← preprocess_steps steps initial_state;
  let C := if FLAGS_color fl then 3 else 1 in
  total_size ← int_ (C * size);
  values ← new_vector total_size;
  if C =? 1 then
    gray_loop st img (Mat_iter img) 0 values
  else
    let b := if bgrtorgb st then 2 else 0 in
    let g := 1 in
    let r := if bgrtorgb st then 0 else 2 in
    color_loop st img size b g r (Mat_iter img) 0 values.

(** *** [convertOneImage] *)

(** [filename[0]]; for the empty string it is the terminating zero. *)
Definition first_char (s : string) : ascii :=
  match s with
  | String c _ => c
  | EmptyString => Ascii.zero
  end.

(** [convertOneImage(filename, height, width)]: the values, and the final
    [height] and [width] of the two reference parameters.  The check
    [DCHECK(crop.isContinuous())] is about the memory layout of the crop,
    a fresh copy or a freshly decoded or resized image, and has no
    counterpart here. *)
Definition convertOneImage (filename : string) : io (list F32.t * Z * Z) :=
  _ ← lift (assert (negb (Ascii.eqb (first_char filename) "~")) "filename[0] != '~'");
  _ ← emit (EvCout ("Converting " +:+ filename));
  _ ← emit (EvImread filename (FLAGS_color fl));
  let img := imread E filename (FLAGS_color fl) in
  resized_img ← lift (resizeImage img);
  let sizes := split E comma (FLAGS_crop fl) in
  height ← lift (s ← vector_at sizes 0; std_stoi E s);
  width ← lift (s ← vector_at sizes 1; std_stoi E s);
  let '(height, width) :=
    if (height <=? 0) || (width <=? 0)
    then (rows resized_img, cols resized_img)
    else (height, width) in
  '(crop, height, width) ← lift (cropToRec resized_img height width);
  _ ← lift (assert (rows crop =? height) "crop.rows == height");
  _ ← lift (assert (rows crop =? width) "crop.rows == width");
  one_image_values ← lift (convertToVector crop);
  _ ← reportTime "image_preprocess" "convert" "us";
  mret (one_image_values, height, width).

(** *** [convertImages] *)

(** The choice of the input source (source lines 220-238). *)
Definition input_file_names : io (list string) :=
  if negb (String.eqb (FLAGS_input_images fl) "") then
    mret (split E comma (FLAGS_input_images fl))
  else if negb (String.eqb (FLAGS_input_image_file fl) "") then
    _ ← emit (EvReadFile (FLAGS_input_image_file fl));
    mret ((fun line =>
             let file_name := split E comma line in
             match file_name with
             | [_; _; name] => name
             | _ => line
             end) <$> getlines E (FLAGS_input_image_file fl))
  else
    lift (Fatal (AssertionFailed "false")).

(** The loop over the file names (source lines 243-255), from the state
    [height], [width], [values] it has reached. *)
Fixpoint convert_loop (file_names : list string) (height width : Z)
    (values : list (list F32.t)) : io (Z * Z * list (list F32.t)) :=
  match file_names with
  | [] => mret (height, width, values)
  | file_name :: rest =>
      '(one_image_values, one_height, one_width) ← convertOneImage file_name;
      '(height, width) ←
        (if (height <? 0) && (width <? 0) then
           mret (one_height, one_width)
         else
           _ ← lift (assert (height =? one_height) "height == one_height");
           _ ← lift (assert (width =? one_width) "width == one_width");
           mret (height, width));
      convert_loop rest height width (values ++ [one_image_values])
  end.

(** The packing loop (source lines 270-275).  The assertion compares a
    size with an [int]; a negative [int] equals no size, in C++ (where it is
    converted to a huge unsigned value) as here. *)
Fixpoint pack_loop (C height width : Z) (values : list (list F32.t))
    (float_data : list F32.t) : result (list F32.t) :=
  match values with
  | [] => Ok float_data
  | v :: rest =>
      chw ← int_ (C * height * width);
      _ ← assert (Z.of_nat (length v) =? chw)
            "values[i].size() == C * height * width";
      pack_loop C height width rest (float_data ++ v)
  end.

(** [convertImages()] *)
Definition convertImages : io unit :=
  file_names ← input_file_names;
  let C := if FLAGS_color fl then 3 else 1 in
  '(height, width, values) ← convert_loop file_names (-1) (-1) [];
  float_data ← lift (pack_loop C height width values []);
  let data :=
    {| data_type := FLOAT;
       dims := [Z.of_nat (length values); C; height; width];
       float_data := float_data |} in
  let protos := [data] in
  _ ← reportTime "image_preprocess" "pack" "us";
  if FLAGS_text_output fl then
    emit (EvWriteTextFile (FLAGS_output_tensor fl) protos)
  else
    emit (EvWriteBinaryFile (FLAGS_output_tensor fl) protos).

End Program.

(** ** The reference behaviour of the Cropper *)

(** The Cropper as the specification words it: the no-op cases, the clamped
    effective size and the centred, clamped offsets. *)
Definition Cropper_reference (img : Mat) (H W : Z) : Mat * Z * Z :=
  if (H <=? 0) || (W <=? 0) || ((H =? rows img) && (W =? cols img)) then
    (img, H, W)
  else
    let effectiveW := Z.min W (cols img) in
    let effectiveH := Z.min H (rows img) in
    let offsetX := Z.max 0 (Z.quot (cols img - W) 2) in
    let offsetY := Z.max 0 (Z.quot (rows img - H) 2) in
    (Mat_roi img offsetX offsetY effectiveW effectiveH, effectiveH, effectiveW).

(** The step vocabulary of the preprocess flag. *)
Definition vocabulary : list string :=
  ["subtract128"; "normalize"; "mean"; "std"; "bgrtorgb"].

(** ** Writing configurations *)

Definition with_scale (scale : Z) (fl : Flags) : Flags :=
  {| FLAGS_color := FLAGS_color fl; FLAGS_crop := FLAGS_crop fl;
     FLAGS_input_images := FLAGS_input_images fl;
     FLAGS_input_image_file := FLAGS_input_image_file fl;
     FLAGS_output_tensor := FLAGS_output_tensor fl;
     FLAGS_preprocess := FLAGS_preprocess fl;
     FLAGS_report_time := FLAGS_report_time fl;
     FLAGS_scale := scale;
     FLAGS_text_output := FLAGS_text_output fl; FLAGS_warp := FLAGS_warp fl |}.

Definition with_crop (crop : string) (fl : Flags) : Flags :=
  {| FLAGS_color := FLAGS_color fl; FLAGS_crop := crop;
     FLAGS_input_images := FLAGS_input_images fl;
     FLAGS_input_image_file := FLAGS_input_image_file fl;
     FLAGS_output_tensor := FLAGS_output_tensor fl;
     FLAGS_preprocess := FLAGS_preprocess fl;
     FLAGS_report_time := FLAGS_report_time fl;
     FLAGS_scale := FLAGS_scale fl;
     FLAGS_text_output := FLAGS_text_output fl; FLAGS_warp := FLAGS_warp fl |}.

Definition with_preprocess (preprocess : string) (fl : Flags) : Flags :=
  {| FLAGS_color := FLAGS_color fl; FLAGS_crop := FLAGS_crop fl;
     FLAGS_input_images := FLAGS_input_images fl;
     FLAGS_input_image_file := FLAGS_input_image_file fl;
     FLAGS_output_tensor := FLAGS_output_tensor fl;
     FLAGS_preprocess := preprocess;
     FLAGS_report_time := FLAGS_report_time fl;
     FLAGS_scale := FLAGS_scale fl;
     FLAGS_text_output := FLAGS_text_output fl; FLAGS_warp := FLAGS_warp fl |}.

Definition with_input_images (input_images : string) (fl : Flags) : Flags :=
  {| FLAGS_color := FLAGS_color fl; FLAGS_crop := FLAGS_crop fl;
     FLAGS_input_images := input_images;
     FLAGS_input_image_file := FLAGS_input_image_file fl;
     FLAGS_output_tensor := FLAGS_output_tensor fl;
     FLAGS_preprocess := FLAGS_preprocess fl;
     FLAGS_report_time := FLAGS_report_time fl;
     FLAGS_scale := FLAGS_scale fl;
     FLAGS_text_output := FLAGS_text_output fl; FLAGS_warp := FLAGS_warp fl |}.

Definition with_input_image_file (input_image_file : string) (fl : Flags) : Flags :=
  {| FLAGS_color := FLAGS_color fl; FLAGS_crop := FLAGS_crop fl;
     FLAGS_input_images := FLAGS_input_images fl;
     FLAGS_input_image_file := input_image_file;
     FLAGS_output_tensor := FLAGS_output_tensor fl;
     FLAGS_preprocess := FLAGS_preprocess fl;
     FLAGS_report_time := FLAGS_report_time fl;
     FLAGS_scale := FLAGS_scale fl;
     FLAGS_text_output := FLAGS_text_output fl; FLAGS_warp := FLAGS_warp fl |}.

Definition with_output_tensor (output_tensor : string) (fl : Flags) : Flags :=
  {| FLAGS_color := FLAGS_color fl; FLAGS_crop := FLAGS_crop fl;
     FLAGS_input_images := FLAGS_input_images fl;
     FLAGS_input_image_file := FLAGS_input_image_file fl;
     FLAGS_output_tensor := output_tensor;
     FLAGS_preprocess := FLAGS_preprocess fl;
     FLAGS_report_time := FLAGS_report_time fl;
     FLAGS_scale := FLAGS_scale fl;
     FLAGS_text_output := FLAGS_text_output fl; FLAGS_warp := FLAGS_warp fl |}.

Definition with_warp (warp : bool) (fl : Flags) : Flags :=
  {| FLAGS_color := FLAGS_color fl; FLAGS_crop := FLAGS_crop fl;
     FLAGS_input_images := FLAGS_input_images fl;
     FLAGS_input_image_file := FLAGS_input_image_file fl;
     FLAGS_output_tensor := FLAGS_output_tensor fl;
     FLAGS_preprocess := FLAGS_preprocess fl;
     FLAGS_report_time := FLAGS_report_time fl;
     FLAGS_scale := FLAGS_scale fl;
     FLAGS_text_output := FLAGS_text_output fl; FLAGS_warp := warp |}.

(** ** A concrete instance of the externals

    Used to run the program on examples: a [split] that cuts at every
    separator the way repeated [getline] does, a decimal [stoi], a codec that
    knows a few files, nearest-neighbour resampling and one manifest. *)
Module Fixture.

Fixpoint split_from (sep : ascii) (item : string) (s : string) : list string :=
  match s with
  | EmptyString => if String.eqb item "" then [] else [item]
  | String c rest =>
      if Ascii.eqb c sep then item :: split_from sep "" rest
      else split_from sep (item +:+ String c "") rest
  end.

Definition split_getline (sep : ascii) (s : string) : list string :=
  split_from sep "" s.

Fixpoint digits (s : string) (acc : Z) : option Z :=
  match s with
  | EmptyString => Some acc
  | String c rest =>
      let n := Z.of_nat (nat_of_ascii c) in
      if (48 <=? n) && (n <=? 57) then digits rest (10 * acc + (n - 48))
      else None
  end.

Definition stoi_decimal (s : string) : option Z :=
  match s with
  | EmptyString => None
  | String "-" EmptyString => None
  | String "-" rest => Z.opp <$> digits rest 0
  | _ => digits s 0
  end.

(** A [rows] x [cols] image whose sample of channel [ch] at [(r, c)] is
    [base + 10 * ch + r * cols + c]. *)
Definition ramp (rows cols base : Z) : Mat :=
  {| rows := rows; cols := cols;
     at_ := fun r c ch => base + 10 * ch + r * cols + c |}.

Definition empty_Mat : Mat :=
  {| rows := 0; cols := 0; at_ := fun _ _ _ => 0 |}.

Definition imread_known (filename : string) (color : bool) : Mat :=
  if String.eqb filename "pixel.png" then ramp 1 1 10
  else if String.eqb filename "square.png" then ramp 2 2 100
  else if String.eqb filename "wide.png" then ramp 2 3 100
  else if String.eqb filename "photo.jpg" then ramp 480 640 0
  else if String.eqb filename "large.png" then ramp 5613 5613 0
  else empty_Mat.

Definition resample_nearest (src : Mat) (width height r c ch : Z) : uchar :=
  at_ src (r * rows src / height) (c * cols src / width) ch.

Definition getlines_known (path : string) : list string :=
  if String.eqb path "list.txt" then ["square.png"; "0,1,square.png"]
  else [].

Definition E : Externals :=
  {| split := split_getline;
     stoi := stoi_decimal;
     imread := imread_known;
     resample := resample_nearest;
     getlines := getlines_known |}.

(** Both input sources given, no resizing, no crop. *)
Definition both_sources : Flags :=
  with_input_images "square.png"
    (with_input_image_file "list.txt"
       (with_scale 0 (with_output_tensor "out.pb" default_flags))).

(** Two equal images, no resizing, no crop. *)
Definition two_squares : Flags :=
  with_input_images "square.png,square.png"
    (with_scale 0 (with_output_tensor "out.pb" default_flags)).

(** A 2 x 2 image followed by a 1 x 1 image. *)
Definition square_then_pixel : Flags :=
  with_input_images "square.png,pixel.png"
    (with_scale 0 (with_output_tensor "out.pb" default_flags)).

End Fixture.

(** ** Signs of binary32 numbers *)

(** Not a negative finite number: zeros, infinities and NaN are allowed,
    they never convert to a negative [int]. *)
Definition not_negative (f : F32.t) : Prop :=
  match f with
  | S754_finite true _ _ => False
  | _ => True
  end.

(** The 24-bit mantissa of a positive integer below 2^24. *)
Definition mant (n : Z) : Z := n * 2 ^ (24 - Zdigits2 n).

(** ** Traces *)

(** The write events of a trace. *)
Definition writes (tr : list event) : list event := List.filter is_write tr.

(** The files a trace decodes. *)
Definition decodes (tr : list event) : list event := List.filter is_imread tr.

(** A computation that writes no file, whatever its outcome. *)
Definition silent {A : Type} (m : io A) : Prop := writes (fst m) = [].

(** The write that ends a run: text or binary, by [text_output]. *)
Definition write_event (fl : Flags) (protos : TensorProtos) : event :=
  if FLAGS_text_output fl then EvWriteTextFile (FLAGS_output_tensor fl) protos
  else EvWriteBinaryFile (FLAGS_output_tensor fl) protos.

(** A computation that has written no file when it ends fatally. *)
Definition fatal_silent {A : Type} (m : io A) : Prop :=
  forall tr e, m = (tr, Fatal e) -> writes tr = [].

(** The image channel that output channel [k] is read from. *)
Definition source_channel (fl : Flags) (st : PreprocessState) (k : Z) : Z :=
  if FLAGS_color fl then (if bgrtorgb st then 2 - k else k) else 0.

(** ** Assumptions on the codec *)

(** A decoded image, also the empty one of a failed decode, has no negative
    dimension. *)
Definition imread_well_formed (E : Externals) : Prop :=
  forall filename color,
    0 <= rows (imread E filename color) /\ 0 <= cols (imread E filename color).

(** The channel count [C] of a run. *)
Definition channels (fl : Flags) : Z := if FLAGS_color fl then 3 else 1.

(** ** Further notions: timing reports, channel exchange *)

Definition with_report_time (report_time : string) (fl : Flags) : Flags :=
  {| FLAGS_color := FLAGS_color fl; FLAGS_crop := FLAGS_crop fl;
     FLAGS_input_images := FLAGS_input_images fl;
     FLAGS_input_image_file := FLAGS_input_image_file fl;
     FLAGS_output_tensor := FLAGS_output_tensor fl;
     FLAGS_preprocess := FLAGS_preprocess fl;
     FLAGS_report_time := report_time;
     FLAGS_scale := FLAGS_scale fl;
     FLAGS_text_output := FLAGS_text_output fl; FLAGS_warp := FLAGS_warp fl |}.

Definition with_color (color : bool) (fl : Flags) : Flags :=
  {| FLAGS_color := color; FLAGS_crop := FLAGS_crop fl;
     FLAGS_input_images := FLAGS_input_images fl;
     FLAGS_input_image_file := FLAGS_input_image_file fl;
     FLAGS_output_tensor := FLAGS_output_tensor fl;
     FLAGS_preprocess := FLAGS_preprocess fl;
     FLAGS_report_time := FLAGS_report_time fl;
     FLAGS_scale := FLAGS_scale fl;
     FLAGS_text_output := FLAGS_text_output fl; FLAGS_warp := FLAGS_warp fl |}.

(** Every sample of the image is a [uchar] value. *)
Definition uchar_image (img : Mat) : Prop :=
  forall r c ch,
    0 <= r < rows img -> 0 <= c < cols img -> 0 <= ch < 3 ->
    0 <= at_ img r c ch <= 255.

(** The image with the channels 0 and 2 of every pixel exchanged. *)
Definition exchange_channels (img : Mat) : Mat :=
  {| rows := rows img; cols := cols img;
     at_ := fun r c ch => at_ img r c (2 - ch) |}.

(** The lines [reportTime] prints, and a trace without them. *)
Definition is_report (e : event) : bool :=
  match e with
  | EvReportTime _ _ _ _ => true
  | _ => false
  end.

Definition strip_reports (tr : list event) : list event :=
  List.filter (fun e => negb (is_report e)) tr.

(** Two computations that differ only in the timing lines they print. *)
Definition same_but_reports {A : Type} (m m' : io A) : Prop :=
  strip_reports (fst m) = strip_reports (fst m') /\ snd m = snd m'.

(** The [report_time] flag is empty or has the type [json]. *)
Definition report_supported (E : Externals) (fl : Flags) : Prop :=
  FLAGS_report_time fl = "" \/
  exists rest, split E bar (FLAGS_report_time fl) = "json" :: rest.

(** * Properties *)

(** ** binary32 sanity checks *)

Example F32_literals_nearest :
  F32.div (F32.of_int 406) (F32.of_int 1000) = F32.lit_0_406 /\
  F32.div (F32.of_int 456) (F32.of_int 1000) = F32.lit_0_456 /\
  F32.div (F32.of_int 485) (F32.of_int 1000) = F32.lit_0_485 /\
  F32.div (F32.of_int 225) (F32.of_int 1000) = F32.lit_0_225 /\
  F32.div (F32.of_int 224) (F32.of_int 1000) = F32.lit_0_224 /\
  F32.div (F32.of_int 229) (F32.of_int 1000) = F32.lit_0_229.
Proof. vm_compute. repeat split. Qed.

Example F32_of_int_128 : F32.of_int 128 = S754_finite false 8388608 (-16).
Proof. reflexivity. Qed.

Example F32_trunc_examples :
  F32.trunc (F32.div (F32.mul (F32.of_int 640) (F32.of_int 256))
                     (F32.of_int 480)) = Some 341 /\
  F32.trunc (F32.of_int (-7)) = Some (-7) /\
  F32.trunc (F32.div (F32.of_int (-7)) (F32.of_int 2)) = Some (-3) /\
  F32.trunc (F32.div (F32.of_int 1) (F32.of_int 0)) = None.
Proof. vm_compute. repeat split. Qed.


Example fixture_split :
  Fixture.split_getline comma "a,,b," = ["a"; ""; "b"] /\
  Fixture.split_getline comma "" = [] /\
  Fixture.split_getline comma "224,224" = ["224"; "224"] /\
  Fixture.stoi_decimal "-1" = Some (-1) /\
  Fixture.stoi_decimal "224" = Some 224.
Proof. vm_compute. repeat split. Qed.

(** ** Outcomes: basic facts *)

Lemma assert_Ok b what : assert b what = Ok tt <-> b = true.
Proof. unfold assert. destruct b; split; intros; congruence. Qed.

Lemma int_in_range z : INT_MIN <= z <= INT_MAX -> int_ z = Ok z.
Proof.
  intros Hz. unfold int_.
  destruct (INT_MIN <=? z) eqn:Hlo; [|lia].
  destruct (z <=? INT_MAX) eqn:Hhi; [reflexivity|lia].
Qed.

Lemma int_Ok z v : int_ z = Ok v -> v = z /\ INT_MIN <= z <= INT_MAX.
Proof.
  unfold int_. destruct (INT_MIN <=? z) eqn:Hlo; [|discriminate].
  destruct (z <=? INT_MAX) eqn:Hhi; [|discriminate].
  simpl. intros [= <-]. lia.
Qed.

(** ** The Cropper *)

Section Cropper.
Variable img : Mat.
Hypothesis rows_nonneg : 0 <= rows img.
Hypothesis cols_nonneg : 0 <= cols img.

Lemma quot2_nonneg z : 0 <= z -> 0 <= Z.quot z 2 <= z.
Proof.
  intros Hz. rewrite Z.quot_div_nonneg by lia.
  split; [apply Z.div_pos; lia|].
  apply Z.div_le_upper_bound; lia.
Qed.

Lemma quot2_neg z : z < 0 -> Z.quot z 2 <= 0.
Proof.
  intros Hz. replace z with (- (- z)) by lia.
  rewrite Z.quot_opp_l by lia.
  pose proof (quot2_nonneg (- z)). lia.
Qed.

(** The clamped offset and the clamped extent stay inside the image. *)
Lemma roi_inside (extent requested : Z) :
  0 <= extent -> 0 < requested ->
  let offset := Z.max 0 (Z.quot (extent - requested) 2) in
  let effective := Z.min requested extent in
  0 <= offset /\ 0 <= effective /\ offset + effective <= extent.
Proof.
  intros He Hr offset effective. subst offset effective.
  destruct (Z_le_gt_dec requested extent) as [Hle|Hgt].
  - pose proof (quot2_nonneg (extent - requested)). lia.
  - pose proof (quot2_neg (extent - requested)). lia.
Qed.

Lemma clamp_low_max z : (if z <? 0 then 0 else z) = Z.max 0 z.
Proof. destruct (z <? 0) eqn:H; lia. Qed.

Lemma clamp_high_min a b : (if a >? b then b else a) = Z.min a b.
Proof. destruct (a >? b) eqn:H; lia. Qed.

Lemma noop_test (H W : Z) :
  (H >? 0) && (W >? 0) && (negb (rows img =? H) || negb (cols img =? W))
  = negb ((H <=? 0) || (W <=? 0) || ((H =? rows img) && (W =? cols img))).
Proof.
  destruct (H >? 0) eqn:E1, (W >? 0) eqn:E2, (rows img =? H) eqn:E3,
    (cols img =? W) eqn:E4, (H <=? 0) eqn:E5, (W <=? 0) eqn:E6,
    (H =? rows img) eqn:E7, (W =? cols img) eqn:E8;
    simpl; try reflexivity; lia.
Qed.

Lemma cropToRec_computes (H W : Z) :
  cropToRec img H W = Ok (Cropper_reference img H W).
Proof.
  unfold cropToRec, Cropper_reference. rewrite noop_test.
  destruct ((H <=? 0) || (W <=? 0) || ((H =? rows img) && (W =? cols img)))
    eqn:Hnoop; simpl; [reflexivity|].
  rewrite !clamp_low_max, !clamp_high_min.
  assert (0 < H /\ 0 < W) as [HH HW].
  { destruct (H <=? 0) eqn:E1, (W <=? 0) eqn:E2; simpl in Hnoop;
      try discriminate; lia. }
  destruct (roi_inside (cols img) W cols_nonneg HW) as (Hx1 & Hx2 & Hx3).
  destruct (roi_inside (rows img) H rows_nonneg HH) as (Hy1 & Hy2 & Hy3).
  replace (assert _ _) with (Ok tt); [reflexivity|].
  symmetry. apply assert_Ok.
  repeat (apply andb_true_intro; split); lia.
Qed.

Lemma cropToRec_noop (H W : Z) :
  H <= 0 \/ W <= 0 \/ (H = rows img /\ W = cols img) ->
  cropToRec img H W = Ok (img, H, W).
Proof.
  intros Hnoop. rewrite cropToRec_computes. unfold Cropper_reference.
  replace ((H <=? 0) || (W <=? 0) || ((H =? rows img) && (W =? cols img)))
    with true; [reflexivity|].
  symmetry. destruct Hnoop as [Hn|[Hn|[Hn1 Hn2]]].
  - replace (H <=? 0) with true by lia. reflexivity.
  - replace (W <=? 0) with true by lia. apply orb_true_iff. left.
    apply orb_true_r.
  - subst. rewrite !Z.eqb_refl. apply orb_true_r.
Qed.

Lemma cropToRec_crops (H W : Z) :
  ~ (H <= 0 \/ W <= 0 \/ (H = rows img /\ W = cols img)) ->
  let effectiveW := Z.min W (cols img) in
  let effectiveH := Z.min H (rows img) in
  let offsetX := Z.max 0 (Z.quot (cols img - W) 2) in
  let offsetY := Z.max 0 (Z.quot (rows img - H) 2) in
  exists crop,
    cropToRec img H W = Ok (crop, effectiveH, effectiveW) /\
    rows crop = effectiveH /\ cols crop = effectiveW /\
    (forall r c ch, at_ crop r c ch = at_ img (offsetY + r) (offsetX + c) ch) /\
    0 <= offsetX /\ offsetX + effectiveW <= cols img /\
    0 <= offsetY /\ offsetY + effectiveH <= rows img.
Proof.
  intros Hcrop effectiveW effectiveH offsetX offsetY.
  assert (0 < H /\ 0 < W) as [HH HW] by lia.
  rewrite cropToRec_computes. unfold Cropper_reference.
  replace ((H <=? 0) || (W <=? 0) || ((H =? rows img) && (W =? cols img)))
    with false.
  2:{ symmetry. apply orb_false_iff. split.
      - apply orb_false_iff. split; lia.
      - apply andb_false_iff. lia. }
  destruct (roi_inside (cols img) W cols_nonneg HW) as (Hx1 & Hx2 & Hx3).
  destruct (roi_inside (rows img) H rows_nonneg HH) as (Hy1 & Hy2 & Hy3).
  eexists. split; [reflexivity|]. simpl. repeat split; assumption.
Qed.

(** C3.  On an image (non-negative [rows] and [cols]) [cropToRec] never
    fails and computes exactly the reference Cropper: the input image and
    the requested sizes unchanged when H <= 0, or W <= 0, or H = rows and
    W = cols; otherwise the copy of the rectangle of min(H, rows) rows and
    min(W, cols) columns at the offsets max(0, (cols - W) quot 2) and
    max(0, (rows - H) quot 2), computed from the requested sizes with
    truncating division.  In that second case the rectangle lies inside
    the image (0 <= offset and offset + effective extent <= cols, resp.
    rows), the result has exactly the effective height and width, and its
    sample at (r, c) is the source sample at (offsetY + r, offsetX + c). *)
Theorem cropToRec_reference (H W : Z) :
  cropToRec img H W = Ok (Cropper_reference img H W) /\
  ((H <= 0 \/ W <= 0 \/ (H = rows img /\ W = cols img)) ->
     cropToRec img H W = Ok (img, H, W)) /\
  (~ (H <= 0 \/ W <= 0 \/ (H = rows img /\ W = cols img)) ->
     let effectiveW := Z.min W (cols img) in
     let effectiveH := Z.min H (rows img) in
     let offsetX := Z.max 0 (Z.quot (cols img - W) 2) in
     let offsetY := Z.max 0 (Z.quot (rows img - H) 2) in
     exists crop,
       cropToRec img H W = Ok (crop, effectiveH, effectiveW) /\
       rows crop = effectiveH /\ cols crop = effectiveW /\
       (forall r c ch, at_ crop r c ch = at_ img (offsetY + r) (offsetX + c) ch) /\
       0 <= offsetX /\ offsetX + effectiveW <= cols img /\
       0 <= offsetY /\ offsetY + effectiveH <= rows img).
Proof.
  split; [apply cropToRec_computes|].
  split; [apply cropToRec_noop|apply cropToRec_crops].
Qed.

End Cropper.

Lemma cropToRec_reference_witness :
  cropToRec (Fixture.ramp 4 6 0) 2 3
  = Ok (Mat_roi (Fixture.ramp 4 6 0) 1 1 3 2, 2, 3).
Proof.
  apply (proj1 (cropToRec_reference (Fixture.ramp 4 6 0)
                  ltac:(simpl; lia) ltac:(simpl; lia) 2 3)).
Defined.

(** ** The preprocessing steps *)

Section Steps.

Lemma preprocess_step_recognized st step :
  step ∈ vocabulary -> exists st', preprocess_step st step = Ok st'.
Proof.
  unfold vocabulary. rewrite !elem_of_cons, elem_of_nil.
  intros [->|[->|[->|[->|[->|[]]]]]]; simpl; eauto.
Qed.

Lemma preprocess_step_unrecognized st step :
  step ∉ vocabulary ->
  preprocess_step st step = Fatal (EnforceFailed "Unsupported preprocess step.").
Proof.
  unfold vocabulary. rewrite !not_elem_of_cons. intros (H1 & H2 & H3 & H4 & H5 & _).
  unfold preprocess_step.
  rewrite <- String.eqb_neq in H1, H2, H3, H4, H5.
  rewrite H1, H2, H3, H4, H5. reflexivity.
Qed.

Lemma preprocess_steps_app l1 l2 st :
  preprocess_steps (l1 ++ l2) st
  = st' ← preprocess_steps l1 st; preprocess_steps l2 st'.
Proof.
  revert st. induction l1 as [|s l1 IH]; intros st; simpl; [reflexivity|].
  destruct (preprocess_step st s); simpl; [apply IH|reflexivity].
Qed.

Lemma preprocess_steps_recognized steps st :
  Forall (fun s => s ∈ vocabulary) steps ->
  exists st', preprocess_steps steps st = Ok st'.
Proof.
  intros Hall. revert st. induction Hall as [|s l Hs _ IH]; intros st; simpl.
  - eauto.
  - destruct (preprocess_step_recognized st s Hs) as [st' ->]. simpl. apply IH.
Qed.

(** C8.  A step list with a name outside the vocabulary subtract128,
    normalize, mean, std, bgrtorgb makes the step loop fail with the
    enforce error from every state, so [convertToVector] never returns a
    vector for it: it ends fatally for every image, and with the enforce
    error itself whenever the pixel count fits an [int]. *)
Theorem unrecognized_step_fatal (E : Externals) (fl : Flags) (img : Mat) :
  (exists s, s ∈ split E comma (FLAGS_preprocess fl) /\ s ∉ vocabulary) ->
  (forall st, preprocess_steps (split E comma (FLAGS_preprocess fl)) st
              = Fatal (EnforceFailed "Unsupported preprocess step.")) /\
  (exists f, convertToVector E fl img = Fatal f) /\
  (INT_MIN <= cols img * rows img <= INT_MAX ->
   convertToVector E fl img
   = Fatal (EnforceFailed "Unsupported preprocess step.")).
Proof.
  intros (s & Hin & Hbad).
  assert (Hsteps : forall st,
    preprocess_steps (split E comma (FLAGS_preprocess fl)) st
    = Fatal (EnforceFailed "Unsupported preprocess step.")).
  { induction (split E comma (FLAGS_preprocess fl)) as [|s' l IH]; intros st.
    - inversion Hin.
    - simpl. destruct (decide (s' ∈ vocabulary)) as [Hv|Hv].
      + destruct (preprocess_step_recognized st s' Hv) as [st' ->]. simpl.
        apply IH. apply elem_of_cons in Hin as [->|Hin]; [contradiction|assumption].
      + rewrite (preprocess_step_unrecognized st s' Hv). reflexivity. }
  split; [exact Hsteps|]. split.
  - unfold convertToVector. destruct (int_ (cols img * rows img)); simpl; [|eauto].
    rewrite Hsteps. simpl. eauto.
  - intros Hrange. unfold convertToVector. rewrite (int_in_range _ Hrange). simpl.
    rewrite Hsteps. reflexivity.
Qed.

Lemma preprocess_step_Ok st step st' :
  preprocess_step st step = Ok st' -> step ∈ vocabulary.
Proof.
  intros H. destruct (decide (step ∈ vocabulary)) as [Hv|Hv]; [exact Hv|].
  rewrite (preprocess_step_unrecognized st step Hv) in H. discriminate.
Qed.

Lemma preprocess_steps_Ok steps : forall st st',
  preprocess_steps steps st = Ok st' -> Forall (fun s => s ∈ vocabulary) steps.
Proof.
  induction steps as [|s l IH]; intros st st' H; [constructor|].
  cbn [preprocess_steps] in H.
  destruct (preprocess_step st s) as [st1|] eqn:Hs; [|discriminate].
  constructor; [eapply preprocess_step_Ok; eassumption|].
  eapply IH. exact H.
Qed.

(** The state after one more step, by the name of the step. *)
Lemma preprocess_steps_snoc l s st st' :
  preprocess_steps (l ++ [s]) st = Ok st' ->
  exists st1, preprocess_steps l st = Ok st1 /\ preprocess_step st1 s = Ok st'.
Proof.
  rewrite preprocess_steps_app.
  destruct (preprocess_steps l st) as [st1|]; [|discriminate].
  cbn [mbind result_bind preprocess_steps].
  destruct (preprocess_step st1 s) as [st2|] eqn:Hs; [|discriminate].
  cbn [mbind result_bind]. intros [= <-]. eauto.
Qed.

(** The steps after which mean = (128,128,128) and std = (1,1,1): some
    [subtract128] followed by [normalize] and [bgrtorgb] steps only. *)
Lemma mean_128_std_1 steps : forall st,
  preprocess_steps steps initial_state = Ok st ->
  mean st = vec3_fill (F32.of_int 128) ->
  std st = vec3_fill (F32.of_int 1) ->
  exists l1 l2,
    steps = l1 ++ "subtract128" :: l2 /\
    Forall (fun s => s = "normalize" \/ s = "bgrtorgb") l2.
Proof.
  induction steps as [|s l IH] using rev_ind; intros st Hrun Hmean Hstd.
  - injection Hrun as <-. discriminate.
  - apply preprocess_steps_snoc in Hrun as (st1 & Hl & Hs).
    pose proof (preprocess_step_Ok _ _ _ Hs) as Hv.
    unfold vocabulary in Hv. rewrite !elem_of_cons, elem_of_nil in Hv.
    destruct Hv as [->|[->|[->|[->|[->|[]]]]]]; cbn in Hs; injection Hs as <-;
      cbn [normalize mean std] in *; try discriminate.
    + exists l, []. split; [reflexivity|constructor].
    + destruct (IH st1 Hl Hmean Hstd) as (l1 & l2 & -> & Hl2).
      exists l1, (l2 ++ ["normalize"]). split.
      * rewrite <- app_assoc. reflexivity.
      * apply Forall_app. split; [exact Hl2|]. constructor; [auto|constructor].
    + destruct (IH st1 Hl Hmean Hstd) as (l1 & l2 & -> & Hl2).
      exists l1, (l2 ++ ["bgrtorgb"]). split.
      * rewrite <- app_assoc. reflexivity.
      * apply Forall_app. split; [exact Hl2|]. constructor; [auto|constructor].
Qed.

(** C7, as amended.  The state after all steps has
    normalize = (255,255,255), mean = (128,128,128) and std = (1,1,1)
    exactly for the step lists in which every step before some
    [subtract128] is in the vocabulary and the steps after it are only
    [normalize] and [bgrtorgb] steps, [normalize] among them. *)
Theorem subtract128_then_normalize (steps : list string) :
  (exists l1 l2,
     steps = l1 ++ "subtract128" :: l2 /\
     Forall (fun s => s ∈ vocabulary) l1 /\
     Forall (fun s => s = "normalize" \/ s = "bgrtorgb") l2 /\
     "normalize" ∈ l2) <->
  (exists st,
     preprocess_steps steps initial_state = Ok st /\
     normalize st = vec3_fill (F32.of_int 255) /\
     mean st = vec3_fill (F32.of_int 128) /\
     std st = vec3_fill (F32.of_int 1)).
Proof.
  split.
  - intros (l1 & l2 & -> & Hl1 & Hl2 & Hin).
    destruct (preprocess_steps_recognized l1 initial_state Hl1) as [st1 H1].
    rewrite preprocess_steps_app, H1. simpl.
    set (st2 := {| normalize := vec3_fill (F32.of_int 1);
                   mean := vec3_fill (F32.of_int 128);
                   std := vec3_fill (F32.of_int 1);
                   bgrtorgb := bgrtorgb st1 |}).
    assert (Hgen : forall st,
      mean st = vec3_fill (F32.of_int 128) ->
      std st = vec3_fill (F32.of_int 1) ->
      (normalize st = vec3_fill (F32.of_int 255) \/ "normalize" ∈ l2) ->
      exists st', preprocess_steps l2 st = Ok st' /\
        normalize st' = vec3_fill (F32.of_int 255) /\
        mean st' = vec3_fill (F32.of_int 128) /\
        std st' = vec3_fill (F32.of_int 1)).
    { clear Hin. induction Hl2 as [|s l Hs _ IH]; intros st Hm Hs' Hn.
      - simpl. destruct Hn as [Hn|Hn]; [eauto|inversion Hn].
      - destruct Hs as [->| ->]; simpl.
        + apply IH; simpl; auto.
        + apply IH; simpl; auto.
          destruct Hn as [Hn|Hn]; [auto|].
          apply elem_of_cons in Hn as [Hn|Hn]; [discriminate|auto]. }
    apply (Hgen st2); auto.
  - intros (st & Hrun & Hnorm & Hmean & Hstd).
    revert st Hrun Hnorm Hmean Hstd.
    induction steps as [|s l IH] using rev_ind; intros st Hrun Hnorm Hmean Hstd.
    + injection Hrun as <-. discriminate.
    + apply preprocess_steps_snoc in Hrun as (st1 & Hl & Hs).
      pose proof (preprocess_step_Ok _ _ _ Hs) as Hv.
      unfold vocabulary in Hv. rewrite !elem_of_cons, elem_of_nil in Hv.
      destruct Hv as [->|[->|[->|[->|[->|[]]]]]]; cbn in Hs; injection Hs as <-;
        cbn [normalize mean std] in *; try discriminate.
      * destruct (mean_128_std_1 l st1 Hl Hmean Hstd) as (l1 & l2 & -> & Hl2).
        exists l1, (l2 ++ ["normalize"]).
        rewrite <- app_assoc. split; [reflexivity|]. split; [|split].
        -- apply preprocess_steps_Ok in Hl. apply Forall_app in Hl. tauto.
        -- apply Forall_app. split; [exact Hl2|]. constructor; [auto|constructor].
        -- apply elem_of_app. right. apply list_elem_of_here.
      * destruct (IH st1 Hl Hnorm Hmean Hstd) as (l1 & l2 & -> & Hl1 & Hl2 & Hin).
        exists l1, (l2 ++ ["bgrtorgb"]).
        rewrite <- app_assoc. split; [reflexivity|]. split; [exact Hl1|]. split.
        -- apply Forall_app. split; [exact Hl2|]. constructor; [auto|constructor].
        -- apply elem_of_app. left. exact Hin.
Qed.

End Steps.

Lemma unrecognized_step_fatal_witness :
  convertToVector Fixture.E
    {| FLAGS_color := true; FLAGS_crop := "-1,-1"; FLAGS_input_images := "";
       FLAGS_input_image_file := ""; FLAGS_output_tensor := "";
       FLAGS_preprocess := "normalize,swaprb"; FLAGS_report_time := "";
       FLAGS_scale := 256; FLAGS_text_output := false; FLAGS_warp := false |}
    (Fixture.ramp 2 2 100)
  = Fatal (EnforceFailed "Unsupported preprocess step.").
Proof.
  refine (proj2 (proj2 (unrecognized_step_fatal Fixture.E _ _ _)) _).
  - exists "swaprb". split.
    + vm_compute. apply list_elem_of_further, list_elem_of_here.
    + unfold vocabulary. rewrite !not_elem_of_cons. repeat split; try discriminate.
      apply not_elem_of_nil.
  - simpl. unfold INT_MIN, INT_MAX. lia.
Defined.

Lemma subtract128_then_normalize_witness :
  exists st,
    preprocess_steps ["mean"; "std"; "subtract128"; "bgrtorgb"; "normalize"]
      initial_state = Ok st /\
    normalize st = vec3_fill (F32.of_int 255) /\
    mean st = vec3_fill (F32.of_int 128) /\
    std st = vec3_fill (F32.of_int 1).
Proof.
  apply (proj1 (subtract128_then_normalize
                  ["mean"; "std"; "subtract128"; "bgrtorgb"; "normalize"])).
  exists ["mean"; "std"], ["bgrtorgb"; "normalize"].
  split; [reflexivity|]. split; [|split].
  - unfold vocabulary.
    repeat (apply List.Forall_cons; [rewrite !elem_of_cons; auto 10|]).
    apply List.Forall_nil.
  - repeat (apply List.Forall_cons; [auto|]). apply List.Forall_nil.
  - rewrite !elem_of_cons; auto.
Defined.

(** C7 as stated fails: between [subtract128] and a later [normalize] a
    [mean] step replaces the mean (128,128,128). *)
Lemma subtract128_mean_normalize_counterexample :
  (exists l1 l2 l3,
     ["subtract128"; "mean"; "normalize"]
     = l1 ++ "subtract128" :: l2 ++ "normalize" :: l3) /\
  exists st,
    preprocess_steps ["subtract128"; "mean"; "normalize"] initial_state = Ok st /\
    mean st = (F32.lit_0_406, F32.lit_0_456, F32.lit_0_485) /\
    mean st <> vec3_fill (F32.of_int 128).
Proof.
  split.
  - exists [], ["mean"], []. reflexivity.
  - eexists. split; [reflexivity|]. split; [reflexivity|]. discriminate.
Qed.

(** ** The pixel loops of [convertToVector] *)

Section Loops.
Variables (st : PreprocessState) (img : Mat).

Lemma vec_set_in_range (values : list F32.t) i x :
  0 <= i < Z.of_nat (length values) ->
  vec_set values i x = Ok (<[Z.to_nat i := x]> values).
Proof.
  intros Hi. unfold vec_set.
  replace (0 <=? i) with true by lia.
  replace (i <? Z.of_nat (length values)) with true by lia.
  reflexivity.
Qed.

(** The grayscale loop writes the iterator's [j]-th element at index
    [idx + j] and nothing else; it never writes past the end. *)
Lemma gray_loop_spec (its : list Z) : forall idx (values : list F32.t),
  0 <= idx ->
  idx + Z.of_nat (length its) <= Z.of_nat (length values) ->
  exists values' : list F32.t,
    gray_loop st img its idx values = Ok values' /\
    length values' = length values /\
    (forall (j : nat) it, its !! j = Some it ->
       values' !! Z.to_nat (idx + Z.of_nat j)
       = Some (normalized st 0 (Mat_elem img it 0))) /\
    (forall q : nat,
       Z.of_nat q < idx \/ idx + Z.of_nat (length its) <= Z.of_nat q ->
       values' !! q = values !! q).
Proof.
  induction its as [|it0 rest IH]; intros idx values Hidx Hlen.
  - exists values. simpl. split; [reflexivity|]. split; [reflexivity|].
    split; [|reflexivity].
    intros j it Hj. rewrite lookup_nil in Hj. discriminate.
  - simpl in Hlen. cbn [gray_loop].
    rewrite vec_set_in_range by lia. cbn [mbind result_bind].
    set (values1 := <[Z.to_nat idx := _]> values).
    assert (Hl1 : length values1 = length values) by apply length_insert.
    destruct (IH (idx + 1) values1) as (values' & Hrun & Hl & Hwritten & Hframe);
      [lia | rewrite Hl1; lia |].
    exists values'. split; [exact Hrun|]. split; [congruence|]. split.
    + intros [|j] it Hj; simpl in Hj.
      * injection Hj as <-. rewrite Hframe by lia.
        replace (idx + Z.of_nat 0) with idx by lia.
        apply list_lookup_insert_eq. lia.
      * replace (idx + Z.of_nat (S j)) with (idx + 1 + Z.of_nat j) by lia.
        apply Hwritten, Hj.
    + intros q Hq. cbn [length] in Hq. rewrite Hframe by lia.
      apply list_lookup_insert_ne. lia.
Qed.

(** The color loop writes, for the iterator's [j]-th element, channel [b]
    at [i + j], channel [g] at [size + (i + j)] and channel [r] at
    [size + (size + (i + j))], and nothing else. *)
Lemma color_loop_spec (size b g r : Z) (its : list Z) :
  forall i (values : list F32.t),
  0 <= i ->
  i + Z.of_nat (length its) <= size ->
  Z.of_nat (length values) = 3 * size ->
  exists values' : list F32.t,
    color_loop st img size b g r its i values = Ok values' /\
    length values' = length values /\
    (forall (j : nat) it, its !! j = Some it ->
       values' !! Z.to_nat (i + Z.of_nat j)
       = Some (normalized st 0 (Mat_elem img it b)) /\
       values' !! Z.to_nat (size + (i + Z.of_nat j))
       = Some (normalized st 1 (Mat_elem img it g)) /\
       values' !! Z.to_nat (size + (size + (i + Z.of_nat j)))
       = Some (normalized st 2 (Mat_elem img it r))) /\
    (forall q : Z, 0 <= q ->
       (q < i \/ i + Z.of_nat (length its) <= q) ->
       (q < size + i \/ size + i + Z.of_nat (length its) <= q) ->
       (q < size + size + i \/ size + size + i + Z.of_nat (length its) <= q) ->
       values' !! Z.to_nat q = values !! Z.to_nat q).
Proof.
  induction its as [|it0 rest IH]; intros i values Hi Hlen Hsize.
  - exists values. simpl. split; [reflexivity|]. split; [reflexivity|].
    split; [|reflexivity].
    intros j it Hj. rewrite lookup_nil in Hj. discriminate.
  - simpl in Hlen. cbn [color_loop].
    rewrite vec_set_in_range by lia. cbn [mbind result_bind].
    set (values1 := <[Z.to_nat i := _]> values).
    assert (Hl1 : length values1 = length values) by apply length_insert.
    rewrite vec_set_in_range by (rewrite Hl1; lia). cbn [mbind result_bind].
    set (values2 := <[Z.to_nat (size + i) := _]> values1).
    assert (Hl2 : length values2 = length values)
      by (unfold values2; rewrite length_insert; exact Hl1).
    rewrite vec_set_in_range by (rewrite Hl2; lia). cbn [mbind result_bind].
    set (values3 := <[Z.to_nat (size + (size + i)) := _]> values2).
    assert (Hl3 : length values3 = length values)
      by (unfold values3; rewrite length_insert; exact Hl2).
    destruct (IH (i + 1) values3) as (values' & Hrun & Hl & Hwritten & Hframe);
      [lia | lia | rewrite Hl3; lia |].
    exists values'. split; [exact Hrun|]. split; [congruence|]. split.
    + intros [|j] it Hj; simpl in Hj.
      * injection Hj as <-.
        replace (i + Z.of_nat 0) with i by lia.
        rewrite !Hframe by lia. unfold values3, values2, values1.
        repeat split.
        -- rewrite !list_lookup_insert_ne by lia.
           apply list_lookup_insert_eq. lia.
        -- rewrite list_lookup_insert_ne by lia.
           apply list_lookup_insert_eq. rewrite length_insert. lia.
        -- apply list_lookup_insert_eq. rewrite !length_insert. lia.
      * replace (i + Z.of_nat (S j)) with (i + 1 + Z.of_nat j) by lia.
        apply Hwritten, Hj.
    + intros q Hq H0 H1 H2. cbn [length] in H0, H1, H2.
      rewrite Hframe by lia.
      unfold values3, values2, values1.
      rewrite !list_lookup_insert_ne by lia. reflexivity.
Qed.

End Loops.

(** ** [convertToVector] *)

Section ConvertToVector.
Context (E : Externals) (fl : Flags).

Lemma vec_set_length (values values' : list F32.t) i x :
  vec_set values i x = Ok values' -> length values' = length values.
Proof.
  unfold vec_set. destruct ((0 <=? i) && (i <? Z.of_nat (length values)));
    [|discriminate].
  intros [= <-]. apply length_insert.
Qed.

Lemma gray_loop_length st img its : forall idx (values values' : list F32.t),
  gray_loop st img its idx values = Ok values' -> length values' = length values.
Proof.
  induction its as [|it rest IH]; intros idx values values'; cbn [gray_loop].
  - intros [= <-]. reflexivity.
  - destruct (vec_set values idx _) as [v1|] eqn:H1; [|discriminate].
    cbn [mbind result_bind]. intros H. apply IH in H.
    apply vec_set_length in H1. congruence.
Qed.

Lemma color_loop_length st img size b g r its :
  forall i (values values' : list F32.t),
  color_loop st img size b g r its i values = Ok values' ->
  length values' = length values.
Proof.
  induction its as [|it rest IH]; intros i values values'; cbn [color_loop].
  - intros [= <-]. reflexivity.
  - destruct (vec_set values i _) as [v1|] eqn:H1; [|discriminate].
    cbn [mbind result_bind].
    destruct (vec_set v1 (size + i) _) as [v2|] eqn:H2; [|discriminate].
    cbn [mbind result_bind].
    destruct (vec_set v2 (size + (size + i)) _) as [v3|] eqn:H3; [|discriminate].
    cbn [mbind result_bind]. intros H. apply IH in H.
    apply vec_set_length in H1, H2, H3. congruence.
Qed.

(** A vector [convertToVector] returns has [C * cols * rows] elements. *)
Lemma convertToVector_length img values :
  convertToVector E fl img = Ok values ->
  Z.of_nat (length values)
  = (if FLAGS_color fl then 3 else 1) * (cols img * rows img) /\
  INT_MIN <= (if FLAGS_color fl then 3 else 1) * (cols img * rows img) <= INT_MAX.
Proof.
  unfold convertToVector.
  destruct (int_ (cols img * rows img)) as [size|] eqn:Hsize; [|discriminate].
  apply int_Ok in Hsize as [-> _]. cbn [mbind result_bind].
  destruct (preprocess_steps _ _) as [st|]; [|discriminate].
  cbn [mbind result_bind].
  destruct (int_ (_ * _)) as [total|] eqn:Htotal; [|discriminate].
  apply int_Ok in Htotal as [-> Hrange]. cbn [mbind result_bind].
  unfold new_vector. destruct (_ <? 0) eqn:Hneg; [discriminate|].
  cbn [mbind result_bind].
  assert (Hrep : forall n,
    Z.of_nat (length (replicate (Z.to_nat n) (S754_zero false))) = Z.max 0 n).
  { intros n. rewrite length_replicate. lia. }
  destruct (FLAGS_color fl); simpl.
  - intros H. apply color_loop_length in H. rewrite H, Hrep. lia.
  - intros H. apply gray_loop_length in H. rewrite H, Hrep. lia.
Qed.

End ConvertToVector.

(** The vector [convertToVector] fills, element by element. *)
Lemma convertToVector_run (E : Externals) (fl : Flags) (img : Mat)
    (st : PreprocessState) :
  0 <= rows img -> 0 <= cols img ->
  (if FLAGS_color fl then 3 else 1) * (rows img * cols img) <= INT_MAX ->
  preprocess_steps (split E comma (FLAGS_preprocess fl)) initial_state = Ok st ->
  exists values : list F32.t,
    convertToVector E fl img = Ok values /\
    if FLAGS_color fl then
      Z.of_nat (length values) = 3 * (rows img * cols img) /\
      forall k i, 0 <= k < 3 -> 0 <= i < rows img * cols img ->
        values !! Z.to_nat (k * (rows img * cols img) + i)
        = Some (normalized st k
                  (Mat_elem img i (if bgrtorgb st then 2 - k else k)))
    else
      Z.of_nat (length values) = rows img * cols img /\
      forall i, 0 <= i < rows img * cols img ->
        values !! Z.to_nat i = Some (normalized st 0 (Mat_elem img i 0)).
Proof.
  intros Hrows Hcols Hmax Hsteps.
  set (size := rows img * cols img) in *.
  assert (Hsize0 : 0 <= size) by (unfold size; lia).
  assert (Hmin : INT_MIN <= 0) by (unfold INT_MIN; lia).
  unfold convertToVector.
  replace (cols img * rows img) with size by (unfold size; lia).
  rewrite int_in_range by (destruct (FLAGS_color fl); lia).
  cbn [mbind result_bind]. rewrite Hsteps. cbn [mbind result_bind].
  rewrite int_in_range by (destruct (FLAGS_color fl); lia).
  cbn [mbind result_bind]. unfold new_vector.
  replace (_ <? 0) with false by (destruct (FLAGS_color fl); lia).
  cbn [mbind result_bind].
  assert (Hiter : length (Mat_iter img) = Z.to_nat size)
    by apply length_seqZ.
  assert (Hlook : forall (j : nat) it, Mat_iter img !! j = Some it -> it = Z.of_nat j).
  { intros j it Hj. apply lookup_seqZ in Hj. lia. }
  assert (Hlook' : forall i, 0 <= i < size -> Mat_iter img !! Z.to_nat i = Some i).
  { intros i Hi. unfold Mat_iter. fold size. rewrite lookup_seqZ_lt by lia.
    f_equal. lia. }
  destruct (FLAGS_color fl); cbn [Z.eqb Pos.eqb].
  + destruct (color_loop_spec st img size
                (if bgrtorgb st then 2 else 0) 1 (if bgrtorgb st then 0 else 2)
                (Mat_iter img) 0
                (replicate (Z.to_nat (3 * size)) (S754_zero false)))
      as (values & Hrun & Hlen & Hwritten & _).
    * lia.
    * rewrite Hiter. lia.
    * rewrite length_replicate. lia.
    * exists values. split; [exact Hrun|]. split.
      { rewrite Hlen, length_replicate. lia. }
      intros k i Hk Hi.
      destruct (Hwritten (Z.to_nat i) i (Hlook' i Hi)) as (H0 & H1 & H2).
      rewrite Z2Nat.id in H0, H1, H2 by lia.
      assert (k = 0 \/ k = 1 \/ k = 2) as [->|[->| ->]] by lia.
      -- replace (0 * size + i) with (0 + i) by lia. rewrite H0.
         destruct (bgrtorgb st); reflexivity.
      -- replace (1 * size + i) with (size + (0 + i)) by lia. rewrite H1.
         destruct (bgrtorgb st); reflexivity.
      -- replace (2 * size + i) with (size + (size + (0 + i))) by lia. rewrite H2.
         destruct (bgrtorgb st); reflexivity.
  + destruct (gray_loop_spec st img (Mat_iter img) 0
                (replicate (Z.to_nat (1 * size)) (S754_zero false)))
      as (values & Hrun & Hlen & Hwritten & _).
    * lia.
    * rewrite Hiter, length_replicate. lia.
    * exists values. split; [exact Hrun|]. split.
      { rewrite Hlen, length_replicate. lia. }
      intros i Hi. specialize (Hwritten (Z.to_nat i) i (Hlook' i Hi)).
      rewrite Z2Nat.id in Hwritten by lia. exact Hwritten.
Qed.

Lemma convertToVector_steps (E : Externals) (fl : Flags) (img : Mat) values :
  convertToVector E fl img = Ok values ->
  exists st,
    preprocess_steps (split E comma (FLAGS_preprocess fl)) initial_state = Ok st.
Proof.
  unfold convertToVector.
  destruct (int_ (cols img * rows img)); [|discriminate].
  cbn [mbind result_bind].
  destruct (preprocess_steps _ _) as [st|]; [|discriminate]. eauto.
Qed.

(** The element of plane [k] at row [r] and column [c]. *)
Lemma convertToVector_at (E : Externals) (fl : Flags) (img : Mat) values :
  0 <= rows img -> 0 <= cols img ->
  convertToVector E fl img = Ok values ->
  exists st,
    preprocess_steps (split E comma (FLAGS_preprocess fl)) initial_state = Ok st /\
    forall k r c,
      0 <= k < channels fl -> 0 <= r < rows img -> 0 <= c < cols img ->
      values !! Z.to_nat (k * (rows img * cols img) + (r * cols img + c))
      = Some (normalized st k (at_ img r c (source_channel fl st k))).
Proof.
  intros Hrows Hcols Hrun.
  destruct (convertToVector_steps E fl img values Hrun) as [st Hst].
  exists st. split; [exact Hst|].
  pose proof (convertToVector_length E fl img values Hrun) as [_ Hrange].
  destruct (convertToVector_run E fl img st Hrows Hcols) as (values' & Hrun' & Hall);
    [destruct (FLAGS_color fl); lia|exact Hst|].
  rewrite Hrun in Hrun'. injection Hrun' as <-.
  intros k r c Hk Hr Hc.
  assert (Hi : 0 <= r * cols img + c < rows img * cols img) by nia.
  assert (Hel : forall ch, Mat_elem img (r * cols img + c) ch = at_ img r c ch).
  { intros ch. unfold Mat_elem.
    rewrite Z.div_add_l, Z.div_small, Z.add_0_r by lia.
    rewrite Z.add_comm, Z.mod_add, Z.mod_small by lia. reflexivity. }
  unfold channels, source_channel in *. destruct (FLAGS_color fl).
  - destruct Hall as [_ Hall]. rewrite Hall by lia. rewrite Hel. reflexivity.
  - destruct Hall as [_ Hall]. replace k with 0 by lia.
    rewrite Z.mul_0_l, Z.add_0_l, Hall by lia. rewrite Hel. reflexivity.
Qed.

(** C1.  For an image (non-negative [rows] and [cols], [C * rows * cols]
    within [int]) and the state [st] the step list leads to,
    [convertToVector] returns a vector that is planar and channel-major.  In
    color mode it has [3 * rows * cols] elements and the element at position
    [i] of plane [k] (index [k * rows * cols + i]) is
    [(src / normalize[k] - mean[k]) / std[k]] in binary32, where [src] is
    channel [k] of the [i]-th pixel in row-major order, or channel [2 - k]
    when the swap flag is set.  In grayscale mode it is the single plane
    computed with the index-0 parameters.  With the one step [bgrtorgb] the
    pixel (10,20,30) is written as (30,20,10). *)
Theorem convertToVector_planar :
  (forall (E : Externals) (fl : Flags) (img : Mat) (st : PreprocessState),
     0 <= rows img -> 0 <= cols img ->
     (if FLAGS_color fl then 3 else 1) * (rows img * cols img) <= INT_MAX ->
     preprocess_steps (split E comma (FLAGS_preprocess fl)) initial_state = Ok st ->
     exists values : list F32.t,
       convertToVector E fl img = Ok values /\
       if FLAGS_color fl then
         Z.of_nat (length values) = 3 * (rows img * cols img) /\
         forall k i, 0 <= k < 3 -> 0 <= i < rows img * cols img ->
           values !! Z.to_nat (k * (rows img * cols img) + i)
           = Some (F32.div
                     (F32.sub
                        (F32.div
                           (F32.of_int
                              (Mat_elem img i (if bgrtorgb st then 2 - k else k)))
                           (vec3_get (normalize st) k))
                        (vec3_get (mean st) k))
                     (vec3_get (std st) k))
       else
         Z.of_nat (length values) = rows img * cols img /\
         forall i, 0 <= i < rows img * cols img ->
           values !! Z.to_nat i
           = Some (F32.div
                     (F32.sub
                        (F32.div (F32.of_int (Mat_elem img i 0))
                                 (vec3_get (normalize st) 0))
                        (vec3_get (mean st) 0))
                     (vec3_get (std st) 0))) /\
  (forall (E : Externals) (fl : Flags) (img : Mat),
     FLAGS_color fl = true ->
     split E comma (FLAGS_preprocess fl) = ["bgrtorgb"] ->
     rows img = 1 -> cols img = 1 ->
     at_ img 0 0 0 = 10 -> at_ img 0 0 1 = 20 -> at_ img 0 0 2 = 30 ->
     convertToVector E fl img
     = Ok [F32.of_int 30; F32.of_int 20; F32.of_int 10]).
Proof.
  split.
  - intros E fl img st Hrows Hcols Hmax Hsteps.
    exact (convertToVector_run E fl img st Hrows Hcols Hmax Hsteps).
  - intros E fl img Hcolor Hsplit Hrows Hcols H0 H1 H2.
    unfold convertToVector, Mat_iter.
    rewrite Hsplit, Hcolor, Hrows, Hcols.
    change (int_ (1 * 1)) with (@Ok Z 1). cbn [mbind result_bind].
    change (preprocess_steps ["bgrtorgb"] initial_state)
      with (Ok {| normalize := normalize initial_state;
                  mean := mean initial_state;
                  std := std initial_state;
                  bgrtorgb := true |}).
    cbn [mbind result_bind bgrtorgb].
    change (int_ (3 * 1)) with (@Ok Z 3). cbn [mbind result_bind].
    change (seqZ 0 (1 * 1)) with [0].
    change (new_vector 3) with (Ok (replicate 3%nat (S754_zero false))).
    cbn [mbind result_bind Z.eqb color_loop].
    unfold Mat_elem. rewrite Hcols.
    change (0 / 1) with 0. change (0 mod 1) with 0. rewrite H0, H1, H2.
    vm_compute. reflexivity.
Qed.

Lemma convertToVector_planar_witness :
  (exists values : list F32.t,
     convertToVector Fixture.E (with_preprocess "bgrtorgb" default_flags)
       (Fixture.ramp 2 2 100) = Ok values /\
     Z.of_nat (length values) = 12) /\
  convertToVector Fixture.E (with_preprocess "bgrtorgb" default_flags)
    (Fixture.ramp 1 1 10)
  = Ok [F32.of_int 30; F32.of_int 20; F32.of_int 10].
Proof.
  split.
  - destruct (proj1 convertToVector_planar Fixture.E
                (with_preprocess "bgrtorgb" default_flags) (Fixture.ramp 2 2 100)
                {| normalize := vec3_fill (F32.of_int 1);
                   mean := vec3_fill (F32.of_int 0);
                   std := vec3_fill (F32.of_int 1);
                   bgrtorgb := true |})
      as (values & Hrun & Hlen & _).
    + simpl; lia.
    + simpl; lia.
    + simpl; unfold INT_MAX; lia.
    + reflexivity.
    + exists values. split; [exact Hrun|exact Hlen].
  - apply (proj2 convertToVector_planar Fixture.E); reflexivity.
Defined.

(** ** binary32 on integers below 2^24

    An integer below 2^24 converts exactly, a product below 2^24 is exact,
    and the quotient of two such integers, rounded to nearest and then
    truncated, is the integer quotient. *)

Lemma digits2_pos_size p : digits2_pos p = Pos.size p.
Proof. induction p; simpl; congruence. Qed.

Lemma Zdigits2_bounds p :
  2 ^ (Zdigits2 (Zpos p) - 1) <= Zpos p < 2 ^ Zdigits2 (Zpos p).
Proof.
  cbn [Zdigits2]. rewrite digits2_pos_size.
  pose proof (Pos.size_gt p) as Hgt. pose proof (Pos.size_le p) as Hle.
  apply Pos2Z.pos_lt_pos in Hgt. apply Pos2Z.pos_le_pos in Hle.
  rewrite Pos2Z.inj_pow in Hgt, Hle.
  rewrite (Pos2Z.inj_xO p) in Hle.
  replace (2 ^ Z.pos (Pos.size p)) with (2 * 2 ^ (Z.pos (Pos.size p) - 1)) in Hle.
  2:{ rewrite <- Z.pow_succ_r by lia. f_equal. lia. }
  lia.
Qed.

Lemma Zdigits2_unique p k :
  2 ^ (k - 1) <= Zpos p < 2 ^ k -> Zdigits2 (Zpos p) = k.
Proof.
  intros [Hlo Hhi]. pose proof (Zdigits2_bounds p) as [Hlo' Hhi'].
  set (d := Zdigits2 (Zpos p)) in *.
  assert (Hd : 0 < d) by (unfold d; cbn; lia).
  assert (Hk : 0 < k).
  { destruct (Z_lt_le_dec 0 k); [assumption|].
    assert (2 ^ k <= 1).
    { destruct (Z.eq_dec k 0) as [->|]; [simpl; lia|].
      rewrite Z.pow_neg_r by lia. lia. }
    lia. }
  destruct (Z_lt_le_dec d k) as [Hlt|Hge].
  - assert (2 ^ d <= 2 ^ (k - 1)) by (apply Z.pow_le_mono_r; lia). lia.
  - destruct (Z_lt_le_dec k d) as [Hlt|Hge'].
    + assert (2 ^ k <= 2 ^ (d - 1)) by (apply Z.pow_le_mono_r; lia). lia.
    + lia.
Qed.

Lemma fexp_24 x : -125 <= x -> fexp F32.prec F32.emax x = x - 24.
Proof. intros H. unfold fexp, emin, F32.prec, F32.emax. lia. Qed.

Lemma shr_record_of_loc_m m l : shr_m (shr_record_of_loc m l) = m.
Proof. destruct l as [|[]]; reflexivity. Qed.

Lemma loc_of_shr_record_of_loc m l : loc_of_shr_record (shr_record_of_loc m l) = l.
Proof. destruct l as [|[]]; reflexivity. Qed.

(** A mantissa of exactly 24 digits with an exact location is kept. *)
Lemma shr_fexp_24 m e l :
  Zdigits2 m = 24 -> -149 <= e ->
  shr_fexp F32.prec F32.emax m e l = (shr_record_of_loc m l, e).
Proof.
  intros Hd He. unfold shr_fexp. rewrite Hd, fexp_24 by lia.
  replace (24 + e - 24 - e) with 0 by lia. reflexivity.
Qed.

Lemma shr_fexp_25 m e l :
  Zdigits2 m = 25 -> -149 <= e ->
  shr_fexp F32.prec F32.emax m e l = (shr_1 (shr_record_of_loc m l), e + 1).
Proof.
  intros Hd He. unfold shr_fexp. rewrite Hd, fexp_24 by lia.
  replace (25 + e - 24 - e) with 1 by lia. reflexivity.
Qed.

Lemma binary_round_aux_exact s m e :
  Zdigits2 (Zpos m) = 24 -> -149 <= e <= 104 ->
  binary_round_aux F32.prec F32.emax s (Zpos m) e loc_Exact = S754_finite s m e.
Proof.
  intros Hd He. unfold binary_round_aux.
  rewrite shr_fexp_24 by (auto; lia).
  cbn [shr_record_of_loc shr_m loc_of_shr_record round_nearest_even].
  rewrite shr_fexp_24 by (auto; lia). cbn [shr_record_of_loc shr_m].
  replace (e <=? F32.emax - F32.prec) with true
    by (unfold F32.emax, F32.prec; lia).
  reflexivity.
Qed.

Lemma iter_pos_nat {A : Type} (f : A -> A) n : forall x,
  iter_pos f n x = Nat.iter (Pos.to_nat n) f x.
Proof.
  induction n as [n IH|n IH|]; intros x; cbn [iter_pos].
  - rewrite !IH, Pos2Nat.inj_xI, <- Nat.iter_add, <- Nat.iter_succ_r.
    f_equal; lia.
  - rewrite !IH, Pos2Nat.inj_xO, <- Nat.iter_add. f_equal; lia.
  - reflexivity.
Qed.

Lemma shr_1_double m :
  shr_1 {| shr_m := 2 * m; shr_r := false; shr_s := false |}
  = {| shr_m := m; shr_r := false; shr_s := false |}.
Proof. destruct m; reflexivity. Qed.

Lemma iter_shr_1_exact (k : nat) : forall m,
  0 <= m ->
  Nat.iter k shr_1 {| shr_m := m * 2 ^ Z.of_nat k; shr_r := false; shr_s := false |}
  = {| shr_m := m; shr_r := false; shr_s := false |}.
Proof.
  induction k as [|k IH]; intros m Hm.
  - cbn. f_equal. lia.
  - rewrite Nat.iter_succ.
    replace (m * 2 ^ Z.of_nat (S k)) with ((2 * m) * 2 ^ Z.of_nat k).
    2:{ rewrite Nat2Z.inj_succ, Z.pow_succ_r by lia. lia. }
    rewrite IH by lia. apply shr_1_double.
Qed.

Lemma binary_round_aux_shift s (M m : positive) k e :
  Zdigits2 (Zpos m) = 24 -> 0 <= k -> Zpos M = Zpos m * 2 ^ k ->
  -149 <= e -> e + k <= 104 ->
  binary_round_aux F32.prec F32.emax s (Zpos M) e loc_Exact = S754_finite s m (e + k).
Proof.
  intros Hd Hk HM He Hek.
  destruct (Z.eq_dec k 0) as [->|Hk0].
  { rewrite Z.pow_0_r, Z.mul_1_r in HM. injection HM as ->.
    rewrite Z.add_0_r. apply binary_round_aux_exact; [assumption|lia]. }
  assert (HdM : Zdigits2 (Zpos M) = 24 + k).
  { apply Zdigits2_unique. pose proof (Zdigits2_bounds m) as Hb.
    rewrite Hd in Hb. rewrite HM.
    replace (24 + k - 1) with (23 + k) by lia.
    rewrite !Z.pow_add_r by lia. change (24 - 1) with 23 in Hb.
    assert (0 < 2 ^ k) by (apply Z.pow_pos_nonneg; lia). nia. }
  unfold binary_round_aux.
  assert (Hshr : shr_fexp F32.prec F32.emax (Zpos M) e loc_Exact
                 = ({| shr_m := Zpos m; shr_r := false; shr_s := false |}, e + k)).
  { unfold shr_fexp. rewrite HdM, fexp_24 by lia.
    replace (24 + k + e - 24 - e) with k by lia.
    destruct k as [|kp|kp]; try lia. cbn [shr shr_record_of_loc].
    rewrite iter_pos_nat, HM.
    replace (Z.pos kp) with (Z.of_nat (Pos.to_nat kp)) by lia.
    rewrite iter_shr_1_exact by lia. reflexivity. }
  rewrite Hshr. cbn [shr_m loc_of_shr_record round_nearest_even].
  rewrite shr_fexp_24 by (auto; lia). cbn [shr_record_of_loc shr_m].
  replace (e + k <=? F32.emax - F32.prec) with true
    by (unfold F32.emax, F32.prec; lia).
  reflexivity.
Qed.

Lemma mant_digits (n : positive) :
  Zpos n < 2 ^ 24 ->
  0 < mant (Zpos n) /\ Zdigits2 (mant (Zpos n)) = 24 /\
  1 <= Zdigits2 (Zpos n) <= 24.
Proof.
  intros Hn. pose proof (Zdigits2_bounds n) as Hb.
  set (d := Zdigits2 (Zpos n)) in *.
  assert (Hd1 : 1 <= d) by (unfold d; cbn; lia).
  assert (Hd : d <= 24).
  { destruct (Z_le_gt_dec d 24); [assumption|].
    assert (2 ^ 24 <= 2 ^ (d - 1)) by (apply Z.pow_le_mono_r; lia). lia. }
  unfold mant. fold d.
  assert (Hpow : 0 < 2 ^ (24 - d)) by (apply Z.pow_pos_nonneg; lia).
  assert (Hpos : 0 < Zpos n * 2 ^ (24 - d)) by lia.
  split; [exact Hpos|]. split; [|lia].
  destruct (Z.pos n * 2 ^ (24 - d)) as [|mp|mp] eqn:Hm; try lia.
  apply Zdigits2_unique. rewrite <- Hm.
  replace (2 ^ (24 - 1)) with (2 ^ (d - 1) * 2 ^ (24 - d)).
  2:{ rewrite <- Z.pow_add_r by lia. f_equal. lia. }
  replace (2 ^ 24) with (2 ^ d * 2 ^ (24 - d)).
  2:{ rewrite <- Z.pow_add_r by lia. f_equal. lia. }
  nia.
Qed.

Lemma pos_iter_xO m k : Zpos (Pos.iter xO m k) = Zpos m * 2 ^ Zpos k.
Proof.
  rewrite <- Z.shiftl_mul_pow2 by lia. cbn [Z.shiftl].
  apply (Pos.iter_swap_gen _ _ Zpos xO (Z.mul 2)). reflexivity.
Qed.

Lemma of_int_normal (n : positive) :
  Zpos n < 2 ^ 24 ->
  F32.of_int (Zpos n)
  = S754_finite false (Z.to_pos (mant (Zpos n))) (Zdigits2 (Zpos n) - 24).
Proof.
  intros Hn. destruct (mant_digits n Hn) as (Hpos & Hdig & Hd).
  unfold F32.of_int, binary_normalize, binary_round.
  change (Z.pos (digits2_pos n) + 0) with (Zdigits2 (Zpos n) + 0).
  rewrite Z.add_0_r, fexp_24 by lia.
  set (d := Zdigits2 (Zpos n)) in *.
  assert (Hal : shl_align n 0 (d - 24) = (Z.to_pos (mant (Zpos n)), d - 24)).
  { unfold shl_align. rewrite Z.sub_0_r. unfold mant. fold d.
    destruct (d - 24) as [|q|q] eqn:Hq; try lia.
    - replace (24 - d) with 0 by lia. rewrite Z.pow_0_r, Z.mul_1_r. reflexivity.
    - f_equal. replace (24 - d) with (Zpos q) by lia.
      rewrite <- pos_iter_xO. reflexivity. }
  rewrite Hal.
  destruct (mant (Zpos n)) as [|mp|mp] eqn:Hm; try lia.
  cbn [Z.to_pos]. apply binary_round_aux_exact; [exact Hdig|lia].
Qed.

Lemma trunc_finite m e :
  F32.trunc (S754_finite false m e) = Some (Z.shiftl (Zpos m) e).
Proof. destruct e; reflexivity. Qed.

Lemma round_nearest_even_cases m l :
  round_nearest_even m l = m \/ round_nearest_even m l = m + 1.
Proof. destruct l as [|[]]; cbn; auto. destruct (Z.even m); auto. Qed.

(** Rounding a mantissa that is exact and has 24 digits, or is 2^24. *)
Lemma round_final (m : Z) e :
  2 ^ 23 <= m <= 2 ^ 24 -> -149 <= e <= 103 ->
  exists mR eR,
    (let '(mrs, e') := shr_fexp F32.prec F32.emax m e loc_Exact in
     match shr_m mrs with
     | Z0 => S754_zero false
     | Zpos m0 =>
         if e' <=? F32.emax - F32.prec then S754_finite false m0 e'
         else S754_infinity false
     | Zneg _ => S754_nan
     end) = S754_finite false mR eR /\
    Z.shiftl (Zpos mR) eR = Z.shiftl m e.
Proof.
  intros Hm He. destruct m as [|mp|mp]; try lia.
  destruct (Z.eq_dec (Zpos mp) (2 ^ 24)) as [Heq|Hne].
  - rewrite shr_fexp_25; [|rewrite Heq; reflexivity|lia].
    rewrite Heq. cbn [shr_record_of_loc].
    change (shr_1 {| shr_m := 2 ^ 24; shr_r := false; shr_s := false |})
      with {| shr_m := 2 ^ 23; shr_r := false; shr_s := false |}.
    cbn [shr_m]. change (2 ^ 23) with (Zpos 8388608).
    replace (e + 1 <=? F32.emax - F32.prec) with true by (unfold F32.emax, F32.prec; lia).
    eexists _, _. split; [reflexivity|].
    change (Zpos 8388608) with (Z.shiftl 1 23).
    change (2 ^ 24) with (Z.shiftl 1 24).
    rewrite !Z.shiftl_shiftl by lia. f_equal. lia.
  - rewrite shr_fexp_24; [|apply Zdigits2_unique; change (24 - 1) with 23; lia|lia].
    rewrite shr_record_of_loc_m.
    replace (e <=? F32.emax - F32.prec) with true by (unfold F32.emax, F32.prec; lia).
    eexists _, _. split; reflexivity.
Qed.

Lemma round_24 (q : positive) e l :
  2 ^ 23 <= Zpos q < 2 ^ 24 -> -149 <= e <= 103 ->
  exists m', (m' = Zpos q \/ m' = Zpos q + 1) /\
    F32.trunc (binary_round_aux F32.prec F32.emax false (Zpos q) e l)
    = Some (Z.shiftl m' e).
Proof.
  intros Hq He. unfold binary_round_aux.
  rewrite shr_fexp_24; [|apply Zdigits2_unique; change (24 - 1) with 23; lia|lia].
  rewrite shr_record_of_loc_m, loc_of_shr_record_of_loc.
  set (m' := round_nearest_even (Zpos q) l).
  assert (Hm' : m' = Zpos q \/ m' = Zpos q + 1) by apply round_nearest_even_cases.
  destruct (round_final m' e) as (mR & eR & -> & Hval); [lia|lia|].
  exists m'. split; [exact Hm'|]. rewrite trunc_finite, Hval. reflexivity.
Qed.

Lemma round_25 (q : positive) e l :
  2 ^ 24 <= Zpos q < 2 ^ 25 -> -149 <= e <= 102 ->
  exists m', (m' = Zpos q / 2 \/ (Z.odd (Zpos q) = true /\ m' = Zpos q / 2 + 1)) /\
    F32.trunc (binary_round_aux F32.prec F32.emax false (Zpos q) e l)
    = Some (Z.shiftl m' (e + 1)).
Proof.
  intros Hq He. unfold binary_round_aux.
  rewrite shr_fexp_25; [|apply Zdigits2_unique; change (25 - 1) with 24; lia|lia].
  set (mrs := shr_1 (shr_record_of_loc (Zpos q) l)).
  set (m' := round_nearest_even (shr_m mrs) (loc_of_shr_record mrs)).
  assert (Hm : shr_m mrs = Zpos q / 2 /\
               (Z.odd (Zpos q) = false -> shr_r mrs = false)).
  { unfold mrs. destruct q as [u|u|].
    - split; [|discriminate].
      replace (Zpos u~1 / 2) with (Zpos u).
      2:{ apply Z.div_unique with (r := 1); lia. }
      destruct l as [|[]]; reflexivity.
    - split.
      + replace (Zpos u~0 / 2) with (Zpos u).
        2:{ apply Z.div_unique with (r := 0); lia. }
        destruct l as [|[]]; reflexivity.
      + intros _. destruct l as [|[]]; reflexivity.
    - lia. }
  destruct Hm as [Hm Hr].
  assert (Hm' : m' = Zpos q / 2 \/ (Z.odd (Zpos q) = true /\ m' = Zpos q / 2 + 1)).
  { unfold m'. rewrite Hm. destruct (Z.odd (Zpos q)) eqn:Hodd.
    - destruct (round_nearest_even_cases (Zpos q / 2) (loc_of_shr_record mrs));
        auto.
    - left. specialize (Hr eq_refl).
      destruct mrs as [mm [|] [|]]; cbn in *; try discriminate; reflexivity. }
  assert (Hrange : 2 ^ 23 <= Zpos q / 2 < 2 ^ 24).
  { split.
    - apply Z.div_le_lower_bound; lia.
    - apply Z.div_lt_upper_bound; lia. }
  destruct (round_final m' (e + 1)) as (mR & eR & -> & Hval); [lia|lia|].
  exists m'. split; [exact Hm'|]. rewrite trunc_finite, Hval. reflexivity.
Qed.

(** The integer core: with [b < K] the quotient [q = p * K / b] and its
    successor have the same integer part [p / b] once divided by [K]. *)
Lemma quotient_no_carry p b K :
  0 <= p -> 0 < b -> b < K ->
  (p * K / b) / K = p / b /\ (p * K / b + 1) / K = p / b.
Proof.
  intros Hp Hb HK.
  assert (H1 : (p * K / b) / K = p / b).
  { rewrite Z.div_div by lia. rewrite Z.div_mul_cancel_r by lia. reflexivity. }
  split; [exact H1|].
  set (q := p * K / b) in *. set (n := p / b) in *.
  assert (Hq1 : b * q <= p * K) by (apply Z.mul_div_le; lia).
  assert (Hq2 : p * K < b * Z.succ q) by (apply Z.mul_succ_div_gt; lia).
  assert (Hn1 : K * n <= q) by (rewrite <- H1; apply Z.mul_div_le; lia).
  assert (Hn2 : q < K * Z.succ n) by (rewrite <- H1; apply Z.mul_succ_div_gt; lia).
  assert (Hp2 : p < b * Z.succ n) by (apply Z.mul_succ_div_gt; lia).
  symmetry. apply Z.div_unique with (r := q + 1 - K * n); [|lia].
  left. split; [lia|].
  destruct (Z_lt_le_dec (q + 1 - K * n) K) as [Hlt|Hge]; [exact Hlt|].
  exfalso.
  assert (Heq : q + 1 = K * (n + 1)) by lia.
  assert (H3 : (p + 1) * K <= b * (n + 1) * K).
  { apply Z.mul_le_mono_nonneg_r; lia. }
  assert (H4 : b * (n + 1) * K = b * (q + 1)) by (rewrite Heq; ring).
  lia.
Qed.

Lemma mant_value (n : positive) :
  Zpos n < 2 ^ 24 ->
  exists m : positive,
    mant (Zpos n) = Zpos m /\ Zdigits2 (Zpos m) = 24 /\
    2 ^ 23 <= Zpos m < 2 ^ 24 /\
    Zpos m = Zpos n * 2 ^ (24 - Zdigits2 (Zpos n)) /\
    1 <= Zdigits2 (Zpos n) <= 24 /\
    Zpos n < 2 ^ Zdigits2 (Zpos n) /\
    2 ^ (Zdigits2 (Zpos n) - 1) <= Zpos n.
Proof.
  intros Hn. destruct (mant_digits n Hn) as (Hpos & Hdig & Hd).
  pose proof (Zdigits2_bounds n) as Hb.
  destruct (mant (Zpos n)) as [|m|m] eqn:Hm; try lia.
  exists m. pose proof (Zdigits2_bounds m) as Hbm. rewrite Hdig in Hbm.
  change (24 - 1) with 23 in Hbm. unfold mant in Hm.
  repeat split; auto; lia.
Qed.

Lemma mul_exact (a S : positive) :
  Zpos a * Zpos S < 2 ^ 24 ->
  F32.mul (F32.of_int (Zpos a)) (F32.of_int (Zpos S))
  = F32.of_int (Zpos (a * S)).
Proof.
  intros Hprod.
  assert (Ha : Zpos a < 2 ^ 24) by nia.
  assert (HS : Zpos S < 2 ^ 24) by nia.
  assert (HaS : Zpos (a * S) < 2 ^ 24) by (rewrite Pos2Z.inj_mul; exact Hprod).
  rewrite !of_int_normal by assumption.
  destruct (mant_value a Ha) as (ma & -> & Hda & Hra & Hva & Hd1 & Hu1 & Hl1).
  destruct (mant_value S HS) as (mS & -> & HdS & HrS & HvS & Hd2 & Hu2 & Hl2).
  destruct (mant_value (a * S) HaS) as (mP & -> & HdP & HrP & HvP & Hd3 & Hu3 & Hl3).
  unfold F32.mul. cbn [Z.to_pos SFmul xorb].
  set (da := Zdigits2 (Zpos a)) in *. set (dS := Zdigits2 (Zpos S)) in *.
  set (dP := Zdigits2 (Zpos (a * S))) in *.
  assert (Hdd : da + dS - 1 <= dP).
  { destruct (Z_le_gt_dec (da + dS - 1) dP) as [|Hgt]; [assumption|].
    assert (2 ^ dP <= 2 ^ (da + dS - 2)) by (apply Z.pow_le_mono_r; lia).
    replace (da + dS - 2) with ((da - 1) + (dS - 1)) in * by lia.
    rewrite Z.pow_add_r in * by lia.
    rewrite Pos2Z.inj_mul in Hu3.
    assert (0 < 2 ^ (da - 1)) by (apply Z.pow_pos_nonneg; lia).
    assert (0 < 2 ^ (dS - 1)) by (apply Z.pow_pos_nonneg; lia).
    nia. }
  replace (dP - 24) with ((da - 24 + (dS - 24)) + (24 + dP - da - dS)) by lia.
  apply binary_round_aux_shift; try lia.
  rewrite Pos2Z.inj_mul, Hva, HvS, HvP, Pos2Z.inj_mul. fold da dS dP.
  replace (Zpos a * 2 ^ (24 - da) * (Zpos S * 2 ^ (24 - dS)))
    with (Zpos a * Zpos S * (2 ^ (24 - da) * 2 ^ (24 - dS))) by ring.
  replace (2 ^ (24 - da) * 2 ^ (24 - dS))
    with (2 ^ (24 - dP) * 2 ^ (24 + dP - da - dS)); [ring|].
  rewrite <- !Z.pow_add_r by lia. f_equal. lia.
Qed.

Lemma div_trunc (p b : positive) :
  Zpos b <= Zpos p < 2 ^ 24 ->
  F32.trunc (F32.div (F32.of_int (Zpos p)) (F32.of_int (Zpos b)))
  = Some (Zpos p / Zpos b).
Proof.
  intros [Hbp Hp].
  assert (Hb : Zpos b < 2 ^ 24) by lia.
  rewrite !of_int_normal by assumption.
  destruct (mant_value p Hp) as (m1 & -> & Hd1 & Hr1 & Hv1 & Hdp & Hup & Hlp).
  destruct (mant_value b Hb) as (m2 & -> & Hd2 & Hr2 & Hv2 & Hdb & Hub & Hlb).
  cbn [Z.to_pos].
  set (dp := Zdigits2 (Zpos p)) in *. set (db := Zdigits2 (Zpos b)) in *.
  assert (Hdpb : db <= dp).
  { destruct (Z_le_gt_dec db dp); [assumption|].
    assert (2 ^ dp <= 2 ^ (db - 1)) by (apply Z.pow_le_mono_r; lia). lia. }
  set (K := 2 ^ (24 + db - dp)).
  assert (HK : 0 < K) by (apply Z.pow_pos_nonneg; lia).
  assert (HbK : Zpos b < K).
  { assert (2 ^ db <= K) by (apply Z.pow_le_mono_r; lia). lia. }
  set (e' := dp - db - 24).
  (* the quotient and its location *)
  assert (Hcore : exists q r,
    SFdiv_core_binary F32.prec F32.emax (Zpos m1) (dp - 24) (Zpos m2) (db - 24)
    = (q, e', new_location (Zpos m2) r) /\
    q = Zpos p * K / Zpos b /\ 2 ^ 23 <= q < 2 ^ 25).
  { unfold SFdiv_core_binary. rewrite Hd1, Hd2, fexp_24 by lia.
    replace (Z.min (24 + (dp - 24) - (24 + (db - 24)) - 24) (dp - 24 - (db - 24)))
      with e' by (unfold e'; lia).
    replace (dp - 24 - (db - 24) - e') with 24 by (unfold e'; lia).
    cbv iota. rewrite Z.shiftl_mul_pow2 by lia.
    pose proof (Z_div_mod (Zpos m1 * 2 ^ 24) (Zpos m2) ltac:(lia)) as Hdm.
    destruct (Z.div_eucl (Zpos m1 * 2 ^ 24) (Zpos m2)) as [q r].
    destruct Hdm as [Heq Hr].
    assert (Hq : q = Zpos m1 * 2 ^ 24 / Zpos m2).
    { apply Z.div_unique with (r := r); [lia|]. lia. }
    exists q, r. split; [reflexivity|]. split.
    - rewrite Hq, Hv1, Hv2. fold dp db.
      replace (Zpos p * 2 ^ (24 - dp) * 2 ^ 24)
        with (Zpos p * K * 2 ^ (24 - db)).
      2:{ unfold K. rewrite <- !Z.mul_assoc. f_equal.
          rewrite <- !Z.pow_add_r by lia. f_equal. lia. }
      apply Z.div_mul_cancel_r; [lia|].
      assert (0 < 2 ^ (24 - db)) by (apply Z.pow_pos_nonneg; lia). lia.
    - rewrite Hq. split.
      + apply Z.div_le_lower_bound; [lia|]. nia.
      + apply Z.div_lt_upper_bound; [lia|]. nia. }
  destruct Hcore as (q & r & Hcore & Hq & Hqr).
  unfold F32.div, SFdiv. rewrite Hcore. cbn [xorb].
  destruct (quotient_no_carry (Zpos p) (Zpos b) K ltac:(lia) ltac:(lia) HbK)
    as [Hn1 Hn2].
  rewrite <- Hq in Hn1, Hn2.
  destruct q as [|qp|qp]; try lia.
  destruct (Z_lt_le_dec (Zpos qp) (2 ^ 24)) as [H24|H25].
  - destruct (round_24 qp e' (new_location (Zpos m2) r)) as (m' & Hm' & ->);
      [lia|unfold e'; lia|].
    f_equal. replace e' with (- (24 + db - dp)) by (unfold e'; lia).
    rewrite Z.shiftl_div_pow2, Z.opp_involutive by lia. fold K.
    destruct Hm' as [-> | ->]; assumption.
  - destruct (round_25 qp e' (new_location (Zpos m2) r)) as (m' & Hm' & ->);
      [lia|unfold e'; lia|].
    f_equal.
    assert (Hdp23 : 0 <= 23 + db - dp) by lia.
    replace (e' + 1) with (- (23 + db - dp)) by (unfold e'; lia).
    rewrite Z.shiftl_div_pow2, Z.opp_involutive by lia.
    set (K2 := 2 ^ (23 + db - dp)).
    assert (HK2 : K = 2 * K2).
    { unfold K, K2. rewrite <- Z.pow_succ_r by lia. f_equal. lia. }
    assert (HK2pos : 0 < K2) by (apply Z.pow_pos_nonneg; lia).
    destruct Hm' as [-> | [Hodd ->]].
    + rewrite Z.div_div by lia. rewrite <- HK2. exact Hn1.
    + replace (Zpos qp / 2 + 1) with ((Zpos qp + 1) / 2).
      2:{ rewrite (Zodd_div2 (Zpos qp)) at 1 by (apply Zodd_bool_iff; exact Hodd).
          rewrite Z.div2_div.
          replace (2 * (Zpos qp / 2) + 1 + 1) with ((Zpos qp / 2 + 1) * 2) by lia.
          apply Z.div_mul. lia. }
      rewrite Z.div_div by lia. rewrite <- HK2. exact Hn2.
Qed.

(** ** The Resizer *)

Section Resizer.
Context (E : Externals) (fl : Flags).

Lemma to_int_Ok f t :
  F32.to_int f = Ok t <-> F32.trunc f = Some t /\ INT_MIN <= t <= INT_MAX.
Proof.
  unfold F32.to_int. destruct (F32.trunc f) as [z|]; split.
  - intros H. apply int_Ok in H as [-> H]. auto.
  - intros [[= ->] H]. apply int_in_range, H.
  - discriminate.
  - intros [[=] _].
Qed.

Lemma resizeImage_longer_rows img :
  0 < FLAGS_scale fl -> rows img > cols img ->
  resizeImage E fl img
  = t ← scaled_edge fl (rows img) (cols img);
    Ok (cv_resize E img (FLAGS_scale fl) t).
Proof.
  intros HS Hgt. unfold resizeImage.
  replace (FLAGS_scale fl <=? 0) with false by lia.
  replace (rows img >? cols img) with true by lia.
  destruct (scaled_edge fl (rows img) (cols img)); reflexivity.
Qed.

Lemma resizeImage_longer_cols img :
  0 < FLAGS_scale fl -> rows img <= cols img ->
  resizeImage E fl img
  = t ← scaled_edge fl (cols img) (rows img);
    Ok (cv_resize E img t (FLAGS_scale fl)).
Proof.
  intros HS Hle. unfold resizeImage.
  replace (FLAGS_scale fl <=? 0) with false by lia.
  replace (rows img >? cols img) with false by lia.
  destruct (scaled_edge fl (cols img) (rows img)); reflexivity.
Qed.

(** In the exact regime the longer side is the integer quotient. *)
Lemma scaled_edge_exact (a b : Z) :
  0 < FLAGS_scale fl -> 0 < b <= a -> a * FLAGS_scale fl < 2 ^ 24 ->
  scaled_edge fl a b = Ok (a * FLAGS_scale fl / b).
Proof.
  intros HS Hab Hprod. unfold scaled_edge.
  destruct a as [|a|a]; try lia. destruct b as [|b|b]; try lia.
  destruct (FLAGS_scale fl) as [|S|S] eqn:HSeq; try lia.
  rewrite mul_exact by exact Hprod.
  assert (Hb : Zpos b <= Zpos (a * S)) by (rewrite Pos2Z.inj_mul; nia).
  apply to_int_Ok. split.
  - rewrite div_trunc by (rewrite Pos2Z.inj_mul in *; lia).
    rewrite Pos2Z.inj_mul. reflexivity.
  - assert (0 <= Zpos a * Zpos S / Zpos b <= Zpos a * Zpos S).
    { split; [apply Z.div_pos; lia|].
      apply Z.div_le_upper_bound; [lia|]. nia. }
    unfold INT_MIN, INT_MAX. lia.
Qed.

(** C4, as amended.  With a scale S <= 0 the image is returned unchanged.
    With S > 0 the image is resized exactly when the binary32 value
    [q = float(longer) * S / shorter] converts to an [int] [t]; then the
    side of the shorter input edge (the width if rows > cols, the height
    otherwise) is exactly S and the other side is [t], the truncation of
    [q]; and min(outRows, outCols) = S holds if and only if S <= t.  For an
    image with positive sides and longer * S < 2^24 the resize is defined,
    [t] is the integer quotient longer * S / shorter, and
    min(outRows, outCols) = S. *)
Theorem resizeImage_shorter_edge (img : Mat) :
  (FLAGS_scale fl <= 0 -> resizeImage E fl img = Ok img) /\
  (0 < FLAGS_scale fl ->
   let S := FLAGS_scale fl in
   let longer := Z.max (rows img) (cols img) in
   let shorter := Z.min (rows img) (cols img) in
   let q := F32.div (F32.mul (F32.of_int longer) (F32.of_int S))
                    (F32.of_int shorter) in
   (forall m,
      resizeImage E fl img = Ok m <->
      exists t, F32.trunc q = Some t /\ INT_MIN <= t <= INT_MAX /\
        m = (if rows img >? cols img then cv_resize E img S t
             else cv_resize E img t S) /\
        (if rows img >? cols img then cols m = S /\ rows m = t
         else rows m = S /\ cols m = t) /\
        (Z.min (rows m) (cols m) = S <-> S <= t)) /\
   (0 < shorter -> longer * S < 2 ^ 24 ->
    exists m,
      resizeImage E fl img = Ok m /\
      (if rows img >? cols img
       then cols m = S /\ rows m = longer * S / shorter
       else rows m = S /\ cols m = longer * S / shorter) /\
      Z.min (rows m) (cols m) = S)).
Proof.
  split.
  - intros HS. unfold resizeImage.
    replace (FLAGS_scale fl <=? 0) with true by lia. reflexivity.
  - intros HS S longer shorter q. split.
    + intros m.
      destruct (Z_gt_le_dec (rows img) (cols img)) as [Hgt|Hle].
      * rewrite (resizeImage_longer_rows img HS Hgt).
        replace (rows img >? cols img) with true by lia.
        assert (Hq : scaled_edge fl (rows img) (cols img) = F32.to_int q).
        { unfold scaled_edge, q, longer, shorter.
          rewrite Z.max_l, Z.min_r by lia. reflexivity. }
        rewrite Hq. split.
        -- destruct (F32.to_int q) as [t|] eqn:Ht; [|discriminate].
           cbn [mbind result_bind]. intros [= <-].
           apply to_int_Ok in Ht as [Ht Hr].
           exists t. cbn [rows cols cv_resize]. repeat split; try lia; auto.
        -- intros (t & Ht & Hr & -> & _).
           rewrite (proj2 (to_int_Ok q t)) by auto. reflexivity.
      * rewrite (resizeImage_longer_cols img HS Hle).
        replace (rows img >? cols img) with false by lia.
        assert (Hq : scaled_edge fl (cols img) (rows img) = F32.to_int q).
        { unfold scaled_edge, q, longer, shorter.
          rewrite Z.max_r, Z.min_l by lia. reflexivity. }
        rewrite Hq. split.
        -- destruct (F32.to_int q) as [t|] eqn:Ht; [|discriminate].
           cbn [mbind result_bind]. intros [= <-].
           apply to_int_Ok in Ht as [Ht Hr].
           exists t. cbn [rows cols cv_resize]. repeat split; try lia; auto.
        -- intros (t & Ht & Hr & -> & _).
           rewrite (proj2 (to_int_Ok q t)) by auto. reflexivity.
    + intros Hshort Hexact.
      assert (Hbound : S <= longer * S / shorter).
      { apply Z.div_le_lower_bound; [exact Hshort|].
        unfold longer, shorter, S in *. nia. }
      destruct (Z_gt_le_dec (rows img) (cols img)) as [Hgt|Hle].
      * rewrite (resizeImage_longer_rows img HS Hgt).
        replace (rows img >? cols img) with true by lia.
        unfold longer, shorter in *.
        rewrite Z.max_l, Z.min_r in * by lia.
        rewrite scaled_edge_exact by (fold S; lia).
        eexists. split; [reflexivity|]. cbn [rows cols cv_resize]. fold S.
        split; [split; reflexivity|]. lia.
      * rewrite (resizeImage_longer_cols img HS Hle).
        replace (rows img >? cols img) with false by lia.
        unfold longer, shorter in *.
        rewrite Z.max_r, Z.min_l in * by lia.
        rewrite scaled_edge_exact by (fold S; lia).
        eexists. split; [reflexivity|]. cbn [rows cols cv_resize]. fold S.
        split; [split; reflexivity|]. lia.
Qed.

End Resizer.

Lemma resizeImage_shorter_edge_witness :
  resizeImage Fixture.E (with_scale 0 default_flags) (Fixture.ramp 480 640 0)
  = Ok (Fixture.ramp 480 640 0) /\
  resizeImage Fixture.E default_flags (Fixture.ramp 480 640 0)
  = Ok (cv_resize Fixture.E (Fixture.ramp 480 640 0) 341 256).
Proof.
  split.
  - apply (proj1 (resizeImage_shorter_edge Fixture.E (with_scale 0 default_flags)
                    (Fixture.ramp 480 640 0))).
    simpl. lia.
  - apply (proj1 (proj2 (resizeImage_shorter_edge Fixture.E default_flags
                           (Fixture.ramp 480 640 0)) ltac:(simpl; lia))).
    exists 341. split; [vm_compute; reflexivity|].
    split; [unfold INT_MIN, INT_MAX; lia|].
    split; [reflexivity|]. simpl. split; [split; reflexivity|]. lia.
Defined.

(** C4 as stated fails: a square image of 5613 x 5613 resized with scale
    2989 comes out 2988 wide and 2989 high, because 5613 * 2989 is rounded
    to 16777256 in binary32 and 16777256 / 5613 rounds below 2989. *)
Lemma resizeImage_square_counterexample :
  F32.mul (F32.of_int 5613) (F32.of_int 2989) = F32.of_int 16777256 /\
  resizeImage Fixture.E (with_scale 2989 default_flags) (Fixture.ramp 5613 5613 0)
  = Ok (cv_resize Fixture.E (Fixture.ramp 5613 5613 0) 2988 2989) /\
  Z.min (rows (cv_resize Fixture.E (Fixture.ramp 5613 5613 0) 2988 2989))
        (cols (cv_resize Fixture.E (Fixture.ramp 5613 5613 0) 2988 2989))
  <> 2989.
Proof.
  split; [vm_compute; reflexivity|]. split.
  - rewrite resizeImage_longer_cols by (simpl; lia).
    replace (scaled_edge _ _ _) with (@Ok Z 2988) by (vm_compute; reflexivity).
    reflexivity.
  - simpl. lia.
Qed.

(** ** The flag [warp] *)

(** C10.  Two runs that differ only in the value of [warp] have the same
    trace and the same outcome, for every environment and every other flag:
    no stage reads the flag. *)
Theorem warp_has_no_effect (E : Externals) (fl : Flags) (warp : bool) :
  convertImages E (with_warp warp fl) = convertImages E fl.
Proof. destruct fl. reflexivity. Qed.

(** ** The shape assertions of [convertOneImage] *)

(** C6 fails on the code.  With the default flags (scale 256, no crop) a
    480 x 640 photo is resized to 256 x 341 and the second shape assertion,
    which compares [crop.rows] with [width], stops the run; so does an
    explicit crop of 1 x 2 from a 2 x 2 image, and a 2 x 3 image left as it
    is. *)
Theorem convertOneImage_nonsquare_assertion :
  convertOneImage Fixture.E default_flags "photo.jpg"
  = ([EvCout "Converting photo.jpg"; EvImread "photo.jpg" true],
     Fatal (AssertionFailed "crop.rows == width")) /\
  convertOneImage Fixture.E (with_crop "1,2" (with_scale 0 default_flags)) "square.png"
  = ([EvCout "Converting square.png"; EvImread "square.png" true],
     Fatal (AssertionFailed "crop.rows == width")) /\
  convertOneImage Fixture.E (with_scale 0 default_flags) "wide.png"
  = ([EvCout "Converting wide.png"; EvImread "wide.png" true],
     Fatal (AssertionFailed "crop.rows == width")).
Proof. vm_compute. repeat split. Qed.

(** ** The input source *)

(** C9, as amended.  With neither input option the run stops at
    [assert(false)] with an empty trace: nothing was read, decoded or
    written.  With a non-empty path list the file names are the pieces of
    that list and the manifest option is not looked at: replacing it by any
    other value changes nothing.  With the manifest option alone the
    manifest is read and every line gives one file name, its third field
    when it has exactly three. *)
Theorem input_source_selection (E : Externals) (fl : Flags) :
  (FLAGS_input_images fl = "" -> FLAGS_input_image_file fl = "" ->
   convertImages E fl = ([], Fatal (AssertionFailed "false"))) /\
  (FLAGS_input_images fl <> "" ->
   input_file_names E fl = ([], Ok (split E comma (FLAGS_input_images fl))) /\
   forall file, convertImages E (with_input_image_file file fl) = convertImages E fl) /\
  (FLAGS_input_images fl = "" -> FLAGS_input_image_file fl <> "" ->
   input_file_names E fl
   = ([EvReadFile (FLAGS_input_image_file fl)],
      Ok ((fun line => match split E comma line with
                       | [_; _; name] => name
                       | _ => line
                       end) <$> getlines E (FLAGS_input_image_file fl)))).
Proof.
  split; [|split].
  - intros H1 H2. unfold convertImages, input_file_names. rewrite H1, H2. reflexivity.
  - intros H. apply String.eqb_neq in H. split.
    + unfold input_file_names. rewrite H. reflexivity.
    + intros file. unfold convertImages, input_file_names.
      destruct fl. simpl in *. rewrite H. reflexivity.
  - intros H1 H2. apply String.eqb_neq in H2.
    unfold input_file_names. rewrite H1, H2. reflexivity.
Qed.

Lemma input_source_selection_witness :
  convertImages Fixture.E default_flags = ([], Fatal (AssertionFailed "false")) /\
  convertImages Fixture.E (with_input_image_file "other.txt" Fixture.both_sources)
  = convertImages Fixture.E Fixture.both_sources.
Proof.
  split.
  - apply (proj1 (input_source_selection Fixture.E default_flags)); reflexivity.
  - apply (proj1 (proj2 (input_source_selection Fixture.E Fixture.both_sources))).
    discriminate.
Defined.

(** C9 as stated fails: with both input options given the run succeeds; it
    decodes the file of the path list, never opens the manifest and writes
    the tensor. *)
Lemma both_input_sources_counterexample :
  FLAGS_input_images Fixture.both_sources <> "" /\
  FLAGS_input_image_file Fixture.both_sources <> "" /\
  exists tr protos,
    convertImages Fixture.E Fixture.both_sources = (tr, Ok tt) /\
    decodes tr = [EvImread "square.png" true] /\
    (EvReadFile "list.txt" ∉ tr) /\
    writes tr = [EvWriteBinaryFile "out.pb" protos].
Proof.
  split; [discriminate|]. split; [discriminate|].
  eexists. eexists. split; [vm_compute; reflexivity|].
  split; [reflexivity|]. split; [|reflexivity].
  rewrite !not_elem_of_cons. repeat split; try discriminate. apply not_elem_of_nil.
Qed.

(** ** Signs in binary32: a resized image has no negative side *)

Section Signs.

Lemma binary_round_aux_sign sx mx ex lx :
  match binary_round_aux F32.prec F32.emax sx mx ex lx with
  | S754_finite s _ _ => s = sx
  | _ => True
  end.
Proof.
  unfold binary_round_aux.
  destruct (shr_fexp _ _ mx ex lx) as [mrs' e'].
  destruct (shr_fexp _ _ _ e' loc_Exact) as [mrs'' e''].
  destruct (shr_m mrs''); auto.
  destruct (e'' <=? _); auto.
Qed.

Lemma binary_round_aux_not_negative mx ex lx :
  not_negative (binary_round_aux F32.prec F32.emax false mx ex lx).
Proof.
  pose proof (binary_round_aux_sign false mx ex lx) as H.
  unfold not_negative.
  destruct (binary_round_aux _ _ _ _ _ _) as [| | |[|] ? ?]; auto.
  discriminate.
Qed.

Lemma of_int_not_negative z : 0 <= z -> not_negative (F32.of_int z).
Proof.
  intros Hz. unfold F32.of_int, binary_normalize.
  destruct z as [|m|m]; [exact I| |lia].
  unfold binary_round. destruct (shl_align _ _ _) as [mz ez].
  apply binary_round_aux_not_negative.
Qed.

Lemma mul_not_negative x y :
  not_negative x -> not_negative y -> not_negative (F32.mul x y).
Proof.
  destruct x as [| | |[|] mx ex], y as [| | |[|] my ey];
    simpl; intros Hx Hy; try exact I; try contradiction.
  apply binary_round_aux_not_negative.
Qed.

Lemma div_not_negative x y :
  not_negative x -> not_negative y -> not_negative (F32.div x y).
Proof.
  destruct x as [| | |[|] mx ex], y as [| | |[|] my ey];
    simpl; intros Hx Hy; try exact I; try contradiction.
  unfold F32.div, SFdiv.
  destruct (SFdiv_core_binary _ _ _ _ _ _) as [[mz ez] lz].
  apply binary_round_aux_not_negative.
Qed.

Lemma trunc_not_negative f t :
  not_negative f -> F32.trunc f = Some t -> 0 <= t.
Proof.
  destruct f as [s|s| |[|] m e]; simpl; intros Hf [= <-];
    try lia; try contradiction.
  destruct e; cbn [cond_Zopp].
  - apply Z.shiftl_nonneg. lia.
  - apply Z.shiftl_nonneg. lia.
  - apply Z.shiftr_nonneg. lia.
Qed.

Lemma scaled_edge_nonneg fl a b t :
  0 < FLAGS_scale fl -> 0 <= a -> 0 <= b ->
  scaled_edge fl a b = Ok t -> 0 <= t.
Proof.
  intros HS Ha Hb H. unfold scaled_edge in H.
  apply to_int_Ok in H as [H _].
  eapply trunc_not_negative; [|exact H].
  apply div_not_negative; [apply mul_not_negative|];
    apply of_int_not_negative; lia.
Qed.

Lemma resizeImage_nonneg E fl img m :
  0 <= rows img -> 0 <= cols img ->
  resizeImage E fl img = Ok m -> 0 <= rows m /\ 0 <= cols m.
Proof.
  intros Hr Hc. unfold resizeImage.
  destruct (FLAGS_scale fl <=? 0) eqn:HS.
  - intros [= <-]. auto.
  - destruct (rows img >? cols img).
    + destruct (scaled_edge fl (rows img) (cols img)) as [t|] eqn:Ht;
        [|discriminate].
      cbn [mbind result_bind]. intros [= <-]. cbn [rows cols cv_resize].
      apply scaled_edge_nonneg in Ht; lia.
    + destruct (scaled_edge fl (cols img) (rows img)) as [t|] eqn:Ht;
        [|discriminate].
      cbn [mbind result_bind]. intros [= <-]. cbn [rows cols cv_resize].
      apply scaled_edge_nonneg in Ht; lia.
Qed.

End Signs.

(** ** The trace monad *)

Section IO.
Context {A B : Type}.

Lemma io_bind_lift (r : result A) (k : A -> io B) :
  lift r ≫= k = match r with Ok a => k a | Fatal f => ([], Fatal f) end.
Proof.
  destruct r as [a|f]; unfold mbind, io_bind, lift; [|reflexivity].
  destruct (k a). reflexivity.
Qed.

Lemma io_bind_emit (e : event) (k : unit -> io B) :
  emit e ≫= k = (e :: fst (k tt), snd (k tt)).
Proof. unfold mbind, io_bind, emit. destruct (k tt). reflexivity. Qed.

Lemma io_bind_Ok (m : io A) (k : A -> io B) tr b :
  m ≫= k = (tr, Ok b) ->
  exists tr1 a tr2, m = (tr1, Ok a) /\ k a = (tr2, Ok b) /\ tr = tr1 ++ tr2.
Proof.
  unfold mbind, io_bind. destruct m as [tr1 [a|f]]; [|discriminate].
  destruct (k a) as [tr2 r] eqn:Hk. intros [= <- ->].
  exists tr1, a, tr2. auto.
Qed.

Lemma io_bind_lift_Ok (r : result A) (k : A -> io B) tr b :
  lift r ≫= k = (tr, Ok b) -> exists a, r = Ok a /\ k a = (tr, Ok b).
Proof.
  rewrite io_bind_lift. destruct r as [a|f]; [|discriminate]. eauto.
Qed.

Lemma io_bind_unfold (m : io A) (k : A -> io B) :
  m ≫= k = match m with
           | (tr, Ok a) => (tr ++ fst (k a), snd (k a))
           | (tr, Fatal f) => (tr, Fatal f)
           end.
Proof.
  unfold mbind, io_bind. destruct m as [tr [a|f]]; [|reflexivity].
  destruct (k a). reflexivity.
Qed.

Lemma silent_bind (m : io A) (k : A -> io B) :
  silent m -> (forall a, silent (k a)) -> silent (m ≫= k).
Proof.
  intros Hm Hk. rewrite io_bind_unfold. destruct m as [tr [a|f]]; [|exact Hm].
  unfold silent, writes in *. cbn [fst] in *.
  rewrite List.filter_app, Hm. apply Hk.
Qed.

Lemma silent_lift (r : result A) : silent (lift r).
Proof. reflexivity. Qed.

Lemma silent_ret (a : A) : silent (mret a : io A).
Proof. reflexivity. Qed.

End IO.

Lemma io_bind_emit_Ok {B : Type} (e : event) (k : unit -> io B) tr b :
  emit e ≫= k = (tr, Ok b) -> exists tr', k tt = (tr', Ok b) /\ tr = e :: tr'.
Proof.
  rewrite io_bind_emit. destruct (k tt) as [tr' r]. cbn [fst snd].
  intros [= <- ->]. eauto.
Qed.

Lemma silent_emit e : is_write e = false -> silent (emit e).
Proof. intros H. unfold silent, writes, emit. cbn. rewrite H. reflexivity. Qed.

(** ** One image *)

Section OneImage.
Context (E : Externals) (fl : Flags).

Lemma reportTime_silent type metric unit_ :
  silent (reportTime E fl type metric unit_).
Proof.
  unfold reportTime. destruct (String.eqb _ _); [apply silent_ret|].
  destruct (split E bar _); [apply silent_lift|].
  apply silent_bind; [apply silent_lift|]. intros _.
  apply silent_emit. reflexivity.
Qed.

Lemma convertOneImage_silent filename : silent (convertOneImage E fl filename).
Proof.
  unfold convertOneImage.
  apply silent_bind; [apply silent_lift|]. intros _.
  apply silent_bind; [apply silent_emit; reflexivity|]. intros _.
  apply silent_bind; [apply silent_emit; reflexivity|]. intros _.
  apply silent_bind; [apply silent_lift|]. intros resized.
  apply silent_bind; [apply silent_lift|]. intros height.
  apply silent_bind; [apply silent_lift|]. intros width.
  destruct (_ || _).
  - apply silent_bind; [apply silent_lift|]. intros [[crop h] w].
    apply silent_bind; [apply silent_lift|]. intros _.
    apply silent_bind; [apply silent_lift|]. intros _.
    apply silent_bind; [apply silent_lift|]. intros v.
    apply silent_bind; [apply reportTime_silent|]. intros _.
    apply silent_ret.
  - apply silent_bind; [apply silent_lift|]. intros [[crop h] w].
    apply silent_bind; [apply silent_lift|]. intros _.
    apply silent_bind; [apply silent_lift|]. intros _.
    apply silent_bind; [apply silent_lift|]. intros v.
    apply silent_bind; [apply reportTime_silent|]. intros _.
    apply silent_ret.
Qed.

(** What a successful [convertOneImage] went through. *)
Lemma convertOneImage_inv filename tr v h w :
  convertOneImage E fl filename = (tr, Ok (v, h, w)) ->
  exists resized H0 W0 crop,
    resizeImage E fl (imread E filename (FLAGS_color fl)) = Ok resized /\
    ((H0 = rows resized /\ W0 = cols resized) \/ (0 < H0 /\ 0 < W0)) /\
    cropToRec resized H0 W0 = Ok (crop, h, w) /\
    rows crop = h /\ rows crop = w /\
    convertToVector E fl crop = Ok v.
Proof.
  unfold convertOneImage. intros H.
  apply io_bind_lift_Ok in H as (_ & _ & H).
  apply io_bind_emit_Ok in H as (tr1 & H & _).
  apply io_bind_emit_Ok in H as (tr2 & H & _).
  apply io_bind_lift_Ok in H as (resized & Hres & H).
  apply io_bind_lift_Ok in H as (height & _ & H).
  apply io_bind_lift_Ok in H as (width & _ & H).
  assert (Hcase : exists H0 W0,
    ((H0 = rows resized /\ W0 = cols resized) \/ (0 < H0 /\ 0 < W0)) /\
    (if (height <=? 0) || (width <=? 0)
     then (rows resized, cols resized) else (height, width)) = (H0, W0)).
  { destruct ((height <=? 0) || (width <=? 0)) eqn:Hdis.
    - exists (rows resized), (cols resized). auto.
    - exists height, width. split; [|reflexivity]. right.
      apply orb_false_iff in Hdis. lia. }
  destruct Hcase as (H0 & W0 & Hcase & Heq). rewrite Heq in H.
  apply io_bind_lift_Ok in H as ([[crop h'] w'] & Hcrop & H).
  apply io_bind_lift_Ok in H as ([] & Ha1 & H).
  apply io_bind_lift_Ok in H as ([] & Ha2 & H).
  apply io_bind_lift_Ok in H as (v' & Hv & H).
  apply io_bind_Ok in H as (t1 & [] & t2 & _ & Hret & _).
  injection Hret as _ Hv' Hh' Hw'. subst v' h' w'.
  apply assert_Ok in Ha1, Ha2.
  exists resized, H0, W0, crop. repeat split; auto; lia.
Qed.

(** The image a successful [convertOneImage] converted: the decoded image
    resized and cropped, of the final [height] and [width]. *)
Lemma convertOneImage_crop filename tr v h w :
  imread_well_formed E ->
  convertOneImage E fl filename = (tr, Ok (v, h, w)) ->
  exists resized H0 W0 crop,
    resizeImage E fl (imread E filename (FLAGS_color fl)) = Ok resized /\
    cropToRec resized H0 W0 = Ok (crop, h, w) /\
    rows crop = h /\ cols crop = w /\ 0 <= h /\ 0 <= w /\ h = w /\
    convertToVector E fl crop = Ok v.
Proof.
  intros Hwf H.
  apply convertOneImage_inv in H
    as (resized & H0 & W0 & crop & Hres & Hcase & Hcrop & Hr1 & Hr2 & Hv).
  destruct (Hwf filename (FLAGS_color fl)) as [Hrows Hcols].
  destruct (resizeImage_nonneg _ _ _ _ Hrows Hcols Hres) as [Hrr Hrc].
  pose proof (cropToRec_noop resized Hrr Hrc H0 W0) as Hnoop.
  pose proof (cropToRec_crops resized Hrr Hrc H0 W0) as Hroi.
  assert (Hdims : rows crop = h /\ cols crop = w /\ 0 <= h /\ 0 <= w).
  { destruct Hcase as [[-> ->]|[HH HW]].
    - rewrite Hnoop in Hcrop by auto. injection Hcrop as <- <- <-. auto.
    - destruct (Z.eq_dec H0 (rows resized)) as [He1|Hn1];
        [destruct (Z.eq_dec W0 (cols resized)) as [He2|Hn2]|].
      + rewrite Hnoop in Hcrop by auto. injection Hcrop as <- <- <-.
        subst. auto.
      + destruct Hroi as (crop' & Hc' & Hc1 & Hc2 & _); [lia|].
        rewrite Hc' in Hcrop. injection Hcrop as <- <- <-. lia.
      + destruct Hroi as (crop' & Hc' & Hc1 & Hc2 & _); [lia|].
        rewrite Hc' in Hcrop. injection Hcrop as <- <- <-. lia. }
  destruct Hdims as (Hd1 & Hd2 & Hh & Hw).
  exists resized, H0, W0, crop. repeat split; auto; lia.
Qed.

(** The final [height] and [width] of a successful [convertOneImage] are
    those of the cropped image, whose rows were compared with both; the
    vector has [C * height * width] elements. *)
Lemma convertOneImage_Ok filename tr v h w :
  imread_well_formed E ->
  convertOneImage E fl filename = (tr, Ok (v, h, w)) ->
  0 <= h /\ 0 <= w /\ h = w /\
  Z.of_nat (length v) = channels fl * h * w /\
  INT_MIN <= channels fl * h * w <= INT_MAX.
Proof.
  intros Hwf H.
  apply convertOneImage_crop in H
    as (resized & H0 & W0 & crop & _ & _ & Hd1 & Hd2 & Hh & Hw & Heq & Hv);
    [|exact Hwf].
  apply convertToVector_length in Hv as [Hlen Hrange].
  fold (channels fl) in Hlen, Hrange. rewrite Hd1, Hd2 in Hlen, Hrange.
  repeat split; try lia.
Qed.

End OneImage.

(** ** The batch *)

Lemma Forall2_and_r {A B : Type} (P : A -> B -> Prop) (Q : B -> Prop) l k :
  Forall2 P l k -> Forall Q k -> Forall2 (fun x y => P x y /\ Q y) l k.
Proof.
  induction 1 as [|x y l k HP _ IH]; intros HQ; [constructor|].
  inversion HQ; subst. constructor; auto.
Qed.

Section Batch.
Context (E : Externals) (fl : Flags).
Hypothesis codec : imread_well_formed E.

Lemma fatal_silent_bind {A B : Type} (m : io A) (k : A -> io B) :
  silent m -> (forall a, fatal_silent (k a)) -> fatal_silent (m ≫= k).
Proof.
  intros Hm Hk tr e. rewrite io_bind_unfold.
  destruct m as [t1 [a|f]].
  - destruct (k a) as [t2 r] eqn:Hka. cbn [fst snd]. intros [= <- ->].
    unfold silent, writes in *. cbn [fst] in Hm.
    rewrite List.filter_app, Hm. apply (Hk a t2 e Hka).
  - intros [= <- _]. exact Hm.
Qed.

Lemma input_file_names_silent : silent (input_file_names E fl).
Proof.
  unfold input_file_names. destruct (negb _); [apply silent_ret|].
  destruct (negb _); [|apply silent_lift].
  apply silent_bind; [apply silent_emit; reflexivity|]. intros _.
  apply silent_ret.
Qed.

Lemma convert_loop_silent names : forall height width values,
  silent (convert_loop E fl names height width values).
Proof.
  induction names as [|f rest IH]; intros height width values;
    cbn [convert_loop]; [apply silent_ret|].
  apply silent_bind; [apply convertOneImage_silent|]. intros [[v oh] ow].
  apply silent_bind; [|intros [h' w']; apply IH].
  destruct (_ && _); [apply silent_ret|].
  apply silent_bind; [apply silent_lift|]. intros _.
  apply silent_bind; [apply silent_lift|]. intros _. apply silent_ret.
Qed.

(** A run that ends fatally has written nothing. *)
Lemma convertImages_fatal_silent : fatal_silent (convertImages E fl).
Proof.
  unfold convertImages.
  apply fatal_silent_bind; [apply input_file_names_silent|]. intros names.
  apply fatal_silent_bind; [apply convert_loop_silent|]. intros [[h w] vals].
  apply fatal_silent_bind; [apply silent_lift|]. intros data.
  apply fatal_silent_bind; [apply reportTime_silent|]. intros _.
  intros tr e. destruct (FLAGS_text_output fl); discriminate.
Qed.

(** The loop over the file names: from a state in which the batch size is
    either still unset (both negative) or set (both non-negative), a
    successful loop has converted every file to the batch size, appended
    the vectors in order, and kept a size that was set. *)
Lemma convert_loop_Ok names : forall height width values tr H W vals,
  (height < 0 /\ width < 0) \/ (0 <= height /\ 0 <= width) ->
  convert_loop E fl names height width values = (tr, Ok (H, W, vals)) ->
  exists vs,
    vals = values ++ vs /\
    Forall2 (fun f v => exists t, convertOneImage E fl f = (t, Ok (v, H, W)))
            names vs /\
    (0 <= height /\ 0 <= width -> H = height /\ W = width) /\
    (names = [] -> H = height /\ W = width).
Proof.
  induction names as [|f rest IH]; intros height width values tr H W vals Hpre;
    cbn [convert_loop].
  - intros [= _ <- <- <-]. exists []. rewrite app_nil_r.
    repeat split; auto.
  - intros Hrun.
    apply io_bind_Ok in Hrun as (t1 & [[v oh] ow] & t2 & Hone & Hrun & _).
    pose proof (convertOneImage_Ok E fl f t1 v oh ow codec Hone)
      as (Hoh & How & _).
    apply io_bind_Ok in Hrun as (t3 & [h' w'] & t4 & Hset & Hrun & _).
    assert (Hnext : h' = oh /\ w' = ow /\
                    (0 <= height /\ 0 <= width -> oh = height /\ ow = width)).
    { destruct ((height <? 0) && (width <? 0)) eqn:Hunset.
      - injection Hset as _ <- <-. apply andb_true_iff in Hunset.
        repeat split; lia.
      - apply io_bind_lift_Ok in Hset as ([] & Ha1 & Hset).
        apply io_bind_lift_Ok in Hset as ([] & Ha2 & Hset).
        injection Hset as _ <- <-. apply assert_Ok in Ha1, Ha2.
        apply andb_false_iff in Hunset. repeat split; lia. }
    destruct Hnext as (-> & -> & Hkeep).
    apply IH in Hrun as (vs & -> & Hall & Hsame & _); [|lia].
    destruct Hsame as [-> ->]; [lia|].
    exists (v :: vs). rewrite <- app_assoc.
    split; [reflexivity|]. split; [constructor; [eauto|exact Hall]|].
    split; [exact Hkeep|discriminate].
Qed.

Lemma pack_loop_Ok C h w values : forall acc data,
  pack_loop C h w values acc = Ok data ->
  data = acc ++ concat values /\
  Forall (fun v : list F32.t => Z.of_nat (length v) = C * h * w) values.
Proof.
  induction values as [|v rest IH]; intros acc data; cbn [pack_loop].
  - intros [= <-]. rewrite app_nil_r. split; constructor.
  - destruct (int_ (C * h * w)) as [chw|] eqn:Hchw; [|discriminate].
    apply int_Ok in Hchw as [-> _]. cbn [mbind result_bind].
    destruct (assert _ _) as [[]|] eqn:Ha; [|discriminate].
    apply assert_Ok in Ha. cbn [mbind result_bind].
    intros Hrun. apply IH in Hrun as [-> Hall].
    rewrite <- app_assoc. split; [reflexivity|].
    constructor; [lia|exact Hall].
Qed.

(** What a successful run went through. *)
Lemma convertImages_Ok tr :
  convertImages E fl = (tr, Ok tt) ->
  exists t0 names H W vs,
    input_file_names E fl = (t0, Ok names) /\
    Forall2 (fun f v => exists t, convertOneImage E fl f = (t, Ok (v, H, W)))
            names vs /\
    (names = [] -> H = -1 /\ W = -1) /\
    Forall (fun v : list F32.t => Z.of_nat (length v) = channels fl * H * W) vs /\
    writes tr
    = [write_event fl
         [{| data_type := FLOAT;
             dims := [Z.of_nat (length vs); channels fl; H; W];
             float_data := concat vs |}]].
Proof.
  unfold convertImages. intros Hrun.
  apply io_bind_Ok in Hrun as (t0 & names & t & Hnames & Hrun & ->).
  apply io_bind_Ok in Hrun as (t1 & [[H W] vals] & t' & Hloop & Hrun & ->).
  apply io_bind_lift_Ok in Hrun as (data & Hpack & Hrun).
  apply io_bind_Ok in Hrun as (t2 & [] & t3 & Hrep & Hrun & ->).
  pose proof input_file_names_silent as S0. rewrite Hnames in S0.
  pose proof (convert_loop_silent names (-1) (-1) []) as S1.
  rewrite Hloop in S1.
  pose proof (reportTime_silent E fl "image_preprocess" "pack" "us") as S2.
  rewrite Hrep in S2. unfold silent in S0, S1, S2. cbn [fst] in S0, S1, S2.
  apply convert_loop_Ok in Hloop as (vs & -> & Hall & _ & Hempty); [|lia].
  apply pack_loop_Ok in Hpack as [-> Hlen]. cbn [app] in *.
  exists t0, names, H, W, vs. repeat split; auto; try (apply Hempty; assumption).
  unfold writes in *. rewrite !List.filter_app, S0, S1, S2. cbn [app].
  unfold write_event.
  destruct (FLAGS_text_output fl); injection Hrun as <-; reflexivity.
Qed.

(** The flat payload of equally long vectors: image-major. *)
Lemma concat_uniform (L : nat) (vs : list (list F32.t)) :
  Forall (fun v => length v = L) vs ->
  length (concat vs) = (length vs * L)%nat /\
  forall (n : nat) v (j : nat),
    vs !! n = Some v -> (j < L)%nat ->
    concat vs !! (n * L + j)%nat = v !! j.
Proof.
  induction 1 as [|v0 vs Hv0 _ [IHlen IHlook]]; cbn [concat length].
  - split; [reflexivity|]. intros n v j Hn. rewrite lookup_nil in Hn. discriminate.
  - split; [rewrite length_app; lia|].
    intros [|n] v j Hn Hj; cbn in Hn.
    + injection Hn as <-. cbn [Nat.mul Nat.add]. apply lookup_app_l. lia.
    + rewrite lookup_app_r by lia.
      replace (S n * L + j - length v0)%nat with (n * L + j)%nat by lia.
      apply IHlook; assumption.
Qed.

(** C5.  When the first file name converts to a vector with the effective
    height H and width W, the loop goes on from the state in which the
    batch height and width are H and W.  If the run succeeds, every file
    was converted at that height and width to a vector of exactly
    C * H * W elements, and the tensor written has the dims [N, C, H, W].
    If a later file converts to another height or width, the run ends
    fatally and has written no file. *)
Theorem batch_shape (t0 tr0 : list event) (first : string) (rest : list string)
    (v0 : list F32.t) (H W : Z) :
  input_file_names E fl = (t0, Ok (first :: rest)) ->
  convertOneImage E fl first = (tr0, Ok (v0, H, W)) ->
  convert_loop E fl (first :: rest) (-1) (-1) []
  = (tr0 ++ fst (convert_loop E fl rest H W [v0]),
     snd (convert_loop E fl rest H W [v0])) /\
  (forall tr, convertImages E fl = (tr, Ok tt) ->
     exists vs data,
       Forall2 (fun f v =>
                  (exists t, convertOneImage E fl f = (t, Ok (v, H, W))) /\
                  Z.of_nat (length v) = channels fl * H * W)
               (first :: rest) vs /\
       writes tr
       = [write_event fl
            [{| data_type := FLOAT;
                dims := [Z.of_nat (length (first :: rest)); channels fl; H; W];
                float_data := data |}]]) /\
  (forall f t v h w,
     f ∈ rest ->
     convertOneImage E fl f = (t, Ok (v, h, w)) ->
     h <> H \/ w <> W ->
     exists tr e, convertImages E fl = (tr, Fatal e) /\ writes tr = []).
Proof.
  intros Hnames Hfirst.
  assert (Hsuccess : forall tr, convertImages E fl = (tr, Ok tt) ->
    exists vs,
      Forall2 (fun f v => exists t, convertOneImage E fl f = (t, Ok (v, H, W)))
              (first :: rest) vs /\
      Forall (fun v : list F32.t => Z.of_nat (length v) = channels fl * H * W) vs /\
      writes tr
      = [write_event fl
           [{| data_type := FLOAT;
               dims := [Z.of_nat (length vs); channels fl; H; W];
               float_data := concat vs |}]]).
  { intros tr Hrun.
    apply convertImages_Ok in Hrun
      as (t0' & names & H' & W' & vs & Hnames' & Hall & _ & Hlen & Hw).
    rewrite Hnames in Hnames'. injection Hnames' as _ <-.
    assert (H' = H /\ W' = W) as [-> ->].
    { inversion Hall as [|f v l k [t Hf] _]; subst.
      rewrite Hfirst in Hf. injection Hf as _ _ -> ->. auto. }
    exists vs. auto. }
  split; [|split].
  - cbn [convert_loop]. rewrite io_bind_unfold, Hfirst.
    cbn [fst snd andb Z.ltb Z.compare].
    change (mret (H, W) : io (Z * Z)) with (([], Ok (H, W)) : io (Z * Z)).
    rewrite io_bind_unfold. cbn [fst snd app].
    reflexivity.
  - intros tr Hrun. destruct (Hsuccess tr Hrun) as (vs & Hall & Hlen & Hw).
    exists vs, (concat vs). split.
    + apply Forall2_and_r; assumption.
    + rewrite Hw. apply Forall2_length in Hall. rewrite Hall. reflexivity.
  - intros f t v h w Hin Hf Hne.
    destruct (convertImages E fl) as [tr [[]|e]] eqn:Hrun.
    + exfalso. destruct (Hsuccess tr eq_refl) as (vs & Hall & _).
      apply list_elem_of_lookup_1 in Hin as [i Hi].
      destruct (Forall2_lookup_l _ _ _ (S i) f Hall Hi) as (v' & _ & t' & Hf').
      rewrite Hf in Hf'. injection Hf' as _ _ -> ->. lia.
    + exists tr, e. split; [reflexivity|].
      apply (convertImages_fatal_silent tr e Hrun).
Qed.

(** C2.  A successful run over N file names wrote exactly one file, with
    one tensor of data type FLOAT whose dims are [N, C, H, W] and whose
    payload is the concatenation, in input order, of the vectors
    [convertOneImage] returns for the file names, each for the height H
    and width W and of C * H * W elements: the payload has N * C * H * W
    elements and the element [j] of image [n] is at index
    [n * (C * H * W) + j].  Image-major, then channel-major, then row-major,
    then column-major: the element at index [((n * C + k) * H + r) * W + c]
    is the normalised sample of channel [k], row [r], column [c] of the
    resized and cropped image [n]. *)
Theorem tensor_layout (tr : list event) :
  convertImages E fl = (tr, Ok tt) ->
  exists t0 names H W vs,
    input_file_names E fl = (t0, Ok names) /\
    Forall2 (fun f v => exists t, convertOneImage E fl f = (t, Ok (v, H, W)))
            names vs /\
    writes tr
    = [write_event fl
         [{| data_type := FLOAT;
             dims := [Z.of_nat (length names); channels fl; H; W];
             float_data := concat vs |}]] /\
    Z.of_nat (length (concat vs))
    = Z.of_nat (length names) * channels fl * H * W /\
    (forall (n : nat) v,
       vs !! n = Some v ->
       Z.of_nat (length v) = channels fl * H * W /\
       forall j : nat,
         (j < length v)%nat ->
         concat vs !! (n * Z.to_nat (channels fl * H * W) + j)%nat = v !! j) /\
    (forall (n : nat) f,
       names !! n = Some f ->
       exists resized H0 W0 crop st,
         resizeImage E fl (imread E f (FLAGS_color fl)) = Ok resized /\
         cropToRec resized H0 W0 = Ok (crop, H, W) /\
         preprocess_steps (split E comma (FLAGS_preprocess fl)) initial_state
         = Ok st /\
         forall k r c,
           0 <= k < channels fl -> 0 <= r < H -> 0 <= c < W ->
           concat vs
             !! Z.to_nat (((Z.of_nat n * channels fl + k) * H + r) * W + c)
           = Some (normalized st k (at_ crop r c (source_channel fl st k)))).
Proof.
  intros Hrun.
  apply convertImages_Ok in Hrun
    as (t0 & names & H & W & vs & Hnames & Hall & Hempty & Hlen & Hw).
  exists t0, names, H, W, vs.
  pose proof (Forall2_length _ _ _ Hall) as HN.
  split; [exact Hnames|]. split; [exact Hall|].
  split; [rewrite HN; exact Hw|].
  assert (Hlen' : Forall (fun v : list F32.t =>
                            length v = Z.to_nat (channels fl * H * W)) vs).
  { eapply Forall_impl; [exact Hlen|]. intros v Hv. cbn beta in Hv. lia. }
  destruct (concat_uniform _ vs Hlen') as [Hcl Hlook].
  split; [|split].
  - rewrite Hcl, HN. destruct vs as [|v vs'].
    + cbn. lia.
    + inversion Hlen; subst. nia.
  - intros n v Hn. pose proof (Forall_lookup_1 _ _ _ _ Hlen Hn) as Hv.
    cbn beta in Hv. split; [exact Hv|].
    intros j Hj. apply Hlook; [exact Hn|]. lia.
  - intros n f Hf.
    destruct (Forall2_lookup_l _ _ _ n f Hall Hf) as (v & Hv & t & Hone).
    apply convertOneImage_crop in Hone
      as (resized & H0 & W0 & crop & Hres & Hcrop & Hd1 & Hd2 & HH & HW & _ & Hvec);
      [|exact codec].
    destruct (convertToVector_at E fl crop v) as (st & Hst & Hat);
      [lia|lia|exact Hvec|].
    exists resized, H0, W0, crop, st.
    split; [exact Hres|]. split; [exact Hcrop|]. split; [exact Hst|].
    intros k r c Hk Hr Hc.
    pose proof (Forall_lookup_1 _ _ _ _ Hlen Hv) as HLv. cbn beta in HLv.
    set (L := channels fl * H * W) in *.
    set (j := k * (H * W) + (r * W + c)).
    assert (Hi : 0 <= r * W + c < H * W) by nia.
    assert (Hj : 0 <= j < L).
    { unfold j, L. rewrite <- Z.mul_assoc.
      set (area := H * W) in *. nia. }
    replace (((Z.of_nat n * channels fl + k) * H + r) * W + c)
      with (Z.of_nat n * L + j) by (unfold j, L; ring).
    replace (Z.to_nat (Z.of_nat n * L + j))
      with (n * Z.to_nat L + Z.to_nat j)%nat by nia.
    rewrite (Hlook n v (Z.to_nat j) Hv) by lia.
    unfold j. rewrite <- Hd1, <- Hd2. apply Hat; lia.
Qed.

End Batch.

Lemma fixture_well_formed : imread_well_formed Fixture.E.
Proof.
  intros filename color. cbn [imread Fixture.E]. unfold Fixture.imread_known.
  repeat (destruct (String.eqb filename _)); cbn; lia.
Qed.

Lemma batch_shape_witness :
  (exists vs data,
     Forall2 (fun f v =>
                (exists t, convertOneImage Fixture.E Fixture.two_squares f
                           = (t, Ok (v, 2, 2))) /\
                Z.of_nat (length v) = channels Fixture.two_squares * 2 * 2)
             ["square.png"; "square.png"] vs /\
     writes (fst (convertImages Fixture.E Fixture.two_squares))
     = [write_event Fixture.two_squares
          [{| data_type := FLOAT; dims := [2; 3; 2; 2]; float_data := data |}]]) /\
  (exists tr e,
     convertImages Fixture.E Fixture.square_then_pixel = (tr, Fatal e) /\
     writes tr = []).
Proof.
  split.
  - refine (proj1 (proj2 (batch_shape Fixture.E Fixture.two_squares
                            fixture_well_formed [] _ "square.png" ["square.png"]
                            _ 2 2 _ _)) _ _);
      vm_compute; reflexivity.
  - refine (proj2 (proj2 (batch_shape Fixture.E Fixture.square_then_pixel
                            fixture_well_formed [] _ "square.png" ["pixel.png"]
                            _ 2 2 _ _)) "pixel.png" _ _ 1 1 _ _ _).
    + vm_compute; reflexivity.
    + vm_compute; reflexivity.
    + apply list_elem_of_here.
    + vm_compute; reflexivity.
    + lia.
Defined.

Lemma tensor_layout_witness :
  exists t0 names H W vs,
    input_file_names Fixture.E Fixture.two_squares = (t0, Ok names) /\
    writes (fst (convertImages Fixture.E Fixture.two_squares))
    = [write_event Fixture.two_squares
         [{| data_type := FLOAT;
             dims := [Z.of_nat (length names); channels Fixture.two_squares; H; W];
             float_data := concat vs |}]] /\
    Z.of_nat (length (concat vs))
    = Z.of_nat (length names) * channels Fixture.two_squares * H * W.
Proof.
  destruct (tensor_layout Fixture.E Fixture.two_squares fixture_well_formed
              (fst (convertImages Fixture.E Fixture.two_squares)))
    as (t0 & names & H & W & vs & Hnames & _ & Hw & Hlen & _).
  - vm_compute. reflexivity.
  - exists t0, names, H, W, vs. auto.
Defined.

(** * Further properties *)

(** ** More on the Cropper *)

Lemma noop_or_crop (img : Mat) (H W : Z) :
  (H <= 0 \/ W <= 0 \/ (H = rows img /\ W = cols img)) \/
  ~ (H <= 0 \/ W <= 0 \/ (H = rows img /\ W = cols img)).
Proof.
  destruct (Z_le_gt_dec H 0), (Z_le_gt_dec W 0), (Z.eq_dec H (rows img)),
    (Z.eq_dec W (cols img)); (left; lia) || (right; lia).
Qed.

(** X1.  [cropToRec] is idempotent.  Cropping the image it returned, with the
    height and width it returned, gives that image back unchanged. *)
Theorem cropToRec_idempotent (img crop : Mat) (H W h w : Z) :
  0 <= rows img -> 0 <= cols img ->
  cropToRec img H W = Ok (crop, h, w) ->
  cropToRec crop h w = Ok (crop, h, w).
Proof.
  intros Hr Hc Hcrop. unfold cropToRec at 1.
  destruct (Z_le_gt_dec h 0) as [Hh|Hh].
  { replace (h >? 0) with false by lia. reflexivity. }
  destruct (Z_le_gt_dec w 0) as [Hw|Hw].
  { replace (w >? 0) with false by lia. rewrite andb_false_r. reflexivity. }
  assert (Hdims : rows crop = h /\ cols crop = w).
  { destruct (noop_or_crop img H W) as [Hn|Hn].
    - rewrite (cropToRec_noop img Hr Hc H W Hn) in Hcrop.
      injection Hcrop as <- <- <-. lia.
    - destruct (cropToRec_crops img Hr Hc H W Hn) as (c' & Hc' & H1 & H2 & _).
      rewrite Hc' in Hcrop. injection Hcrop as <- <- <-. auto. }
  destruct Hdims as [-> ->]. rewrite !Z.eqb_refl. cbn.
  rewrite andb_false_r. reflexivity.
Qed.

Lemma cropToRec_idempotent_witness :
  cropToRec (Mat_roi (Fixture.ramp 4 6 0) 1 1 3 2) 2 3
  = Ok (Mat_roi (Fixture.ramp 4 6 0) 1 1 3 2, 2, 3).
Proof.
  apply (cropToRec_idempotent (Fixture.ramp 4 6 0) _ 2 3);
    [simpl; lia | simpl; lia | reflexivity].
Defined.

(** X2.  A crop request that fits the image (0 < H <= rows, 0 < W <= cols,
    not both equal to the image's) returns exactly H rows and W columns,
    taken at the offsets (rows - H) / 2 and (cols - W) / 2; the margin left
    after the rectangle is the margin before it, or one sample more. *)
Theorem cropToRec_centered (img : Mat) (H W : Z) :
  0 < H <= rows img -> 0 < W <= cols img ->
  ~ (H = rows img /\ W = cols img) ->
  let offsetX := (cols img - W) / 2 in
  let offsetY := (rows img - H) / 2 in
  cropToRec img H W = Ok (Mat_roi img offsetX offsetY W H, H, W) /\
  0 <= (cols img - (offsetX + W)) - offsetX <= 1 /\
  0 <= (rows img - (offsetY + H)) - offsetY <= 1.
Proof.
  intros HH HW Hne offsetX offsetY.
  rewrite (cropToRec_computes img ltac:(lia) ltac:(lia)).
  unfold Cropper_reference.
  replace ((H <=? 0) || (W <=? 0) || ((H =? rows img) && (W =? cols img)))
    with false.
  2:{ symmetry. apply orb_false_iff. split.
      - apply orb_false_iff. split; lia.
      - apply andb_false_iff. lia. }
  rewrite !Z.quot_div_nonneg by lia.
  assert (Hx : 0 <= offsetX /\ 2 * offsetX <= cols img - W < 2 * offsetX + 2).
  { unfold offsetX. pose proof (Z.div_mod (cols img - W) 2 ltac:(lia)).
    pose proof (Z.mod_pos_bound (cols img - W) 2 ltac:(lia)).
    split; [apply Z.div_pos; lia|lia]. }
  assert (Hy : 0 <= offsetY /\ 2 * offsetY <= rows img - H < 2 * offsetY + 2).
  { unfold offsetY. pose proof (Z.div_mod (rows img - H) 2 ltac:(lia)).
    pose proof (Z.mod_pos_bound (rows img - H) 2 ltac:(lia)).
    split; [apply Z.div_pos; lia|lia]. }
  fold offsetX offsetY.
  rewrite !Z.max_r, !Z.min_l by lia.
  split; [reflexivity|]. lia.
Qed.

Lemma cropToRec_centered_witness :
  cropToRec (Fixture.ramp 4 7 0) 2 4
  = Ok (Mat_roi (Fixture.ramp 4 7 0) 1 1 4 2, 2, 4).
Proof.
  apply (cropToRec_centered (Fixture.ramp 4 7 0) 2 4); simpl; lia.
Defined.

(** X3.  A crop request at least as large as the image in both directions
    shrinks to the image: the returned height and width
    are the image's and every sample is the sample of the input at the same
    place. *)
Theorem cropToRec_oversized (img : Mat) (H W : Z) :
  0 <= rows img -> 0 <= cols img ->
  rows img <= H -> cols img <= W -> 0 < H -> 0 < W ->
  exists crop,
    cropToRec img H W = Ok (crop, rows img, cols img) /\
    rows crop = rows img /\ cols crop = cols img /\
    forall r c ch, at_ crop r c ch = at_ img r c ch.
Proof.
  intros Hr Hc HH HW HH0 HW0.
  destruct (noop_or_crop img H W) as [Hn|Hn].
  - assert (H = rows img /\ W = cols img) as [-> ->] by lia.
    exists img. rewrite (cropToRec_noop img Hr Hc) by auto. auto.
  - destruct (cropToRec_crops img Hr Hc H W Hn)
      as (crop & Hcrop & H1 & H2 & Hat & _).
    rewrite !Z.min_r in * by lia.
    assert (Hx : Z.quot (cols img - W) 2 <= 0).
    { destruct (Z.eq_dec (cols img - W) 0) as [->|]; [reflexivity|].
      apply quot2_neg. lia. }
    assert (Hy : Z.quot (rows img - H) 2 <= 0).
    { destruct (Z.eq_dec (rows img - H) 0) as [->|]; [reflexivity|].
      apply quot2_neg. lia. }
    rewrite !Z.max_l in Hat by lia.
    exists crop. repeat split; auto.
Qed.

Lemma cropToRec_oversized_witness :
  exists crop,
    cropToRec (Fixture.ramp 2 3 0) 224 224 = Ok (crop, 2, 3) /\
    rows crop = 2 /\ cols crop = 3 /\
    forall r c ch, at_ crop r c ch = at_ (Fixture.ramp 2 3 0) r c ch.
Proof.
  apply (cropToRec_oversized (Fixture.ramp 2 3 0) 224 224); simpl; lia.
Defined.

(** X4.  Resizing and cropping keep an image well formed and never enlarge
    it: from an image without a negative side, the resized image has no
    negative side, and the cropped image has no negative side and at most
    the rows and columns of the resized one. *)
Theorem resize_crop_well_formed (E : Externals) (fl : Flags)
    (img resized crop : Mat) (H W h w : Z) :
  0 <= rows img -> 0 <= cols img ->
  resizeImage E fl img = Ok resized ->
  cropToRec resized H W = Ok (crop, h, w) ->
  0 <= rows resized /\ 0 <= cols resized /\
  0 <= rows crop <= rows resized /\ 0 <= cols crop <= cols resized.
Proof.
  intros Hr Hc Hres Hcrop.
  destruct (resizeImage_nonneg E fl img resized Hr Hc Hres) as [Hrr Hrc].
  split; [exact Hrr|]. split; [exact Hrc|].
  destruct (noop_or_crop resized H W) as [Hn|Hn].
  - rewrite (cropToRec_noop resized Hrr Hrc H W Hn) in Hcrop.
    injection Hcrop as <- _ _. lia.
  - destruct (cropToRec_crops resized Hrr Hrc H W Hn)
      as (crop' & Hc' & H1 & H2 & _).
    rewrite Hc' in Hcrop. injection Hcrop as <- _ _. lia.
Qed.

Lemma resize_crop_well_formed_witness :
  0 <= rows (cv_resize Fixture.E (Fixture.ramp 480 640 0) 341 256) /\
  0 <= cols (cv_resize Fixture.E (Fixture.ramp 480 640 0) 341 256) /\
  0 <= rows (Mat_roi (cv_resize Fixture.E (Fixture.ramp 480 640 0) 341 256)
               58 16 224 224)
    <= rows (cv_resize Fixture.E (Fixture.ramp 480 640 0) 341 256) /\
  0 <= cols (Mat_roi (cv_resize Fixture.E (Fixture.ramp 480 640 0) 341 256)
               58 16 224 224)
    <= cols (cv_resize Fixture.E (Fixture.ramp 480 640 0) 341 256).
Proof.
  apply (resize_crop_well_formed Fixture.E default_flags
           (Fixture.ramp 480 640 0) _ _ 224 224 224 224).
  - simpl; lia.
  - simpl; lia.
  - vm_compute. reflexivity.
  - reflexivity.
Defined.

(** ** More on the Resizer *)

(** X5.  In the exact regime resizing is idempotent on the size: an image
    that was resized is resized again to the same rows and columns. *)
Theorem resizeImage_size_idempotent (E : Externals) (fl : Flags) (img m : Mat) :
  0 < FLAGS_scale fl -> 0 < rows img -> 0 < cols img ->
  Z.max (rows img) (cols img) * FLAGS_scale fl < 2 ^ 24 ->
  Z.max (rows img) (cols img) * FLAGS_scale fl / Z.min (rows img) (cols img)
    * FLAGS_scale fl < 2 ^ 24 ->
  resizeImage E fl img = Ok m ->
  exists m', resizeImage E fl m = Ok m' /\ rows m' = rows m /\ cols m' = cols m.
Proof.
  intros HS Hr Hc Hexact Hexact' Hm.
  set (S := FLAGS_scale fl) in *.
  assert (Hagain : forall t, S <= t -> t * S < 2 ^ 24 ->
            scaled_edge fl t S = Ok t).
  { intros t Ht Hlt. rewrite scaled_edge_exact by (fold S; lia).
    fold S. rewrite Z.div_mul by lia. reflexivity. }
  destruct (Z_gt_le_dec (rows img) (cols img)) as [Hgt|Hle].
  - rewrite (resizeImage_longer_rows E fl img HS Hgt) in Hm.
    rewrite Z.max_l, Z.min_r in * by lia.
    rewrite scaled_edge_exact in Hm by (fold S; lia).
    cbn [mbind result_bind] in Hm. injection Hm as <-. fold S in Hexact' |- *.
    set (t := rows img * S / cols img) in *.
    assert (Ht : S <= t) by (apply Z.div_le_lower_bound; nia).
    cbn [rows cols cv_resize].
    destruct (Z_gt_le_dec t S) as [Hts|Hts].
    + rewrite resizeImage_longer_rows by (cbn [rows cols cv_resize]; lia).
      cbn [rows cols cv_resize]. rewrite Hagain by lia.
      eexists. split; [reflexivity|]. cbn [rows cols cv_resize]. auto.
    + rewrite resizeImage_longer_cols by (cbn [rows cols cv_resize]; lia).
      cbn [rows cols cv_resize]. replace t with S in * by lia.
      rewrite Hagain by lia.
      eexists. split; [reflexivity|]. cbn [rows cols cv_resize]. auto.
  - rewrite (resizeImage_longer_cols E fl img HS Hle) in Hm.
    rewrite Z.max_r, Z.min_l in * by lia.
    rewrite scaled_edge_exact in Hm by (fold S; lia).
    cbn [mbind result_bind] in Hm. injection Hm as <-. fold S in Hexact' |- *.
    set (t := cols img * S / rows img) in *.
    assert (Ht : S <= t) by (apply Z.div_le_lower_bound; nia).
    rewrite resizeImage_longer_cols by (cbn [rows cols cv_resize]; lia).
    cbn [rows cols cv_resize]. rewrite Hagain by lia.
    eexists. split; [reflexivity|]. cbn [rows cols cv_resize]. auto.
Qed.

Lemma resizeImage_size_idempotent_witness :
  exists m',
    resizeImage Fixture.E default_flags
      (cv_resize Fixture.E (Fixture.ramp 480 640 0) 341 256) = Ok m' /\
    rows m' = 256 /\ cols m' = 341.
Proof.
  apply (resizeImage_size_idempotent Fixture.E default_flags
           (Fixture.ramp 480 640 0)).
  - simpl; lia.
  - simpl; lia.
  - simpl; lia.
  - vm_compute; reflexivity.
  - vm_compute; reflexivity.
  - vm_compute; reflexivity.
Defined.

Lemma trunc_div_zero (x : F32.t) (s : bool) :
  F32.trunc (F32.div x (S754_zero s)) = None.
Proof. destruct x as [| | |? ? ?]; reflexivity. Qed.

(** X6.  An image with an empty side, such as the empty image of a failed
    decode, cannot be resized: with a scale above 0 [resizeImage] ends
    fatally, in the conversion of the quotient by the side 0 to [int]. *)
Theorem resizeImage_empty_fatal (E : Externals) (fl : Flags) (img : Mat) :
  0 < FLAGS_scale fl ->
  0 <= rows img -> 0 <= cols img -> Z.min (rows img) (cols img) = 0 ->
  resizeImage E fl img = Fatal (UndefinedBehaviour "float to int conversion").
Proof.
  intros HS Hr Hc Hmin.
  destruct (Z_gt_le_dec (rows img) (cols img)) as [Hgt|Hle].
  - rewrite resizeImage_longer_rows by assumption.
    unfold scaled_edge, F32.to_int.
    replace (cols img) with 0 by lia.
    change (F32.of_int 0) with (S754_zero false).
    rewrite trunc_div_zero. reflexivity.
  - rewrite resizeImage_longer_cols by assumption.
    unfold scaled_edge, F32.to_int.
    replace (rows img) with 0 by lia.
    change (F32.of_int 0) with (S754_zero false).
    rewrite trunc_div_zero. reflexivity.
Qed.

Lemma resizeImage_empty_fatal_witness :
  resizeImage Fixture.E default_flags Fixture.empty_Mat
  = Fatal (UndefinedBehaviour "float to int conversion").
Proof.
  apply (resizeImage_empty_fatal Fixture.E default_flags Fixture.empty_Mat);
    simpl; lia.
Defined.

(** ** The values the preprocessing steps produce *)

Lemma uchar_forall (P : Z -> Prop) :
  Forall P (seqZ 0 256) -> forall x, 0 <= x <= 255 -> P x.
Proof. intros H x Hx. apply (proj1 (Forall_seqZ P 0 256) H). lia. Qed.

Ltac each_uchar :=
  apply uchar_forall;
  let l := eval vm_compute in (seqZ 0 256) in
  change (seqZ 0 256) with l;
  repeat (apply List.Forall_cons; [vm_compute; repeat split; reflexivity|]);
  apply List.Forall_nil.

Lemma vec3_get_fill (x : F32.t) (k : Z) : vec3_get (vec3_fill x) k = x.
Proof. unfold vec3_get, vec3_fill. destruct (k =? 0), (k =? 1); reflexivity. Qed.

Lemma subtract128_sample x :
  0 <= x <= 255 ->
  F32.div (F32.sub (F32.div (F32.of_int x) (F32.of_int 1)) (F32.of_int 128))
          (F32.of_int 1)
  = F32.of_int (x - 128).
Proof. revert x. each_uchar. Qed.

Lemma default_sample x :
  0 <= x <= 255 ->
  F32.div (F32.sub (F32.div (F32.of_int x) (F32.of_int 1)) (F32.of_int 0))
          (F32.of_int 1)
  = F32.of_int x.
Proof. revert x. each_uchar. Qed.

Lemma normalize_sample x :
  0 <= x <= 255 ->
  F32.div (F32.sub (F32.div (F32.of_int x) (F32.of_int 255)) (F32.of_int 0))
          (F32.of_int 1)
  = F32.div (F32.of_int x) (F32.of_int 255) /\
  SFleb (F32.of_int 0) (F32.div (F32.of_int x) (F32.of_int 255)) = true /\
  SFleb (F32.div (F32.of_int x) (F32.of_int 255)) (F32.of_int 1) = true.
Proof. revert x. each_uchar. Qed.

(** The elements of the vector, when the state maps every [uchar] sample
    [x] to [g x] in every channel. *)
Lemma convertToVector_pointwise (E : Externals) (fl : Flags) (img : Mat)
    (st : PreprocessState) (values : list F32.t) (g : Z -> F32.t) :
  0 <= rows img -> 0 <= cols img -> uchar_image img ->
  preprocess_steps (split E comma (FLAGS_preprocess fl)) initial_state = Ok st ->
  (forall k x, 0 <= x <= 255 -> normalized st k x = g x) ->
  convertToVector E fl img = Ok values ->
  forall k r c,
    0 <= k < channels fl -> 0 <= r < rows img -> 0 <= c < cols img ->
    values !! Z.to_nat (k * (rows img * cols img) + (r * cols img + c))
    = Some (g (at_ img r c (source_channel fl st k))).
Proof.
  intros Hr Hc Hu Hst Hg Hrun k r c Hk Hrr Hcc.
  destruct (convertToVector_at E fl img values Hr Hc Hrun) as (st' & Hst' & Hat).
  rewrite Hst in Hst'. injection Hst' as <-.
  rewrite Hat by assumption. f_equal. apply Hg, Hu; try assumption.
  unfold source_channel, channels in *.
  destruct (FLAGS_color fl), (bgrtorgb st); lia.
Qed.

(** X7.  After the step [subtract128] (more generally, in every state with
    normalize = (1,1,1), mean = (128,128,128) and std = (1,1,1)) every
    element of the vector is exactly the integer sample minus 128: the
    element of plane [k], row [r], column [c] is the float [x - 128] for the
    sample [x] of the source channel. *)
Theorem subtract128_values (E : Externals) (fl : Flags) (img : Mat)
    (st : PreprocessState) (values : list F32.t) :
  0 <= rows img -> 0 <= cols img -> uchar_image img ->
  preprocess_steps (split E comma (FLAGS_preprocess fl)) initial_state = Ok st ->
  normalize st = vec3_fill (F32.of_int 1) ->
  mean st = vec3_fill (F32.of_int 128) ->
  std st = vec3_fill (F32.of_int 1) ->
  convertToVector E fl img = Ok values ->
  forall k r c,
    0 <= k < channels fl -> 0 <= r < rows img -> 0 <= c < cols img ->
    values !! Z.to_nat (k * (rows img * cols img) + (r * cols img + c))
    = Some (F32.of_int (at_ img r c (source_channel fl st k) - 128)).
Proof.
  intros Hr Hc Hu Hst Hn Hm Hs Hrun.
  apply (convertToVector_pointwise E fl img st values
           (fun x => F32.of_int (x - 128))); try assumption.
  intros k x Hx. unfold normalized. rewrite Hn, Hm, Hs, !vec3_get_fill.
  apply subtract128_sample, Hx.
Qed.

(** X8.  After the step [normalize] alone (in every state with
    normalize = (255,255,255), mean = (0,0,0) and std = (1,1,1)) every
    element of the vector is the sample divided by 255 in binary32, a
    number between 0 and 1. *)
Theorem normalize_values (E : Externals) (fl : Flags) (img : Mat)
    (st : PreprocessState) (values : list F32.t) :
  0 <= rows img -> 0 <= cols img -> uchar_image img ->
  preprocess_steps (split E comma (FLAGS_preprocess fl)) initial_state = Ok st ->
  normalize st = vec3_fill (F32.of_int 255) ->
  mean st = vec3_fill (F32.of_int 0) ->
  std st = vec3_fill (F32.of_int 1) ->
  convertToVector E fl img = Ok values ->
  forall k r c,
    0 <= k < channels fl -> 0 <= r < rows img -> 0 <= c < cols img ->
    exists v,
      values !! Z.to_nat (k * (rows img * cols img) + (r * cols img + c))
      = Some v /\
      v = F32.div (F32.of_int (at_ img r c (source_channel fl st k)))
                  (F32.of_int 255) /\
      SFleb (F32.of_int 0) v = true /\ SFleb v (F32.of_int 1) = true.
Proof.
  intros Hr Hc Hu Hst Hn Hm Hs Hrun k r c Hk Hrr Hcc.
  eexists. split.
  - apply (convertToVector_pointwise E fl img st values
             (fun x => F32.div (F32.of_int x) (F32.of_int 255)));
      try assumption.
    intros k' x Hx. unfold normalized. rewrite Hn, Hm, Hs, !vec3_get_fill.
    apply normalize_sample, Hx.
  - cbn beta. split; [reflexivity|].
    apply normalize_sample, Hu; try assumption.
    unfold source_channel, channels in *.
    destruct (FLAGS_color fl), (bgrtorgb st); lia.
Qed.

(** X9.  Without preprocessing steps (in every state with
    normalize = (1,1,1), mean = (0,0,0) and std = (1,1,1), so also after
    [bgrtorgb] alone) every element of the vector is exactly the sample of
    the source channel, converted to float. *)
Theorem default_values (E : Externals) (fl : Flags) (img : Mat)
    (st : PreprocessState) (values : list F32.t) :
  0 <= rows img -> 0 <= cols img -> uchar_image img ->
  preprocess_steps (split E comma (FLAGS_preprocess fl)) initial_state = Ok st ->
  normalize st = vec3_fill (F32.of_int 1) ->
  mean st = vec3_fill (F32.of_int 0) ->
  std st = vec3_fill (F32.of_int 1) ->
  convertToVector E fl img = Ok values ->
  forall k r c,
    0 <= k < channels fl -> 0 <= r < rows img -> 0 <= c < cols img ->
    values !! Z.to_nat (k * (rows img * cols img) + (r * cols img + c))
    = Some (F32.of_int (at_ img r c (source_channel fl st k))).
Proof.
  intros Hr Hc Hu Hst Hn Hm Hs Hrun.
  apply (convertToVector_pointwise E fl img st values F32.of_int);
    try assumption.
  intros k x Hx. unfold normalized. rewrite Hn, Hm, Hs, !vec3_get_fill.
  apply default_sample, Hx.
Qed.

Lemma ramp_uchar : uchar_image (Fixture.ramp 2 2 100).
Proof. intros r c ch Hr Hc Hch. cbn in *. lia. Qed.

Lemma subtract128_values_witness :
  exists values : list F32.t,
    convertToVector Fixture.E (with_preprocess "subtract128" default_flags)
      (Fixture.ramp 2 2 100) = Ok values /\
    values !! Z.to_nat (2 * (2 * 2) + (1 * 2 + 1))
    = Some (F32.of_int (123 - 128)).
Proof.
  eexists. split; [vm_compute; reflexivity|].
  refine (subtract128_values Fixture.E
            (with_preprocess "subtract128" default_flags)
            (Fixture.ramp 2 2 100)
            {| normalize := vec3_fill (F32.of_int 1);
               mean := vec3_fill (F32.of_int 128);
               std := vec3_fill (F32.of_int 1);
               bgrtorgb := false |} _ _ _ ramp_uchar
            eq_refl eq_refl eq_refl eq_refl _ 2 1 1 _ _ _);
    try (simpl; lia);
    try (unfold channels; simpl; lia);
    try (vm_compute; reflexivity).
Defined.

Lemma normalize_values_witness :
  exists (values : list F32.t) v,
    convertToVector Fixture.E (with_preprocess "normalize" default_flags)
      (Fixture.ramp 2 2 100) = Ok values /\
    values !! Z.to_nat (2 * (2 * 2) + (1 * 2 + 1)) = Some v /\
    v = F32.div (F32.of_int 123) (F32.of_int 255) /\
    SFleb (F32.of_int 0) v = true /\ SFleb v (F32.of_int 1) = true.
Proof.
  eexists.
  refine ((fun Hrun =>
             match normalize_values Fixture.E
                     (with_preprocess "normalize" default_flags)
                     (Fixture.ramp 2 2 100)
                     {| normalize := vec3_fill (F32.of_int 255);
                        mean := vec3_fill (F32.of_int 0);
                        std := vec3_fill (F32.of_int 1);
                        bgrtorgb := false |} _ _ _ ramp_uchar
                     eq_refl eq_refl eq_refl eq_refl Hrun 2 1 1 _ _ _
             with
             | ex_intro _ v H => ex_intro _ v (conj Hrun H)
             end) _);
    try (simpl; lia);
    try (unfold channels; simpl; lia);
    try (vm_compute; reflexivity).
Defined.

Lemma default_values_witness :
  exists values : list F32.t,
    convertToVector Fixture.E default_flags (Fixture.ramp 2 2 100) = Ok values /\
    values !! Z.to_nat (2 * (2 * 2) + (1 * 2 + 1)) = Some (F32.of_int 123).
Proof.
  eexists. split; [vm_compute; reflexivity|].
  refine (default_values Fixture.E default_flags (Fixture.ramp 2 2 100)
            initial_state _ _ _ ramp_uchar
            eq_refl eq_refl eq_refl eq_refl _ 2 1 1 _ _ _);
    try (simpl; lia);
    try (unfold channels; simpl; lia);
    try (vm_compute; reflexivity).
Defined.

(** ** How the preprocessing steps compose *)

Lemma preprocess_step_cases (step : string) :
  step = "subtract128" \/ step = "normalize" \/ step = "mean" \/
  step = "std" \/ step = "bgrtorgb" \/ step ∉ vocabulary.
Proof.
  destruct (decide (step ∈ vocabulary)) as [Hv|Hv]; [|auto 10].
  unfold vocabulary in Hv. rewrite !elem_of_cons, elem_of_nil in Hv.
  destruct Hv as [->|[->|[->|[->|[->|[]]]]]]; auto 10.
Qed.

Ltac step_cases s :=
  destruct (preprocess_step_cases s) as [->|[->|[->|[->|[->|?]]]]].

Ltac run_steps :=
  cbn [preprocess_steps mbind result_bind];
  repeat first
    [ progress cbn [preprocess_steps mbind result_bind]
    | rewrite preprocess_step_unrecognized by assumption
    | match goal with
      | |- context [preprocess_step ?st "subtract128"] =>
          change (preprocess_step st "subtract128")
            with (Ok {| normalize := vec3_fill (F32.of_int 1);
                        mean := vec3_fill (F32.of_int 128);
                        std := vec3_fill (F32.of_int 1);
                        bgrtorgb := bgrtorgb st |})
      | |- context [preprocess_step ?st "normalize"] =>
          change (preprocess_step st "normalize")
            with (Ok {| normalize := vec3_fill (F32.of_int 255);
                        mean := mean st; std := std st;
                        bgrtorgb := bgrtorgb st |})
      | |- context [preprocess_step ?st "mean"] =>
          change (preprocess_step st "mean")
            with (Ok {| normalize := normalize st;
                        mean := (F32.lit_0_406, F32.lit_0_456, F32.lit_0_485);
                        std := std st; bgrtorgb := bgrtorgb st |})
      | |- context [preprocess_step ?st "std"] =>
          change (preprocess_step st "std")
            with (Ok {| normalize := normalize st; mean := mean st;
                        std := (F32.lit_0_225, F32.lit_0_224, F32.lit_0_229);
                        bgrtorgb := bgrtorgb st |})
      | |- context [preprocess_step ?st "bgrtorgb"] =>
          change (preprocess_step st "bgrtorgb")
            with (Ok {| normalize := normalize st; mean := mean st;
                        std := std st; bgrtorgb := true |})
      end ];
  cbn [normalize mean std bgrtorgb].

(** X10.  Repeating a step changes nothing, and two neighbouring steps can
    be exchanged unless one is [subtract128] and the other is [normalize],
    [mean] or [std]: the outcome of the whole step list, a state or the
    error of an unknown step, is the same. *)
Theorem preprocess_steps_algebra :
  (forall l1 s l2 st,
     preprocess_steps (l1 ++ s :: s :: l2) st
     = preprocess_steps (l1 ++ s :: l2) st) /\
  (forall l1 s t l2 st,
     ~ (s = "subtract128" /\ t ∈ ["normalize"; "mean"; "std"]) ->
     ~ (t = "subtract128" /\ s ∈ ["normalize"; "mean"; "std"]) ->
     preprocess_steps (l1 ++ s :: t :: l2) st
     = preprocess_steps (l1 ++ t :: s :: l2) st).
Proof.
  split.
  - intros l1 s l2 st. rewrite !preprocess_steps_app.
    destruct (preprocess_steps l1 st) as [st1|]; [|reflexivity].
    cbn [mbind result_bind].
    step_cases s; run_steps; reflexivity.
  - intros l1 s t l2 st Hst Hts. rewrite !preprocess_steps_app.
    destruct (preprocess_steps l1 st) as [st1|]; [|reflexivity].
    cbn [mbind result_bind].
    assert (Hin : forall x : string,
              x = "normalize" \/ x = "mean" \/ x = "std" ->
              x ∈ ["normalize"; "mean"; "std"]).
    { intros x Hx. rewrite !elem_of_cons. tauto. }
    step_cases s; step_cases t; run_steps; try reflexivity;
      exfalso; (apply Hst; split; [reflexivity|apply Hin; auto])
               || (apply Hts; split; [reflexivity|apply Hin; auto]).
Qed.

Lemma preprocess_steps_algebra_witness :
  preprocess_steps (["mean"] ++ "bgrtorgb" :: "subtract128" :: ["normalize"])
    initial_state
  = preprocess_steps (["mean"] ++ "subtract128" :: "bgrtorgb" :: ["normalize"])
      initial_state.
Proof.
  apply (proj2 preprocess_steps_algebra ["mean"] "bgrtorgb" "subtract128"
           ["normalize"] initial_state).
  - intros [H _]. discriminate.
  - intros [_ H]. rewrite !elem_of_cons, elem_of_nil in H.
    destruct H as [H|[H|[H|[]]]]; discriminate.
Defined.

(** ** The swap flag *)

(** Two conversions whose planes agree sample by sample return the same
    vector. *)
Lemma convertToVector_agree (E : Externals) (fl1 fl2 : Flags) (img1 img2 : Mat)
    (st1 st2 : PreprocessState) :
  FLAGS_color fl1 = FLAGS_color fl2 ->
  rows img1 = rows img2 -> cols img1 = cols img2 ->
  0 <= rows img1 -> 0 <= cols img1 ->
  channels fl1 * (rows img1 * cols img1) <= INT_MAX ->
  preprocess_steps (split E comma (FLAGS_preprocess fl1)) initial_state = Ok st1 ->
  preprocess_steps (split E comma (FLAGS_preprocess fl2)) initial_state = Ok st2 ->
  (forall k i,
     0 <= k < channels fl1 -> 0 <= i < rows img1 * cols img1 ->
     normalized st1 k (Mat_elem img1 i (source_channel fl1 st1 k))
     = normalized st2 k (Mat_elem img2 i (source_channel fl2 st2 k))) ->
  convertToVector E fl1 img1 = convertToVector E fl2 img2.
Proof.
  intros Hcolor Hrows Hcols Hr Hc Hmax Hst1 Hst2 Hsame.
  unfold channels in *.
  destruct (convertToVector_run E fl1 img1 st1 Hr Hc Hmax Hst1)
    as (v1 & Hrun1 & H1).
  destruct (convertToVector_run E fl2 img2 st2) as (v2 & Hrun2 & H2);
    [lia | lia | rewrite <- Hcolor, <- Hrows, <- Hcols; exact Hmax | exact Hst2 |].
  rewrite Hrun1, Hrun2. f_equal.
  rewrite <- Hrows, <- Hcols in H2.
  set (size := rows img1 * cols img1) in *.
  assert (Hsize : 0 <= size) by (unfold size; lia).
  unfold source_channel in Hsame. rewrite <- Hcolor in *.
  apply list_eq. intros n.
  destruct (FLAGS_color fl1).
  - destruct H1 as [Hl1 H1], H2 as [Hl2 H2].
    destruct (Z_lt_le_dec (Z.of_nat n) (3 * size)) as [Hn|Hn].
    + assert (Hpos : 0 < size) by lia.
      pose proof (Z.div_mod (Z.of_nat n) size ltac:(lia)) as Hdm.
      pose proof (Z.mod_pos_bound (Z.of_nat n) size Hpos) as Hmod.
      set (k := Z.of_nat n / size) in *. set (i := Z.of_nat n mod size) in *.
      assert (Hk : 0 <= k < 3).
      { split; [apply Z.div_pos; lia|].
        apply Z.div_lt_upper_bound; lia. }
      replace n with (Z.to_nat (k * size + i)) by lia.
      rewrite H1, H2 by lia. f_equal. apply Hsame; lia.
    + rewrite !(proj2 (lookup_ge_None _ _)) by lia. reflexivity.
  - destruct H1 as [Hl1 H1], H2 as [Hl2 H2].
    destruct (Z_lt_le_dec (Z.of_nat n) size) as [Hn|Hn].
    + replace n with (Z.to_nat (Z.of_nat n)) by lia.
      rewrite H1, H2 by lia. f_equal. apply (Hsame 0); lia.
    + rewrite !(proj2 (lookup_ge_None _ _)) by lia. reflexivity.
Qed.

(** X11.  In color mode the step [bgrtorgb] does what exchanging the
    channels 0 and 2 of every pixel of the input does: a conversion with the
    swap flag set returns the vector that the conversion without it returns
    for the image with the two channels exchanged. *)
Theorem bgrtorgb_exchanges_channels (E : Externals) (fl1 fl2 : Flags)
    (img : Mat) (st1 st2 : PreprocessState) :
  FLAGS_color fl1 = true -> FLAGS_color fl2 = true ->
  0 <= rows img -> 0 <= cols img -> 3 * (rows img * cols img) <= INT_MAX ->
  preprocess_steps (split E comma (FLAGS_preprocess fl1)) initial_state = Ok st1 ->
  preprocess_steps (split E comma (FLAGS_preprocess fl2)) initial_state = Ok st2 ->
  normalize st1 = normalize st2 -> mean st1 = mean st2 -> std st1 = std st2 ->
  bgrtorgb st1 = true -> bgrtorgb st2 = false ->
  convertToVector E fl1 img = convertToVector E fl2 (exchange_channels img).
Proof.
  intros Hc1 Hc2 Hr Hc Hmax Hst1 Hst2 Hn Hm Hs Hb1 Hb2.
  apply (convertToVector_agree E fl1 fl2 img (exchange_channels img) st1 st2);
    try assumption; try reflexivity; try congruence.
  - unfold channels. rewrite Hc1. exact Hmax.
  - intros k i Hk Hi. unfold normalized, source_channel, Mat_elem.
    rewrite Hc1, Hc2, Hb1, Hb2, Hn, Hm, Hs. reflexivity.
Qed.

Lemma bgrtorgb_exchanges_channels_witness :
  convertToVector Fixture.E (with_preprocess "bgrtorgb" default_flags)
    (Fixture.ramp 2 2 100)
  = convertToVector Fixture.E default_flags
      (exchange_channels (Fixture.ramp 2 2 100)).
Proof.
  apply (bgrtorgb_exchanges_channels Fixture.E
           (with_preprocess "bgrtorgb" default_flags) default_flags
           (Fixture.ramp 2 2 100)
           {| normalize := vec3_fill (F32.of_int 1);
              mean := vec3_fill (F32.of_int 0);
              std := vec3_fill (F32.of_int 1);
              bgrtorgb := true |}
           initial_state);
    try reflexivity; simpl; unfold INT_MAX; lia.
Defined.

(** X12.  In grayscale mode the swap flag has no effect: two step lists
    that lead to the same normalize, mean and std give the same vector,
    whether or not they contain [bgrtorgb]. *)
Theorem grayscale_ignores_bgrtorgb (E : Externals) (fl1 fl2 : Flags)
    (img : Mat) (st1 st2 : PreprocessState) :
  FLAGS_color fl1 = false -> FLAGS_color fl2 = false ->
  0 <= rows img -> 0 <= cols img -> rows img * cols img <= INT_MAX ->
  preprocess_steps (split E comma (FLAGS_preprocess fl1)) initial_state = Ok st1 ->
  preprocess_steps (split E comma (FLAGS_preprocess fl2)) initial_state = Ok st2 ->
  normalize st1 = normalize st2 -> mean st1 = mean st2 -> std st1 = std st2 ->
  convertToVector E fl1 img = convertToVector E fl2 img.
Proof.
  intros Hc1 Hc2 Hr Hc Hmax Hst1 Hst2 Hn Hm Hs.
  apply (convertToVector_agree E fl1 fl2 img img st1 st2);
    try assumption; try reflexivity; try congruence.
  - unfold channels. rewrite Hc1. lia.
  - intros k i Hk Hi. unfold normalized, source_channel.
    rewrite Hc1, Hc2, Hn, Hm, Hs. reflexivity.
Qed.

Lemma grayscale_ignores_bgrtorgb_witness :
  convertToVector Fixture.E
    (with_color false (with_preprocess "bgrtorgb,normalize" default_flags))
    (Fixture.ramp 2 2 100)
  = convertToVector Fixture.E
      (with_color false (with_preprocess "normalize" default_flags))
      (Fixture.ramp 2 2 100).
Proof.
  apply (grayscale_ignores_bgrtorgb Fixture.E
           (with_color false (with_preprocess "bgrtorgb,normalize" default_flags))
           (with_color false (with_preprocess "normalize" default_flags))
           (Fixture.ramp 2 2 100)
           {| normalize := vec3_fill (F32.of_int 255);
              mean := vec3_fill (F32.of_int 0);
              std := vec3_fill (F32.of_int 1);
              bgrtorgb := true |}
           {| normalize := vec3_fill (F32.of_int 255);
              mean := vec3_fill (F32.of_int 0);
              std := vec3_fill (F32.of_int 1);
              bgrtorgb := false |});
    try reflexivity; simpl; unfold INT_MAX; lia.
Defined.

(** ** The trace of a run *)

Lemma io_ret_bind {A B : Type} (a : A) (k : A -> io B) : mret a ≫= k = k a.
Proof. unfold mret, io_ret, mbind, io_bind. destruct (k a). reflexivity. Qed.

Lemma io_bind_fst {A B : Type} (m : io A) (k : A -> io B) :
  fst (m ≫= k)
  = fst m ++ match snd m with Ok a => fst (k a) | Fatal _ => [] end.
Proof.
  rewrite io_bind_unfold. destruct m as [tr [a|f]]; cbn [fst snd]; [reflexivity|].
  rewrite app_nil_r. reflexivity.
Qed.

Lemma io_bind_snd {A B : Type} (m : io A) (k : A -> io B) :
  snd (m ≫= k) = match snd m with Ok a => snd (k a) | Fatal f => Fatal f end.
Proof. rewrite io_bind_unfold. destruct m as [tr [a|f]]; reflexivity. Qed.

Lemma filter_bind_nil {A B : Type} (P : event -> bool) (m : io A) (k : A -> io B) :
  List.filter P (fst m) = [] -> (forall a, List.filter P (fst (k a)) = []) ->
  List.filter P (fst (m ≫= k)) = [].
Proof.
  intros Hm Hk. rewrite io_bind_fst, List.filter_app, Hm.
  destruct (snd m); [apply Hk|reflexivity].
Qed.

Lemma strip_reports_nil (t : list event) :
  strip_reports t = [] -> decodes t = [] /\ writes t = [].
Proof.
  unfold strip_reports, decodes, writes. induction t as [|e t IH]; [auto|].
  cbn [List.filter]. destruct e; cbn [is_report negb is_imread is_write];
    try discriminate. exact IH.
Qed.

Lemma prefix_of_fmap {A B : Type} (f : A -> B) (l1 l2 : list A) :
  l1 `prefix_of` l2 -> (f <$> l1) `prefix_of` (f <$> l2).
Proof. intros [k ->]. exists (f <$> k). apply fmap_app. Qed.

Section RunTrace.
Context (E : Externals) (fl : Flags).

Lemma reportTime_only_reports type metric unit_ :
  strip_reports (fst (reportTime E fl type metric unit_)) = [].
Proof.
  unfold reportTime. destruct (String.eqb _ _); [reflexivity|].
  destruct (split E bar _) as [|s0 rest]; [reflexivity|].
  rewrite io_bind_lift. destruct (assert _ _); reflexivity.
Qed.

Lemma reportTime_Ok type metric unit_ t :
  reportTime E fl type metric unit_ = (t, Ok tt) -> report_supported E fl.
Proof.
  unfold reportTime, report_supported.
  destruct (String.eqb (FLAGS_report_time fl) "") eqn:He;
    [left; apply String.eqb_eq; exact He|].
  destruct (split E bar _) as [|s0 rest]; [discriminate|].
  rewrite io_bind_lift. destruct (String.eqb s0 "json") eqn:Hj;
    cbn [assert]; [|discriminate].
  apply String.eqb_eq in Hj. subst s0. intros _. right. eauto.
Qed.

Lemma reportTime_supported type metric unit_ :
  report_supported E fl ->
  exists t, reportTime E fl type metric unit_ = (t, Ok tt).
Proof.
  unfold reportTime. intros [He|[rest Hs]].
  - rewrite He. cbn. eauto.
  - destruct (String.eqb _ _); [cbn; eauto|].
    rewrite Hs, io_bind_lift. cbn. eauto.
Qed.

(** The first events of [convertOneImage]: nothing for a name that starts
    with a tilde, else the console line and the decode, followed by timing
    lines only. *)
Lemma convertOneImage_trace filename :
  (first_char filename = "~"%char /\
   convertOneImage E fl filename
   = ([], Fatal (AssertionFailed "filename[0] != '~'"))) \/
  (first_char filename <> "~"%char /\
   exists t,
     fst (convertOneImage E fl filename)
     = EvCout ("Converting " +:+ filename)
         :: EvImread filename (FLAGS_color fl) :: t /\
     strip_reports t = []).
Proof.
  unfold convertOneImage. rewrite io_bind_lift.
  destruct (Ascii.eqb (first_char filename) "~") eqn:Ht.
  - left. apply Ascii.eqb_eq in Ht. split; [exact Ht|reflexivity].
  - right. apply Ascii.eqb_neq in Ht. split; [exact Ht|].
    cbn [negb assert]. rewrite io_bind_emit. cbn beta.
    rewrite io_bind_emit. cbn [fst snd].
    eexists. split; [reflexivity|]. unfold strip_reports.
    apply filter_bind_nil; [reflexivity|]. intros resized.
    apply filter_bind_nil; [reflexivity|]. intros height.
    apply filter_bind_nil; [reflexivity|]. intros width.
    destruct (_ || _);
      (apply filter_bind_nil; [reflexivity|]; intros [[crop h] w];
       apply filter_bind_nil; [reflexivity|]; intros _;
       apply filter_bind_nil; [reflexivity|]; intros _;
       apply filter_bind_nil; [reflexivity|]; intros v;
       apply filter_bind_nil; [apply reportTime_only_reports|]; intros _;
       reflexivity).
Qed.

Lemma convert_loop_cons f rest h w vals :
  convert_loop E fl (f :: rest) h w vals =
  match convertOneImage E fl f with
  | (t1, Ok (v, oh, ow)) =>
      if (h <? 0) && (w <? 0) then
        (t1 ++ fst (convert_loop E fl rest oh ow (vals ++ [v])),
         snd (convert_loop E fl rest oh ow (vals ++ [v])))
      else if h =? oh then
        if w =? ow then
          (t1 ++ fst (convert_loop E fl rest h w (vals ++ [v])),
           snd (convert_loop E fl rest h w (vals ++ [v])))
        else (t1, Fatal (AssertionFailed "width == one_width"))
      else (t1, Fatal (AssertionFailed "height == one_height"))
  | (t1, Fatal e) => (t1, Fatal e)
  end.
Proof.
  cbn [convert_loop]. rewrite io_bind_unfold.
  destruct (convertOneImage E fl f) as [t1 [[[v oh] ow]|e]]; [|reflexivity].
  destruct ((h <? 0) && (w <? 0)).
  - rewrite io_ret_bind. reflexivity.
  - rewrite (io_bind_unfold (lift _ ≫= _)), io_bind_lift.
    destruct (h =? oh); cbn [assert]; [|cbn [fst snd]; rewrite app_nil_r; reflexivity].
    rewrite io_bind_lift.
    destruct (w =? ow); cbn [assert]; [|cbn [fst snd]; rewrite app_nil_r; reflexivity].
    reflexivity.
Qed.

Lemma convert_loop_decodes names : forall h w vals, exists n : nat,
  decodes (fst (convert_loop E fl names h w vals))
  = (fun f => EvImread f (FLAGS_color fl)) <$> take n names /\
  Forall (fun f => first_char f <> "~"%char) (take n names) /\
  (forall r, snd (convert_loop E fl names h w vals) = Ok r ->
             take n names = names).
Proof.
  induction names as [|f rest IH]; intros h w vals.
  - exists 0%nat. cbn. repeat split; auto.
  - rewrite convert_loop_cons.
    destruct (convertOneImage_trace f) as [[Ht Hone]|[Ht (t & Hfst & Hstrip)]].
    + rewrite Hone. exists 0%nat. cbn. split; [reflexivity|].
      split; [constructor|discriminate].
    + destruct (strip_reports_nil t Hstrip) as [Hdec _].
      assert (Hhead : forall t',
        decodes (fst (convertOneImage E fl f) ++ t')
        = EvImread f (FLAGS_color fl) :: decodes t').
      { intros t'. rewrite Hfst. unfold decodes in *.
        cbn [app List.filter is_imread]. rewrite List.filter_app, Hdec.
        reflexivity. }
      destruct (convertOneImage E fl f) as [t1 [[[v oh] ow]|e]];
        cbn [fst] in Hhead.
      * assert (Hcont : forall h' w', exists n : nat,
          decodes (t1 ++ fst (convert_loop E fl rest h' w' (vals ++ [v])))
          = (fun f => EvImread f (FLAGS_color fl)) <$> take n (f :: rest) /\
          Forall (fun f => first_char f <> "~"%char) (take n (f :: rest)) /\
          (forall r, snd (convert_loop E fl rest h' w' (vals ++ [v])) = Ok r ->
                     take n (f :: rest) = f :: rest)).
        { intros h' w'.
          destruct (IH h' w' (vals ++ [v])) as (n & Hd & Hf & Hok).
          exists (S n). cbn [take fmap list_fmap]. rewrite Hhead, Hd.
          split; [reflexivity|]. split; [constructor; assumption|].
          intros r Hr. rewrite (Hok r Hr). reflexivity. }
        assert (Hstop : forall x : fatal, exists n : nat,
          decodes t1
          = (fun f => EvImread f (FLAGS_color fl)) <$> take n (f :: rest) /\
          Forall (fun f => first_char f <> "~"%char) (take n (f :: rest)) /\
          (forall r : Z * Z * list (list F32.t),
             Fatal x = Ok r -> take n (f :: rest) = f :: rest)).
        { intros x. exists 1%nat. cbn [take fmap list_fmap].
          specialize (Hhead []). rewrite app_nil_r in Hhead. rewrite Hhead.
          split; [reflexivity|]. split; [repeat constructor; assumption|].
          discriminate. }
        destruct ((h <? 0) && (w <? 0)); [apply Hcont|].
        destruct (h =? oh); [|apply Hstop].
        destruct (w =? ow); [apply Hcont|apply Hstop].
      * exists 1%nat. cbn [take fmap list_fmap fst snd].
        specialize (Hhead []). rewrite app_nil_r in Hhead. rewrite Hhead.
        split; [reflexivity|]. split; [repeat constructor; assumption|].
        discriminate.
Qed.


Lemma input_file_names_undecoding : decodes (fst (input_file_names E fl)) = [].
Proof.
  unfold input_file_names. destruct (negb _); [reflexivity|].
  destruct (negb _); reflexivity.
Qed.

(** A run, once the file names are known: the decodes are those of the
    loop, and the run succeeds only when the loop does. *)
Lemma convertImages_loop t0 names :
  input_file_names E fl = (t0, Ok names) ->
  decodes (fst (convertImages E fl))
  = decodes (fst (convert_loop E fl names (-1) (-1) [])) /\
  (forall e, snd (convert_loop E fl names (-1) (-1) []) = Fatal e ->
             snd (convertImages E fl) = Fatal e) /\
  (snd (convertImages E fl) = Ok tt ->
   exists r, snd (convert_loop E fl names (-1) (-1) []) = Ok r).
Proof.
  intros Hn. pose proof input_file_names_undecoding as H0.
  unfold convertImages. rewrite io_bind_fst, io_bind_snd, Hn in *.
  cbn [fst snd] in *. rewrite io_bind_fst, io_bind_snd.
  unfold decodes in *. rewrite !List.filter_app, H0. cbn [app].
  destruct (snd (convert_loop E fl names (-1) (-1) [])) as [[[H W] vals]|e].
  - split; [|split; [discriminate|eauto]].
    match goal with
    | |- _ ++ List.filter is_imread ?t = _ =>
        assert (Htail : List.filter is_imread t = [])
    end.
    { apply filter_bind_nil; [reflexivity|]. intros data.
      apply filter_bind_nil.
      - apply (strip_reports_nil _ (reportTime_only_reports _ _ _)).
      - intros _. destruct (FLAGS_text_output fl); reflexivity. }
    rewrite Htail. apply app_nil_r.
  - split; [apply app_nil_r|]. split; [intros e' [= <-]; reflexivity|discriminate].
Qed.

End RunTrace.

(** X13.  A [report_time] value that is neither empty nor of the type
    [json] ends every run fatally before the tensor is written, also a run
    over no file: the type is checked when the packing time is reported. *)
Theorem unsupported_report_type (E : Externals) (fl : Flags) :
  ~ report_supported E fl ->
  exists tr e, convertImages E fl = (tr, Fatal e) /\ writes tr = [].
Proof.
  intros Hno. destruct (convertImages E fl) as [tr [[]|e]] eqn:Hrun.
  - exfalso. apply Hno. unfold convertImages in Hrun.
    apply io_bind_Ok in Hrun as (t0 & names & t & _ & Hrun & _).
    apply io_bind_Ok in Hrun as (t1 & [[H W] vals] & t' & _ & Hrun & _).
    apply io_bind_lift_Ok in Hrun as (data & _ & Hrun).
    apply io_bind_Ok in Hrun as (t2 & [] & t3 & Hrep & _).
    exact (reportTime_Ok _ _ _ _ _ _ Hrep).
  - exists tr, e. split; [reflexivity|].
    exact (convertImages_fatal_silent E fl tr e Hrun).
Qed.

Lemma unsupported_report_type_witness :
  exists tr e,
    convertImages Fixture.E (with_report_time "csv" Fixture.two_squares)
    = (tr, Fatal e) /\ writes tr = [].
Proof.
  apply (unsupported_report_type Fixture.E
           (with_report_time "csv" Fixture.two_squares)).
  intros [H|[rest H]]; vm_compute in H; discriminate.
Defined.

(** X14.  A file name that starts with a tilde stops the run: the run ends
    fatally, it has written nothing, and it has decoded no file from that
    name on, only (some of) the files before it, in their order. *)
Theorem tilde_name_stops_run (E : Externals) (fl : Flags) (t0 : list event)
    (pre post : list string) (f : string) :
  input_file_names E fl = (t0, Ok (pre ++ f :: post)) ->
  first_char f = "~"%char ->
  exists tr e,
    convertImages E fl = (tr, Fatal e) /\ writes tr = [] /\
    decodes tr `prefix_of` ((fun g => EvImread g (FLAGS_color fl)) <$> pre).
Proof.
  intros Hn Ht.
  destruct (convertImages_loop E fl t0 _ Hn) as (Hdec & _ & Hok).
  destruct (convert_loop_decodes E fl (pre ++ f :: post) (-1) (-1) [])
    as (n & Hd & Hall & Hfull).
  assert (Hn' : (n <= length pre)%nat).
  { destruct (Nat.le_gt_cases n (length pre)) as [Hle|Hgt]; [exact Hle|].
    exfalso. rewrite Forall_forall in Hall. apply (Hall f); [|exact Ht].
    apply list_elem_of_lookup. exists (length pre).
    rewrite lookup_take_lt by lia.
    rewrite lookup_app_r by lia. rewrite Nat.sub_diag. reflexivity. }
  destruct (convertImages E fl) as [tr [[]|e]] eqn:Hrun; cbn [fst snd] in *.
  - exfalso. destruct (Hok eq_refl) as [r Hr].
    specialize (Hfull r Hr). apply (f_equal length) in Hfull.
    rewrite length_take, length_app in Hfull. cbn [length] in Hfull. lia.
  - exists tr, e. split; [reflexivity|].
    split; [exact (convertImages_fatal_silent E fl tr e Hrun)|].
    rewrite Hdec, Hd. rewrite take_app_le by lia.
    apply prefix_of_fmap. apply prefix_take.
Qed.

Lemma tilde_name_stops_run_witness :
  exists tr e,
    convertImages Fixture.E
      (with_input_images "square.png,~/a.png,square.png" Fixture.two_squares)
    = (tr, Fatal e) /\ writes tr = [] /\
    decodes tr `prefix_of` ((fun g => EvImread g true) <$> ["square.png"]).
Proof.
  apply (tilde_name_stops_run Fixture.E
           (with_input_images "square.png,~/a.png,square.png" Fixture.two_squares)
           [] ["square.png"] ["square.png"] "~/a.png");
    vm_compute; reflexivity.
Defined.

(** X15.  The files are decoded in the order of the file names, each at
    most once and none after a failure: the decodes of a run are a prefix
    of the file names, each decoded in the colour mode of the run, and a
    run that succeeds has decoded every file exactly once. *)
Theorem decodes_in_input_order (E : Externals) (fl : Flags) (t0 : list event)
    (names : list string) :
  input_file_names E fl = (t0, Ok names) ->
  decodes (fst (convertImages E fl))
    `prefix_of` ((fun f => EvImread f (FLAGS_color fl)) <$> names) /\
  (snd (convertImages E fl) = Ok tt ->
   decodes (fst (convertImages E fl))
   = (fun f => EvImread f (FLAGS_color fl)) <$> names).
Proof.
  intros Hn.
  destruct (convertImages_loop E fl t0 _ Hn) as (Hdec & _ & Hok).
  destruct (convert_loop_decodes E fl names (-1) (-1) [])
    as (n & Hd & _ & Hfull).
  rewrite Hdec, Hd. split.
  - apply prefix_of_fmap. apply prefix_take.
  - intros Hrun. destruct (Hok Hrun) as [r Hr]. rewrite (Hfull r Hr).
    reflexivity.
Qed.

Lemma decodes_in_input_order_witness :
  decodes (fst (convertImages Fixture.E Fixture.two_squares))
  = (fun f => EvImread f true) <$> ["square.png"; "square.png"].
Proof.
  apply (proj2 (decodes_in_input_order Fixture.E Fixture.two_squares
                  [] ["square.png"; "square.png"] eq_refl)).
  vm_compute. reflexivity.
Defined.

(** ** Timing reports *)

Lemma same_but_reports_refl {A : Type} (m : io A) : same_but_reports m m.
Proof. split; reflexivity. Qed.

Lemma same_but_reports_bind {A B : Type} (m m' : io A) (k k' : A -> io B) :
  same_but_reports m m' -> (forall a, same_but_reports (k a) (k' a)) ->
  same_but_reports (m ≫= k) (m' ≫= k').
Proof.
  intros [Ht Hr] Hk. unfold same_but_reports, strip_reports in *.
  rewrite !io_bind_fst, !io_bind_snd, !List.filter_app, Ht, Hr.
  destruct (snd m') as [a|f]; [|split; reflexivity].
  destruct (Hk a) as [Hka1 Hka2]. rewrite Hka1, Hka2. split; reflexivity.
Qed.

Section Reports.
Context (E : Externals) (fl : Flags) (s : string).
Hypothesis supported : report_supported E fl.
Hypothesis supported' : report_supported E (with_report_time s fl).

Lemma reportTime_same type metric unit_ :
  same_but_reports (reportTime E fl type metric unit_)
                   (reportTime E (with_report_time s fl) type metric unit_).
Proof.
  destruct (reportTime_supported E fl type metric unit_ supported) as [t1 H1].
  destruct (reportTime_supported E _ type metric unit_ supported') as [t2 H2].
  pose proof (reportTime_only_reports E fl type metric unit_) as S1.
  pose proof (reportTime_only_reports E (with_report_time s fl) type metric unit_)
    as S2.
  rewrite H1 in *. rewrite H2 in *. split; cbn [fst snd] in *; congruence.
Qed.

Lemma convertOneImage_same filename :
  same_but_reports (convertOneImage E fl filename)
                   (convertOneImage E (with_report_time s fl) filename).
Proof.
  unfold convertOneImage.
  apply same_but_reports_bind; [apply same_but_reports_refl|]. intros _.
  apply same_but_reports_bind; [apply same_but_reports_refl|]. intros _.
  apply same_but_reports_bind; [apply same_but_reports_refl|]. intros _.
  apply same_but_reports_bind; [apply same_but_reports_refl|]. intros resized.
  apply same_but_reports_bind; [apply same_but_reports_refl|]. intros height.
  apply same_but_reports_bind; [apply same_but_reports_refl|]. intros width.
  destruct (_ || _);
    (apply same_but_reports_bind; [apply same_but_reports_refl|];
     intros [[crop h] w];
     apply same_but_reports_bind; [apply same_but_reports_refl|]; intros _;
     apply same_but_reports_bind; [apply same_but_reports_refl|]; intros _;
     apply same_but_reports_bind; [apply same_but_reports_refl|]; intros v;
     apply same_but_reports_bind; [apply reportTime_same|]; intros _;
     apply same_but_reports_refl).
Qed.

Lemma convert_loop_same names : forall h w vals,
  same_but_reports (convert_loop E fl names h w vals)
                   (convert_loop E (with_report_time s fl) names h w vals).
Proof.
  induction names as [|f rest IH]; intros h w vals; cbn [convert_loop];
    [apply same_but_reports_refl|].
  apply same_but_reports_bind; [apply convertOneImage_same|].
  intros [[v oh] ow].
  apply same_but_reports_bind; [apply same_but_reports_refl|].
  intros [h' w']. apply IH.
Qed.

(** X16.  Timing reports only add lines to the console: two runs that
    differ in the value of [report_time], both values empty or of the type
    [json], end the same way and have the same trace once the timing lines
    are left out: the same decodes, the same file written with the same
    tensor. *)
Theorem report_time_observational :
  same_but_reports (convertImages E fl) (convertImages E (with_report_time s fl)) /\
  decodes (fst (convertImages E fl))
  = decodes (fst (convertImages E (with_report_time s fl))) /\
  writes (fst (convertImages E fl))
  = writes (fst (convertImages E (with_report_time s fl))).
Proof.
  assert (Hsame : same_but_reports (convertImages E fl)
                    (convertImages E (with_report_time s fl))).
  { unfold convertImages.
    apply same_but_reports_bind; [apply same_but_reports_refl|]. intros names.
    apply same_but_reports_bind; [apply convert_loop_same|].
    intros [[h w] vals].
    apply same_but_reports_bind; [apply same_but_reports_refl|]. intros data.
    apply same_but_reports_bind; [apply reportTime_same|]. intros _.
    apply same_but_reports_refl. }
  split; [exact Hsame|]. destruct Hsame as [Hstrip _].
  assert (Hfilter : forall (P : event -> bool) (t : list event),
    (forall e, is_report e = true -> P e = false) ->
    List.filter P (strip_reports t) = List.filter P t).
  { intros P t HP. unfold strip_reports.
    induction t as [|e t IH]; [reflexivity|]. cbn [List.filter].
    destruct (is_report e) eqn:He; cbn [negb List.filter].
    - rewrite (HP e He). exact IH.
    - destruct (P e); [f_equal|]; exact IH. }
  unfold decodes, writes.
  rewrite <- (Hfilter is_imread (fst (convertImages E fl))),
          <- (Hfilter is_imread (fst (convertImages E (with_report_time s fl)))),
          <- (Hfilter is_write (fst (convertImages E fl))),
          <- (Hfilter is_write (fst (convertImages E (with_report_time s fl))));
    try (intros [] He; try discriminate He; reflexivity).
  rewrite Hstrip. split; reflexivity.
Qed.

End Reports.

Lemma report_time_observational_witness :
  same_but_reports
    (convertImages Fixture.E Fixture.two_squares)
    (convertImages Fixture.E (with_report_time "json|run1" Fixture.two_squares)).
Proof.
  apply (report_time_observational Fixture.E Fixture.two_squares "json|run1").
  - left. reflexivity.
  - right. exists ["run1"]. vm_compute. reflexivity.
Defined.

(** ** Batches at the edges *)

(** X17.  A run over no file name, as with a list file that is missing or
    has no line, succeeds: it writes a tensor with the dims
    [0, C, -1, -1] and no data. *)
Theorem empty_batch (E : Externals) (fl : Flags) (t0 : list event) :
  input_file_names E fl = (t0, Ok []) ->
  report_supported E fl ->
  exists tr,
    convertImages E fl = (tr, Ok tt) /\
    writes tr
    = [write_event fl
         [{| data_type := FLOAT;
             dims := [0; channels fl; -1; -1];
             float_data := [] |}]] /\
    decodes tr = [].
Proof.
  intros Hn Hs.
  destruct (reportTime_supported E fl "image_preprocess" "pack" "us" Hs)
    as [t Hr].
  pose proof (reportTime_only_reports E fl "image_preprocess" "pack" "us") as St.
  rewrite Hr in St. cbn [fst] in St.
  destruct (strip_reports_nil t St) as [Hd Hw].
  pose proof (input_file_names_silent E fl) as S0.
  pose proof (input_file_names_undecoding E fl) as D0.
  rewrite Hn in S0, D0. unfold silent in S0. cbn [fst] in S0, D0.
  unfold convertImages.
  rewrite io_bind_unfold, Hn. cbn [convert_loop]. rewrite io_ret_bind.
  rewrite io_bind_lift. cbn [pack_loop]. rewrite (io_bind_unfold (reportTime _ _ _ _ _)), Hr.
  unfold write_event, channels, writes, decodes in *.
  destruct (FLAGS_text_output fl); cbn [fst snd emit length Z.of_nat];
    (eexists; split; [reflexivity|]);
    rewrite !List.filter_app, S0, D0, Hd, Hw; split; reflexivity.
Qed.

Lemma empty_batch_witness :
  exists tr,
    convertImages Fixture.E (with_input_image_file "missing.txt" default_flags)
    = (tr, Ok tt) /\
    writes tr
    = [write_event (with_input_image_file "missing.txt" default_flags)
         [{| data_type := FLOAT;
             dims := [0; channels (with_input_image_file "missing.txt" default_flags);
                      -1; -1];
             float_data := [] |}]] /\
    decodes tr = [].
Proof.
  apply (empty_batch Fixture.E (with_input_image_file "missing.txt" default_flags)
           [EvReadFile "missing.txt"]).
  - vm_compute. reflexivity.
  - left. reflexivity.
Defined.

(** A loop that succeeds has converted every file name. *)
Lemma convert_loop_all (E : Externals) (fl : Flags) (names : list string) :
  forall h w vals r,
    snd (convert_loop E fl names h w vals) = Ok r ->
    forall f, f ∈ names -> exists t x, convertOneImage E fl f = (t, Ok x).
Proof.
  induction names as [|g rest IH]; intros h w vals r Hr f Hf.
  - apply elem_of_nil in Hf. contradiction.
  - rewrite convert_loop_cons in Hr.
    destruct (convertOneImage E fl g) as [t1 [[[v oh] ow]|e]] eqn:Hone;
      [|discriminate].
    apply elem_of_cons in Hf as [->|Hf]; [eauto|].
    destruct ((h <? 0) && (w <? 0)); [exact (IH _ _ _ _ Hr f Hf)|].
    destruct (h =? oh); [|discriminate].
    destruct (w =? ow); [|discriminate].
    exact (IH _ _ _ _ Hr f Hf).
Qed.

(** X18.  All or nothing: when the conversion of any of the files ends
    fatally, so does the run, and no tensor is written, not even for the
    files converted before. *)
Theorem all_or_nothing (E : Externals) (fl : Flags) (t0 : list event)
    (names : list string) (f : string) (t : list event) (e : fatal) :
  input_file_names E fl = (t0, Ok names) ->
  f ∈ names ->
  convertOneImage E fl f = (t, Fatal e) ->
  exists tr e', convertImages E fl = (tr, Fatal e') /\ writes tr = [].
Proof.
  intros Hn Hf Hone.
  destruct (convertImages_loop E fl t0 names Hn) as (_ & _ & Hok).
  destruct (convertImages E fl) as [tr [[]|e']] eqn:Hrun.
  - exfalso. destruct (Hok eq_refl) as [r Hr].
    destruct (convert_loop_all E fl names _ _ _ r Hr f Hf) as (t' & x & Hx).
    rewrite Hone in Hx. discriminate.
  - exists tr, e'. split; [reflexivity|].
    exact (convertImages_fatal_silent E fl tr e' Hrun).
Qed.

Lemma all_or_nothing_witness :
  exists tr e',
    convertImages Fixture.E
      (with_input_images "square.png,wide.png" Fixture.two_squares)
    = (tr, Fatal e') /\ writes tr = [].
Proof.
  eapply (all_or_nothing Fixture.E
            (with_input_images "square.png,wide.png" Fixture.two_squares)
            [] ["square.png"; "wide.png"] "wide.png").
  - vm_compute. reflexivity.
  - apply list_elem_of_further, list_elem_of_here.
  - vm_compute. reflexivity.
Defined.

(** X19.  Only square tensors: a conversion succeeds only with a final
    height equal to the final width, so the tensor a run writes has the
    dims [N, C, H, H] (with [H = -1] for no file). *)
Theorem only_square_tensors (E : Externals) (fl : Flags) :
  imread_well_formed E ->
  (forall f t v h w, convertOneImage E fl f = (t, Ok (v, h, w)) -> h = w) /\
  (forall tr, convertImages E fl = (tr, Ok tt) ->
     exists N H data,
       writes tr
       = [write_event fl
            [{| data_type := FLOAT;
                dims := [N; channels fl; H; H];
                float_data := data |}]]).
Proof.
  intros codec. split.
  - intros f t v h w Hone.
    apply (convertOneImage_Ok E fl f t v h w codec Hone).
  - intros tr Hrun.
    apply (convertImages_Ok E fl codec) in Hrun
      as (t0 & names & H & W & vs & _ & Hall & Hempty & _ & Hw).
    exists (Z.of_nat (length vs)), H, (concat vs). rewrite Hw.
    assert (HW : W = H).
    { destruct Hall as [|f v names vs [t Hone] _].
      - destruct Hempty as [-> ->]; reflexivity.
      - symmetry. apply (convertOneImage_Ok E fl f t v H W codec Hone). }
    rewrite HW. reflexivity.
Qed.

Lemma only_square_tensors_witness :
  exists N H data,
    writes (fst (convertImages Fixture.E Fixture.two_squares))
    = [write_event Fixture.two_squares
         [{| data_type := FLOAT;
             dims := [N; channels Fixture.two_squares; H; H];
             float_data := data |}]].
Proof.
  apply (proj2 (only_square_tensors Fixture.E Fixture.two_squares
                  fixture_well_formed)).
  vm_compute. reflexivity.
Defined.
